(** * The key-path resolver of the Arm reference-platforms workspace script

    A shallow embedding of [class Database(dict)] of [armplat_1901.py]
    ([lookup], [multilookup], the wrappers [dblu] and [dblum]) and of the
    Python string and dictionary operations it relies on, followed by the
    properties of the resolver.

    Python dictionaries keyed by strings are finite maps [gmap string value];
    a call that ends in [script.abort] (which always leaves through
    [sys.exit]) is an [Abort]; an uncaught Python [TypeError] is [TypeError];
    recursion depth and the number of passes of the [while] loop are bounded by
    an explicit budget, and a call that exceeds it is [OutOfFuel].

    [Module Store] embeds [lookup] once more with the dicts as objects of
    a store, which the method reads, makes and updates in place; it is shown
    to do what the function on values does, and to leave the objects it
    finds as they are.

    A second part embeds the code of the script around the resolver: the
    path names of [class sh] ([fmtpath], [url2dld]) and the choice of the
    handler in [sh.extract_or_copy], [check_sys_gcc], [get_ws_files],
    [class choice] with [choice.tree], [prompt] and [tree_prompt], and
    [crawl] of [config._choose_p]; its properties come last. *)

From stdpp Require Import gmap strings list fin_maps sorting.
From Stdlib Require Import ZArith Ascii String.

Set Warnings "-register-all,-clear-no-such-hyp".
Local Open Scope Z_scope.

(** ** Values stored in, and returned from, the database *)

Inductive value : Type :=
  | VNone                              (* Python None *)
  | VBool (b : bool)                   (* True / False *)
  | VInt (z : Z)                       (* e.g. "priority": 51 *)
  | VStr (s : string)
  | VDict (m : gmap string value)      (* nested node *)
  | VList (l : list value)             (* e.g. "k": ["k.ack", "k.latest"] *)
  | VSet (l : list string).            (* e.g. the apt package set *)

Abbreviation Database := (gmap string value).

Definition is_none (v : value) : bool :=
  match v with VNone => true | _ => false end.

(** ** Outcomes of a call *)

Inductive abort : Type :=
  | InvalidContext            (* "lookup key=... with invalid plat=..." *)
  | SelfReference             (* "recursive lookup 111" *)
  | MalformedReference        (* "... imbalanced number of { and }" *)
  | NonTerminatingReference   (* "recursive lookup" *)
  | NotFound.                 (* "... returns None but noneAllowed is False" *)

Inductive outcome (A : Type) : Type :=
  | Ret (a : A)
  | Abort (e : abort)
  | TypeError
  | OutOfFuel.

Arguments Ret {A} a.
Arguments Abort {A} e.
Arguments TypeError {A}.
Arguments OutOfFuel {A}.

Definition obind {A B} (f : A → outcome B) (o : outcome A) : outcome B :=
  match o with
  | Ret a => f a
  | Abort e => Abort e
  | TypeError => TypeError
  | OutOfFuel => OutOfFuel
  end.

#[global] Instance outcome_mbind : MBind outcome := @obind.
#[global] Instance outcome_mret : MRet outcome := @Ret.

(** ** Python string operations used by [lookup] *)

Module PyStr.

Fixpoint count (c : ascii) (s : string) : nat :=
  match s with
  | EmptyString => 0%nat
  | String a s' => ((if Ascii.eqb a c then 1 else 0) + count c s')%nat
  end.

(* [c in s] for a one-character [c] *)
Fixpoint contains (c : ascii) (s : string) : bool :=
  match s with
  | EmptyString => false
  | String a s' => Ascii.eqb a c || contains c s'
  end.

Fixpoint index_of (c : ascii) (s : string) : option nat :=
  match s with
  | EmptyString => None
  | String a s' =>
      if Ascii.eqb a c then Some 0%nat
      else match index_of c s' with Some i => Some (S i) | None => None end
  end.

(* [s.find(c)]: the lowest index of [c], or -1 *)
Definition find (c : ascii) (s : string) : Z :=
  match index_of c s with Some i => Z.of_nat i | None => -1 end.

(* [s[i:j]] with Python's treatment of negative and out-of-range bounds *)
Definition slice (s : string) (i j : Z) : string :=
  let n := Z.of_nat (String.length s) in
  let clamp x := if x <? 0 then Z.max (x + n) 0 else Z.min x n in
  let a := clamp i in
  let b := clamp j in
  substring (Z.to_nat a) (Z.to_nat (b - a)) s.

Definition startswith (c : ascii) (s : string) : bool :=
  match s with
  | String a _ => Ascii.eqb a c
  | EmptyString => false
  end.

(* [s.split(c)]: never the empty list *)
Fixpoint split (c : ascii) (s : string) : list string :=
  match s with
  | EmptyString => [EmptyString]
  | String a s' =>
      if Ascii.eqb a c then EmptyString :: split c s'
      else match split c s' with
           | h :: t => String a h :: t
           | [] => [String a EmptyString]
           end
  end.

(* [s.replace(old, new)] for a non-empty [old]: non-overlapping
   occurrences, leftmost first; [skip] characters of a matched occurrence
   remain to be dropped *)
Fixpoint replace_from (old new : string) (skip : nat) (s : string) : string :=
  match s with
  | EmptyString => EmptyString
  | String a s' =>
      match skip with
      | S k => replace_from old new k s'
      | O =>
          if String.prefix old s
          then String.append new (replace_from old new (String.length old - 1) s')
          else String a (replace_from old new 0 s')
      end
  end.

(* [s.replace("", new)]: [new] before every character and at the end *)
Fixpoint intersperse (new s : string) : string :=
  match s with
  | EmptyString => new
  | String a s' => String.append new (String a (intersperse new s'))
  end.

Definition replace (s old new : string) : string :=
  match old with
  | EmptyString => intersperse new s
  | String _ _ => replace_from old new 0 s
  end.

End PyStr.

(** ** Dictionary operations *)

(* [assimilate = lambda src: [d.update({k:v}) for k,v in src.items()]] *)
Definition assimilate (d src : Database) : Database :=
  map_fold (λ k v acc, <[k:=v]> acc) d src.

(** ** [Database.lookup] *)

Section LookupBody.

Variable plat : option string.
(* [Database(d).lookup(k, plat)]: the nested call, [noneAllowed] left at
   its default [False] *)
Variable nested : Database → string → outcome value.
(* [dblu(k, plat)]: the same against the global [ARMPLATDB] *)
Variable dblu_nested : string → outcome value.

Definition subPlat (k : string) : outcome string :=
  if PyStr.contains "@" k then
    match plat with
    | Some p => Ret (PyStr.replace k "@" p)
    | None => Abort InvalidContext
    end
  else Ret k.

(* [lookupLvl[k] if k in lookupLvl else d[k] if k in d else None] *)
Definition resolve (lookupLvl d : Database) (k : string) : value :=
  match lookupLvl !! k with
  | Some v => v
  | None => match d !! k with Some v => v | None => VNone end
  end.

(* [item.startswith("#")] and [item.count("{")==item.count("}")==1] *)
Definition is_xref (s : string) : bool :=
  PyStr.startswith "#" s
  && Nat.eqb (PyStr.count "{" s) (PyStr.count "}" s)
  && Nat.eqb (PyStr.count "}" s) 1.

(* [(l, r) = (item.find("{"), item.find("}"))], then [item[l+1:r]] and
   [item[l:r+1]] *)
Definition inner_key (item : string) : string :=
  PyStr.slice item (PyStr.find "{" item + 1) (PyStr.find "}" item).

Definition token (item : string) : string :=
  PyStr.slice item (PyStr.find "{" item) (PyStr.find "}" item + 1).

(* the body of [for k in subPlat(key).split("."):], one segment *)
Definition cross_reference (d : Database) (item : value) : outcome value :=
  match item with
  | VStr s => if is_xref s then nested d (inner_key s) else Ret item
  | _ => Ret item
  end.

Fixpoint walk (ks : list string) (lookupLvl d : Database) (item : value)
  : outcome (value * Database) :=
  match ks with
  | [] => Ret (item, d)
  | k :: ks' =>
      let item := resolve lookupLvl d k in
      if is_none item then Ret (VNone, d)
      else
        item ← cross_reference d item;
        match item with
        | VDict m => walk ks' m (assimilate d m) (VDict m)
        | _ => walk ks' lookupLvl d item
        end
  end.

(* [while "{" in item: ...] *)
Fixpoint substitute (fuel : nat) (d : Database) (item : string)
  : outcome string :=
  if negb (PyStr.contains "{" item) then Ret item
  else
    match fuel with
    | O => OutOfFuel
    | S fuel' =>
        let search := inner_key item in
        let replace := token item in
        sub ← nested d search;
        match sub with
        | VStr sub =>
            let old_item := item in
            let item := PyStr.replace item replace sub in
            if String.eqb item old_item then
              sub ← dblu_nested search;
              match sub with
              | VStr sub =>
                  let item := PyStr.replace old_item replace sub in
                  if String.eqb item old_item
                  then Abort NonTerminatingReference
                  else substitute fuel' d item
              | _ => TypeError
              end
            else substitute fuel' d item
        | _ => TypeError
        end
    end.

(* [if isinstance(item, str): ...] *)
Definition postprocess (fuel : nat) (key : string) (d : Database)
    (item : value) : outcome value :=
  match item with
  | VStr s =>
      if String.eqb (String "{" (String.append key "}")) s
      then Abort SelfReference
      else if String.eqb "null" s then Ret VNone
      else if String.eqb "true" s then Ret (VBool true)
      else
        s ← subPlat s;
        if negb (Nat.eqb (PyStr.count "{" s) (PyStr.count "}" s))
        then Abort MalformedReference
        else s ← substitute fuel d s; Ret (VStr s)
  | _ => Ret item
  end.

(* [if item is None and not noneAllowed: script.abort(...)], [return item] *)
Definition finish (noneAllowed : bool) (item : value) : outcome value :=
  if is_none item && negb noneAllowed then Abort NotFound else Ret item.

Definition lookup_body (fuel : nat) (self : Database) (key : string)
    (noneAllowed : bool) : outcome value :=
  k ← subPlat key;
  let d := assimilate ∅ self in
  '(item, d) ← walk (PyStr.split "." k) d d VNone;
  item ← postprocess fuel key d item;
  finish noneAllowed item.

End LookupBody.

(* [ARMPLATDB] is the module-level database that [dblu] consults; [self] is
   the receiver, which is [ARMPLATDB] itself for a top-level call and
   [Database(d)] for a nested one. A call with budget [S n] gives the budget
   [n] to each call nested in it, and makes at most [n] passes through its
   [while] loop. *)
Fixpoint lookup (fuel : nat) (ARMPLATDB self : Database) (key : string)
    (plat : option string) (noneAllowed : bool) : outcome value :=
  match fuel with
  | O => OutOfFuel
  | S n =>
      lookup_body plat
        (λ d k, lookup n ARMPLATDB d k plat false)
        (λ k, lookup n ARMPLATDB ARMPLATDB k plat false)
        n self key noneAllowed
  end.

Definition dblu (fuel : nat) (ARMPLATDB : Database) (key : string)
    (plat : option string) (noneAllowed : bool) : outcome value :=
  lookup fuel ARMPLATDB ARMPLATDB key plat noneAllowed.

(* [[self.lookup(root+"."+k, plat, noneAllowed) for k in keys]] *)
Fixpoint multilookup (fuel : nat) (ARMPLATDB self : Database) (root : string)
    (keys : list string) (plat : option string) (noneAllowed : bool)
  : outcome (list value) :=
  match keys with
  | [] => Ret []
  | k :: keys' =>
      v ← lookup fuel ARMPLATDB self
            (String.append root (String "." k)) plat noneAllowed;
      vs ← multilookup fuel ARMPLATDB self root keys' plat noneAllowed;
      Ret (v :: vs)
  end.

Definition dblum (fuel : nat) (ARMPLATDB : Database) (root : string)
    (keys : list string) (plat : option string) (noneAllowed : bool)
  : outcome (list value) :=
  multilookup fuel ARMPLATDB ARMPLATDB root keys plat noneAllowed.

(** ** The budget only decides whether a call finishes, never its result *)

(* [refines o1 o2]: [o1] ran out of budget, or it is [o2] *)
Definition refines {A} (o1 o2 : outcome A) : Prop :=
  o1 = OutOfFuel ∨ o1 = o2.

(** ** The loop of [lookup], with its state after each segment exposed *)

Inductive loop_state : Type :=
  | Running (lookupLvl d : Database) (item : value)
  | Broken (d : Database).         (* left through [break]: [item] is None *)

Definition loop_step (nested : Database → string → outcome value)
    (k : string) (st : loop_state) : outcome loop_state :=
  match st with
  | Broken d => Ret (Broken d)
  | Running lookupLvl d _ =>
      let item := resolve lookupLvl d k in
      if is_none item then Ret (Broken d)
      else
        item ← cross_reference nested d item;
        Ret (match item with
             | VDict m => Running m (assimilate d m) (VDict m)
             | _ => Running lookupLvl d item
             end)
  end.

Fixpoint run_loop (nested : Database → string → outcome value)
    (ks : list string) (st : loop_state) : outcome loop_state :=
  match ks with
  | [] => Ret st
  | k :: ks' => st' ← loop_step nested k st; run_loop nested ks' st'
  end.

Definition loop_result (st : loop_state) : value * Database :=
  match st with
  | Running _ d item => (item, d)
  | Broken d => (VNone, d)
  end.

(** ** The calls that [lookup] makes at budget [S n] *)

(* [Database(d).lookup(k, plat)] *)
Definition nested_lookup (n : nat) (ARMPLATDB : Database)
    (plat : option string) (d : Database) (k : string) : outcome value :=
  lookup n ARMPLATDB d k plat false.

(* [dblu(k, plat)] *)
Definition root_lookup (n : nat) (ARMPLATDB : Database)
    (plat : option string) (k : string) : outcome value :=
  lookup n ARMPLATDB ARMPLATDB k plat false.

(* the segments of [subPlat(key).split(".")] *)
Definition segments (plat : option string) (key : string)
  : outcome (list string) :=
  k ← subPlat plat key; Ret (PyStr.split "." k).

(* the item and the aggregate [d] with which the [for] loop ends *)
Definition walked (n : nat) (ARMPLATDB self : Database) (key : string)
    (plat : option string) : outcome (value * Database) :=
  ks ← segments plat key;
  let d := assimilate ∅ self in
  walk (nested_lookup n ARMPLATDB plat) ks d d VNone.

(* the [while] loop as run by [lookup] at budget [S n] *)
Definition substitution (n : nat) (ARMPLATDB : Database)
    (plat : option string) (fuel : nat) (d : Database) (item : string)
  : outcome string :=
  substitute (nested_lookup n ARMPLATDB plat) (root_lookup n ARMPLATDB plat)
    fuel d item.

(** ** The [while] loop of [lookup], pass by pass *)

(* the string with which the [while] loop is entered, and the aggregate [d]:
   the walked-to item is a string, it is neither "{key}" nor a reserved
   literal, "@" has been replaced in it and its braces are balanced *)
Definition loop_entry (n : nat) (ARMPLATDB self : Database) (key : string)
    (plat : option string) : option (string * Database) :=
  match walked n ARMPLATDB self key plat with
  | Ret (VStr s, d) =>
      if String.eqb (String "{" (String.append key "}")) s then None
      else if String.eqb "null" s then None
      else if String.eqb "true" s then None
      else
        match subPlat plat s with
        | Ret s' =>
            if Nat.eqb (PyStr.count "{" s') (PyStr.count "}" s')
            then Some (s', d) else None
        | _ => None
        end
  | _ => None
  end.

(* the string after [j] passes, each of which resolved its token to a string
   against the aggregate and changed the text *)
Fixpoint after_passes (nested : Database → string → outcome value)
    (j : nat) (d : Database) (item : string) : option string :=
  match j with
  | O => Some item
  | S j' =>
      if PyStr.contains "{" item then
        match nested d (inner_key item) with
        | Ret (VStr sub) =>
            let item' := PyStr.replace item (token item) sub in
            if String.eqb item' item then None
            else after_passes nested j' d item'
        | _ => None
        end
      else None
  end.

(** ** Nodes, their ancestors, and what a node sees *)

(* the nodes entered by following the segments [ks] from [lookupLvl], each
   segment being a key of the node reached so far and naming a dict *)
Fixpoint enters (lookupLvl : Database) (ks : list string)
  : option (list Database) :=
  match ks with
  | [] => Some []
  | k :: ks' =>
      match lookupLvl !! k with
      | Some (VDict m) =>
          match enters m ks' with
          | Some ms => Some (m :: ms)
          | None => None
          end
      | _ => None
      end
  end.

(* the value of [k] in the first node of the chain that defines it *)
Fixpoint nearest (k : string) (chain : list Database) : option value :=
  match chain with
  | [] => None
  | m :: chain' =>
      match m !! k with
      | Some v => Some v
      | None => nearest k chain'
      end
  end.

(* a string that [lookup] returns as it stands *)
Definition plain (s : string) : bool :=
  negb (PyStr.contains "{" s) && negb (PyStr.contains "}" s)
  && negb (PyStr.contains "@" s)
  && negb (String.eqb "null" s) && negb (String.eqb "true" s).

(* a value that [lookup] returns as it stands *)
Definition inert (v : value) : bool :=
  match v with
  | VNone => false
  | VStr s => plain s
  | _ => true
  end.

(** ** Template strings, piece by piece *)

(* a template string is a sequence of texts and of tokens "{X}" *)
Inductive piece : Type :=
  | Text (s : string)
  | Tok (X : string).

Fixpoint render (ps : list piece) : string :=
  match ps with
  | [] => EmptyString
  | Text s :: ps' => String.append s (render ps')
  | Tok X :: ps' => String "{" (String.append X (String "}" (render ps')))
  end.

Definition brace_free (s : string) : bool :=
  negb (PyStr.contains "{" s) && negb (PyStr.contains "}" s).

(* neither the texts nor the keys of the tokens contain a brace *)
Definition piece_ok (p : piece) : bool :=
  match p with
  | Text s => brace_free s
  | Tok X => brace_free X
  end.

Fixpoint tokens (ps : list piece) : nat :=
  match ps with
  | [] => 0%nat
  | Text _ :: ps' => tokens ps'
  | Tok _ :: ps' => S (tokens ps')
  end.

(* the token "{X}" replaced by the text [sub] *)
Definition fill (X sub : string) (p : piece) : piece :=
  match p with
  | Tok X' => if String.eqb X' X then Text sub else p
  | Text _ => p
  end.

(* every token replaced by the value of its key *)
Fixpoint expand (value_of : string → string) (ps : list piece) : string :=
  match ps with
  | [] => EmptyString
  | Text s :: ps' => String.append s (expand value_of ps')
  | Tok X :: ps' => String.append (value_of X) (expand value_of ps')
  end.

(** ** Databases: those of the script's documentation, and small ones that
    exercise one feature each *)

Module Docs.
Local Open Scope string_scope.

(* the examples of the comment that documents [ARMPLATDB] *)
Definition people : Database :=
  {[ "people" := VDict
       (<["surname" := VStr "Smith"]>
       (<["john" := VDict {[ "name" := VStr "John" ]}]>
       (<["jane" := VDict {[ "name" := VStr "Jane" ]}]>
       (<["alexa" := VDict (<["name" := VStr "Alexa"]>
                            {[ "surname" := VStr "Smith-Doe" ]})]> ∅)))) ]}.

Definition arm : Database :=
  <["arm" := VDict
      (<["release" := VStr "18.10"]>
      (<["url" := VStr "https://example.com/"]>
      {[ "title" := VStr "Arm Platforms Software {release}" ]}))]>
  {[ "something" := VDict
      {[ "url" := VStr "{arm.url}/path/to/{arm.release}/123.zip" ]} ]}.

Definition thing : Database :=
  {[ "thing" := VDict
      (<["url" := VStr "https://example.com"]>
      (<["name0" := VStr "AAA"]>
      (<["name" := VStr "{name0}-{name1}.zip"]>
      (<["variant1" := VDict {[ "name1" := VStr "111" ]}]>
      (<["variant2" := VDict {[ "name1" := VStr "222" ]}]>
      {[ "variant3" := VDict (<["name0" := VStr "BBB"]>
                              {[ "name1" := VStr "333" ]}) ]}))))) ]}.

Definition fedora : Database :=
  <["fedora" := VDict
      (<["name" := VStr "Fedora Server"]>
      {[ "url" := VStr "https://path.to.fedora/server/images/{@.fedora.vsn}" ]})]>
  {[ "p" := VDict
      (<["board" := VDict
          (<["name" := VStr "Example Board"]>
          {[ "fedora" := VDict {[ "vsn" := VStr "27" ]} ]})]>
      {[ "model" := VDict
          (<["name" := VStr "Example Model"]>
          {[ "fedora" := VDict {[ "vsn" := VStr "28" ]} ]}) ]}) ]}.

Definition kernels : Database :=
  {[ "p" := VDict
      (<["board" := VDict
          (<["name" := VStr "Example board platform"]>
          {[ "k" := VList [VStr "k.kernel1"; VStr "k.kernel2"] ]})]>
      {[ "model" := VDict
          (<["name" := VStr "Example model platform"]>
          {[ "k" := VStr "#{p.board.k}" ]}) ]}) ]}.

(* the "people" example with the node named "root" *)
Definition family : Database :=
  {[ "root" := VDict
       (<["surname" := VStr "Smith"]>
       (<["john" := VDict ∅]>
       (<["jane" := VDict ∅]>
       {[ "alexa" := VDict {[ "surname" := VStr "Smith-Doe" ]} ]}))) ]}.

Definition literals : Database :=
  <["pihooks" := VStr "null"]>
  (<["enabled" := VStr "true"]>
  (<["note" := VStr "not null"]>
  {[ "flag" := VStr "is {enabled}" ]})).

Definition selfref : Database :=
  {[ "a" := VDict {[ "b" := VStr "{a.b}" ]} ]}.

Definition unbalanced : Database :=
  {[ "url" := VStr "http://{host/path" ]}.

(* the item is "{key}" for the key as it is asked, "@" included *)
Definition selfref_at : Database :=
  {[ "p" := VDict {[ "x" := VStr "{@.x}" ]} ]}.

(* a key whose name contains a brace *)
Definition odd_key : Database :=
  <["a{b" := VStr "x"]> {[ "k" := VStr "{a{b}}" ]}.

(* a value that is balanced only once "@" has been replaced *)
Definition late_brace : Database :=
  <["a" := VStr "v"]> {[ "k" := VStr "{@" ]}.

(* the "arm" example of the documentation, with the shorter title *)
Definition software_arm : Database :=
  <["release" := VStr "18.10"]>
  (<["url" := VStr "https://example.com/"]>
  {[ "title" := VStr "Software {release}" ]}).

Definition software : Database :=
  {[ "arm" := VDict software_arm ]}.

(* references to a key that is absent and to a key that is "null" *)
Definition dangling : Database :=
  <["name" := VStr "img-{vsn}.bin"]>
  (<["md5" := VStr "{md5name}.md5"]>
  (<["md5name" := VStr "null"]>
  (<["vsn2" := VStr "2"]>
  (<["deps" := VStr "#{tools}"]>
  {[ "hooks" := VStr "#{md5name}" ]})))).

(* the first "}" of "k" comes before its first "{", and the key "" is
   defined: empty at the root in the first document; empty in the node "a"
   and non-empty at the root in the second *)
Definition stalled : Database :=
  <["" := VStr ""]> {[ "k" := VStr "}{" ]}.

Definition recovered : Database :=
  <["" := VStr "y"]>
  {[ "a" := VDict (<["" := VStr ""]> {[ "k" := VStr "}{" ]}) ]}.

Definition alias : Database :=
  <["a" := VDict {[ "k" := VList [VStr "x"; VStr "y"] ]}]>
  {[ "b" := VDict {[ "k" := VStr "#{a.k}" ]} ]}.

(* "a" resolves, by two substitutions, to the four characters n, u, l, l *)
Definition pieces : Database :=
  <["a" := VStr "{p}{q}"]>
  (<["p" := VStr "nu"]>
  (<["q" := VStr "ll"]>
  {[ "b" := VStr "#{a}" ]})).
End Docs.

(** ** One pass of the [while] loop *)

(* one pass of the [while] loop: the body of the loop, which gives the
   string that the next pass starts from *)
Definition pass (nested : Database → string → outcome value)
    (dblu_nested : string → outcome value) (d : Database) (item : string)
  : outcome string :=
  let search := inner_key item in
  let replace := token item in
  sub ← nested d search;
  match sub with
  | VStr sub =>
      let old_item := item in
      let item := PyStr.replace item replace sub in
      if String.eqb item old_item then
        sub ← dblu_nested search;
        match sub with
        | VStr sub =>
            let item := PyStr.replace old_item replace sub in
            if String.eqb item old_item
            then Abort NonTerminatingReference
            else Ret item
        | _ => TypeError
        end
      else Ret item
  | _ => TypeError
  end.

(** ** Items that are "{key}" only after "@" is replaced *)

Module Docs6.
Local Open Scope string_scope.

(* the item becomes "{key}" only once "@" is replaced in it; the nested
   lookup of the token finds the key "a" of node "a" first *)
Definition shadowed : Database :=
  {[ "a" := VDict (<["k" := VStr "{@.k}"]>
                     {[ "a" := VDict {[ "k" := VStr "v" ]} ]}) ]}.

(* the same, with nothing in the way of the recursion *)
Definition at_self : Database := {[ "u" := VStr "{@}" ]}.

End Docs6.

(** ** [Database.lookup] over a store of dict objects

    The same method once more, with the dicts as Python has them: objects
    of a store that are read, made and updated in place, and that values
    refer to.  What a call does to the store is then a matter of proof, not
    of the form of the definitions. *)

Module Store.

(* the identity of a dict object *)
Definition loc : Type := positive.

(* a value, a dict being a reference to its object *)
Inductive hvalue : Type :=
  | HNone
  | HBool (b : bool)
  | HInt (z : Z)
  | HStr (s : string)
  | HRef (l : loc)
  | HList (l : list hvalue)
  | HSet (l : list string).

Abbreviation dict := (gmap string hvalue).
Abbreviation store := (gmap loc dict).

Definition is_none (v : hvalue) : bool :=
  match v with HNone => true | _ => false end.

(* a computation on the store that may not return *)
Definition run (A : Type) : Type := store → outcome (A * store).

#[global] Instance run_mret : MRet run := λ A a σ, Ret (a, σ).

#[global] Instance run_mbind : MBind run := λ A B f m σ,
  match m σ with
  | Ret (a, σ') => f a σ'
  | Abort e => Abort e
  | TypeError => TypeError
  | OutOfFuel => OutOfFuel
  end.

(* what a run returns, and the store it leaves *)
Definition result {A} (r : outcome (A * store)) : outcome A :=
  match r with
  | Ret (a, _) => Ret a
  | Abort e => Abort e
  | TypeError => TypeError
  | OutOfFuel => OutOfFuel
  end.

Definition final {A} (r : outcome (A * store)) : store :=
  match r with
  | Ret (_, σ) => σ
  | _ => ∅
  end.

(* a step that does not touch the store *)
Definition lift {A} (o : outcome A) : run A := λ σ,
  match o with
  | Ret a => Ret (a, σ)
  | Abort e => Abort e
  | TypeError => TypeError
  | OutOfFuel => OutOfFuel
  end.

(* a new dict object with the items [content]: [{}], [dict(...)] *)
Definition new (content : dict) : run loc := λ σ,
  let l := fresh (dom σ) in Ret (l, <[l := content]> σ).

(* the items of the object [l] *)
Definition items (l : loc) : run dict := λ σ, Ret (σ !!! l, σ).

(* [Database(x)]: a new object with the items of [x] *)
Definition copy (x : loc) : run loc := content ← items x; new content.

(* [d.update({k:v})]: the object [d] is changed in place *)
Definition update (d : loc) (k : string) (v : hvalue) (σ : store) : store :=
  <[d := <[k := v]> (σ !!! d)]> σ.

(* [assimilate = lambda src: [d.update({k:v}) for k,v in src.items()]] *)
Definition assimilate (d src : loc) : run unit := λ σ,
  Ret ((), map_fold (update d) σ (σ !!! src)).

Section LookupBody.

Variable plat : option string.
(* [Database(d).lookup(k, plat)] on the object made by [Database(d)] *)
Variable nested : loc → string → run hvalue.
(* [dblu(k, plat)] *)
Variable dblu_nested : string → run hvalue.

(* [lookupLvl[k] if k in lookupLvl else d[k] if k in d else None] *)
Definition resolve (lookupLvl d : loc) (k : string) : run hvalue :=
  level ← items lookupLvl;
  aggregate ← items d;
  mret (match level !! k with
        | Some v => v
        | None => match aggregate !! k with Some v => v | None => HNone end
        end).

Definition cross_reference (d : loc) (item : hvalue) : run hvalue :=
  match item with
  | HStr s =>
      if is_xref s then c ← copy d; nested c (inner_key s) else mret item
  | _ => mret item
  end.

(* [for k in subPlat(key).split("."):]; [lookupLvl] and [d] name objects,
   and [d] is the same object from the first segment to the last *)
Fixpoint walk (ks : list string) (lookupLvl d : loc) (item : hvalue)
  : run hvalue :=
  match ks with
  | [] => mret item
  | k :: ks' =>
      item ← resolve lookupLvl d k;
      if is_none item then mret HNone
      else
        item ← cross_reference d item;
        match item with
        | HRef l =>
            lookupLvl ← copy l;              (* item = Database(item) *)
            assimilate d lookupLvl;;
            walk ks' lookupLvl d (HRef lookupLvl)
        | _ => walk ks' lookupLvl d item
        end
  end.

(* [while "{" in item: ...] *)
Fixpoint substitute (fuel : nat) (d : loc) (item : string) : run string :=
  if negb (PyStr.contains "{" item) then mret item
  else
    match fuel with
    | O => lift OutOfFuel
    | S fuel' =>
        let search := inner_key item in
        let replace := token item in
        c ← copy d;
        sub ← nested c search;
        match sub with
        | HStr sub =>
            let old_item := item in
            let item := PyStr.replace item replace sub in
            if String.eqb item old_item then
              sub ← dblu_nested search;
              match sub with
              | HStr sub =>
                  let item := PyStr.replace old_item replace sub in
                  if String.eqb item old_item
                  then lift (Abort NonTerminatingReference)
                  else substitute fuel' d item
              | _ => lift TypeError
              end
            else substitute fuel' d item
        | _ => lift TypeError
        end
    end.

(* [if isinstance(item, str): ...] *)
Definition postprocess (fuel : nat) (key : string) (d : loc)
    (item : hvalue) : run hvalue :=
  match item with
  | HStr s =>
      if String.eqb (String "{" (String.append key "}")) s
      then lift (Abort SelfReference)
      else if String.eqb "null" s then mret HNone
      else if String.eqb "true" s then mret (HBool true)
      else
        s ← lift (subPlat plat s);
        if negb (Nat.eqb (PyStr.count "{" s) (PyStr.count "}" s))
        then lift (Abort MalformedReference)
        else s ← substitute fuel d s; mret (HStr s)
  | _ => mret item
  end.

Definition finish (noneAllowed : bool) (item : hvalue) : run hvalue :=
  if is_none item && negb noneAllowed then lift (Abort NotFound)
  else mret item.

(* the body of [lookup]: [d] is a new object, and [lookupLvl] is at first
   the same object *)
Definition lookup_body (fuel : nat) (self : loc) (key : string)
    (noneAllowed : bool) : run hvalue :=
  d ← new ∅;
  assimilate d self;;
  k ← lift (subPlat plat key);
  item ← walk (PyStr.split "." k) d d HNone;
  item ← postprocess fuel key d item;
  finish noneAllowed item.

End LookupBody.

(* [self.lookup(key, plat, noneAllowed)] for the object [self], with the
   global [ARMPLATDB] an object too *)
Fixpoint lookup (fuel : nat) (ARMPLATDB self : loc) (key : string)
    (plat : option string) (noneAllowed : bool) : run hvalue :=
  match fuel with
  | O => lift OutOfFuel
  | S n =>
      lookup_body plat
        (λ c k, lookup n ARMPLATDB c k plat false)
        (λ k, lookup n ARMPLATDB ARMPLATDB k plat false)
        n self key noneAllowed
  end.

(* the value that a value of the store stands for: every dict it reaches
   is an object of the store *)
Inductive repr (σ : store) : hvalue → value → Prop :=
  | repr_none : repr σ HNone VNone
  | repr_bool b : repr σ (HBool b) (VBool b)
  | repr_int z : repr σ (HInt z) (VInt z)
  | repr_str s : repr σ (HStr s) (VStr s)
  | repr_dict l content m :
      σ !! l = Some content →
      (∀ k, option_Forall2 (repr σ) (content !! k) (m !! k)) →
      repr σ (HRef l) (VDict m)
  | repr_list hl l : Forall2 (repr σ) hl l → repr σ (HList hl) (VList l)
  | repr_set l : repr σ (HSet l) (VSet l).

(* the items of a dict object stand for the items of a dict *)
Definition represents (σ : store) (content : dict) (m : Database) : Prop :=
  ∀ k, option_Forall2 (repr σ) (content !! k) (m !! k).

(* the object [l] of the store stands for the dict [m] *)
Definition object (σ : store) (l : loc) (m : Database) : Prop :=
  ∃ content, σ !! l = Some content ∧ represents σ content m.

(* [τ'] is [τ] with more objects, none of which is an object of [σ] *)
Definition extends (τ τ' σ : store) : Prop :=
  τ ⊆ τ' ∧ ∀ l, is_Some (τ' !! l) → is_Some (σ !! l) → is_Some (τ !! l).

(* every object of [σ] other than [d] is in [σ'] as it is in [σ] *)
Definition frame (d : loc) (σ σ' : store) : Prop :=
  ∀ l content, l ≠ d → σ !! l = Some content → σ' !! l = Some content.

(* a run from the store [σ] ends as the outcome [o] does, and when it
   returns it leaves the objects of [σ] as they were and returns a value
   that stands for the value of [o]; [τ], a part of [σ], holds the objects
   that the arguments stand on, and [τ'] those that the result stands on *)
Definition returns_as (τ σ : store) (o : outcome value)
    (r : outcome (hvalue * store)) : Prop :=
  match o with
  | Ret v =>
      ∃ hv σ' τ', r = Ret (hv, σ') ∧ σ ⊆ σ' ∧ extends τ τ' σ ∧ τ' ⊆ σ'
                  ∧ repr τ' hv v
  | Abort e => r = Abort e
  | TypeError => r = TypeError
  | OutOfFuel => r = OutOfFuel
  end.

(* the same for the [while] loop, which returns a str *)
Definition returns_str (τ σ : store) (o : outcome string)
    (r : outcome (string * store)) : Prop :=
  match o with
  | Ret s => ∃ σ' τ', r = Ret (s, σ') ∧ σ ⊆ σ' ∧ extends τ τ' σ ∧ τ' ⊆ σ'
  | Abort e => r = Abort e
  | TypeError => r = TypeError
  | OutOfFuel => r = OutOfFuel
  end.

(* the same for the [for] loop, which changes the object [d]: it ends with
   [d] standing for the aggregate that the loop ends with *)
Definition walks_as (d : loc) (τ σ : store) (o : outcome (value * Database))
    (r : outcome (hvalue * store)) : Prop :=
  match o with
  | Ret (v, D) =>
      ∃ hv σ' τ' content,
        r = Ret (hv, σ') ∧ frame d σ σ' ∧ extends τ τ' σ ∧ τ' ⊆ σ'
        ∧ repr τ' hv v ∧ σ' !! d = Some content ∧ represents τ' content D
  | Abort e => r = Abort e
  | TypeError => r = TypeError
  | OutOfFuel => r = OutOfFuel
  end.

End Store.

Module Docs7.
Local Open Scope string_scope.

(* [Docs.arm] as objects: the root is object 1, the node "arm" object 2
   and the node "something" object 3 *)
Definition arm_node : Store.dict :=
  <["release" := Store.HStr "18.10"]>
  (<["url" := Store.HStr "https://example.com/"]>
  {[ "title" := Store.HStr "Arm Platforms Software {release}" ]}).

Definition something_node : Store.dict :=
  {[ "url" := Store.HStr "{arm.url}/path/to/{arm.release}/123.zip" ]}.

Definition arm_root : Store.dict :=
  <["arm" := Store.HRef 2%positive]>
  {[ "something" := Store.HRef 3%positive ]}.

Definition arm : Store.store :=
  <[1%positive := arm_root]>
  (<[2%positive := arm_node]> {[ 3%positive := something_node ]}).

(* the store that [lookup("arm")] leaves *)
Definition arm_after : Store.store :=
  Store.final (Store.lookup 2 1%positive 1%positive "arm" None false arm).

End Docs7.

(** * The code around the resolver *)

(** ** Further databases *)

Module Docs2.
Local Open Scope string_scope.

(* a scalar in the middle of a key path, and a reference to a node *)
Definition board : Database :=
  <["name" := VStr "Juno"]>
  (<["pdir" := VStr "juno"]>
  (<["shared" := VDict (<["rel" := VStr "19.01"]> {[ "fs" := VStr "oe" ]})]>
  {[ "legacy" := VStr "#{shared}" ]})).

(* a value and a key that need a context *)
Definition needs_plat : Database :=
  <["url" := VStr "host/@"]> {[ "p" := VDict {[ "vsn" := VStr "1" ]} ]}.
End Docs2.

(** ** More Python string operations *)

Module PyStrMore.

(* [sub in s] *)
Fixpoint contains_sub (sub s : string) : bool :=
  String.prefix sub s
  || match s with
     | EmptyString => false
     | String _ s' => contains_sub sub s'
     end.

(* [s.endswith(suffix)]: [suffix] is one of the suffixes of [s] *)
Fixpoint endswith (suffix s : string) : bool :=
  String.eqb suffix s
  || match s with
     | EmptyString => false
     | String _ s' => endswith suffix s'
     end.

(* [s.lstrip(chars)] and [s.rstrip(chars)], [f] telling which characters
   are among [chars] *)
Fixpoint lstrip (f : ascii → bool) (s : string) : string :=
  match s with
  | EmptyString => EmptyString
  | String a s' => if f a then lstrip f s' else s
  end.

Fixpoint rstrip (f : ascii → bool) (s : string) : string :=
  match s with
  | EmptyString => EmptyString
  | String a s' =>
      match rstrip f s' with
      | EmptyString => if f a then EmptyString else String a EmptyString
      | r => String a r
      end
  end.

Definition is_char (c : ascii) (a : ascii) : bool := Ascii.eqb a c.

(* the characters below 256 that [str.isspace] accepts *)
Definition isspace (a : ascii) : bool :=
  let n := nat_of_ascii a in
  (Nat.leb 9 n && Nat.leb n 13) || (Nat.leb 28 n && Nat.leb n 32)
  || Nat.eqb n 133 || Nat.eqb n 160.

(* [s.strip()] *)
Definition strip (s : string) : string := rstrip isspace (lstrip isspace s).

End PyStrMore.

(** ** [class sh]: the operations on path names *)

Module Sh.

(* [while old in p: p = p.replace(old, new)], with a bound on the number of
   passes *)
Fixpoint collapse (fuel : nat) (old new p : string) : option string :=
  if PyStrMore.contains_sub old p then
    match fuel with
    | O => None
    | S fuel' => collapse fuel' old new (PyStr.replace p old new)
    end
  else Some p.

(* [sh.fmtpath(p)] *)
Definition fmtpath (fuel : nat) (p : string) : option string :=
  let p := PyStr.replace p "\" "/" in
  p ← collapse fuel "//" "/" p;
  Some (PyStrMore.rstrip (PyStrMore.is_char "/")
          (PyStrMore.lstrip (PyStrMore.is_char "/") (PyStrMore.strip p))).

(* [sh.url2dld(url)]; [dld] is the module attribute [sh.dld] *)
Definition url2dld (fuel : nat) (dld url : string) : option string :=
  let p := PyStr.replace
             (PyStr.replace
                (PyStrMore.rstrip (PyStrMore.is_char "/")
                   (PyStrMore.lstrip (PyStrMore.is_char "/") url))
                ":" "_")
             "/" "_" in
  p ← collapse fuel "__" "_" p;
  Some (String.append dld (String "/" p)).

End Sh.

(** ** [sh.extract_or_copy]: the choice of the handler *)

Module Extract.

Inductive handler : Type :=
  | Tarxf        (* sh._tarxf *)
  | Tarxjf       (* sh._tarxjf *)
  | Unzip        (* sh._unzip *)
  | Gunzip       (* sh._gunzip *)
  | Bunzip2      (* sh._bunzip2 *)
  | Cp.          (* sh.cp *)

(* the expression bound to [handler] in [sh.extract_or_copy(src, dstdir)] *)
Definition select (src : string) : handler :=
  let ends := λ s, PyStrMore.endswith s src in
  if ends ".tar.xz" then Tarxf
  else if ends ".tar.bz2" then Tarxjf
  else if ends ".zip" then Unzip
  else if ends ".gz" && negb (ends ".tar.gz") then Gunzip
  else if ends ".bz2" && negb (ends ".tar.bz2") then Bunzip2
  else Cp.

End Extract.

(** ** The exceptions of Python that the code around the resolver raises *)

Module Py.

Inductive exception : Type := ValueError | IndexError | TypeError | EOFError.

End Py.

(** ** [check_sys_gcc]: what is decided from the output of gcc -dumpversion *)

Module Gcc.

(* the white space that [int] skips at both ends *)
Definition int_space (a : ascii) : bool :=
  let n := nat_of_ascii a in
  (Nat.leb 9 n && Nat.leb n 13) || Nat.eqb n 32 || Nat.eqb n 133
  || Nat.eqb n 160.

Definition is_digit (a : ascii) : bool :=
  let n := nat_of_ascii a in Nat.leb 48 n && Nat.leb n 57.

(* decimal digits, with single underscores between digits; [after_digit]
   tells whether the previous character was a digit *)
Fixpoint digits (acc : Z) (after_digit : bool) (s : string) : option Z :=
  match s with
  | EmptyString => if after_digit then Some acc else None
  | String a s' =>
      if is_digit a
      then digits (10 * acc + Z.of_nat (nat_of_ascii a - 48)) true s'
      else if Ascii.eqb a "_" && after_digit then digits acc false s'
      else None
  end.

(* [int(s)] for a string [s]; [None] stands for ValueError *)
Definition py_int (s : string) : option Z :=
  match PyStrMore.rstrip int_space (PyStrMore.lstrip int_space s) with
  | String "+" r => digits 0 false r
  | String "-" r => Z.opp <$> digits 0 false r
  | r => digits 0 false r
  end.

(* [u < v] on tuples of integers *)
Fixpoint tuple_lt (u v : list Z) : bool :=
  match u, v with
  | _, [] => false
  | [], _ :: _ => true
  | x :: u', y :: v' =>
      if x <? y then true else if y <? x then false else tuple_lt u' v'
  end.

Inductive checked : Type :=
  | Passed                       (* the function returns *)
  | Aborted                      (* script.abort(...) *)
  | Raised (e : Py.exception).

(* [tuple([int(i) for i in out.split(".")])] *)
Definition version (out : string) : option (list Z) :=
  mapM py_int (PyStr.split "." out).

(* [check_sys_gcc()] from the output [out] of gcc -dumpversion on: the
   message of the abort is built from [ver[0]], [ver[1]] and [ver[2]] *)
Definition check_sys_gcc (out : string) : checked :=
  match version out with
  | None => Raised Py.ValueError
  | Some ver =>
      if tuple_lt ver [5; 4; 0] || negb (tuple_lt ver [8; 0; 0]) then
        if Nat.ltb (List.length ver) 3 then Raised Py.IndexError else Aborted
      else Passed
  end.

End Gcc.

(** ** [get_ws_files]: what is kept of the listing of the workspace *)

Module Ws.

(* [f in filelist] *)
Definition mem (f : string) (l : list string) : bool :=
  existsb (String.eqb f) l.

(* [filelist.remove(f)], for an [f] that occurs *)
Fixpoint remove_first (f : string) (l : list string) : list string :=
  match l with
  | [] => []
  | x :: l' => if String.eqb f x then l' else x :: remove_first f l'
  end.

(* one round of the loop over the protected names:
   [if f in filelist: filelist.remove(f)] *)
Definition drop (filelist : list string) (f : string) : list string :=
  if mem f filelist then remove_first f filelist else filelist.

(* [get_ws_files()]; [walk] is the first triple that [os.walk(sh.cwd)]
   yields, if any, and [filename], [dld], [repod] are the attributes of
   [sh]; [sorted] puts the names in the order [String.le] of str *)
Definition get_ws_files (walk : option (list string * list string))
    (filename dld repod : string) : list string :=
  let filelist :=
    match walk with
    | Some (dirs, files) =>
        merge_sort String.le (files ++ map (λ d, String.append d "/") dirs)
    | None => []
    end in
  fold_left drop [filename; dld; repod; "log.txt"%string] filelist.

End Ws.

(** ** [class choice], [prompt] and [tree_prompt] *)

Module Menu.

(* an object of [class choice]: [choice(name, meta, descr, disabled, children)] *)
Inductive choice : Type :=
  Choice (name : value) (meta : string) (descr disabled : value)
    (children : list choice).

Definition name (c : choice) : value :=
  match c with Choice n _ _ _ _ => n end.
Definition meta (c : choice) : string :=
  match c with Choice _ m _ _ _ => m end.
Definition descr (c : choice) : value :=
  match c with Choice _ _ d _ _ => d end.
Definition disabled (c : choice) : value :=
  match c with Choice _ _ _ d _ => d end.
Definition children (c : choice) : list choice :=
  match c with Choice _ _ _ _ cs => cs end.

(* the truth value of an object, as [if c.disabled] takes it *)
Definition truthy (v : value) : bool :=
  match v with
  | VNone => false
  | VBool b => b
  | VInt z => negb (z =? 0)
  | VStr s => negb (String.eqb s "")
  | VDict m => negb (Nat.eqb (size m) 0)
  | VList l => negb (Nat.eqb (List.length l) 0)
  | VSet l => negb (Nat.eqb (List.length l) 0)
  end.

Definition is_str (v : value) : bool :=
  match v with VStr _ => true | _ => false end.

(* what a prompt comes to: a choice, with the lines of the input that are
   left, or an exception; [NoFuel] is the budget of the model running out *)
Inductive result : Type :=
  | Chosen (c : choice) (rest : list string)
  | Raised (e : Py.exception)
  | NoFuel.

(* the [while True] loop of [prompt]; [lines] is what the calls of [input]
   return, one line each, and at the end of the input [input] raises
   EOFError, which the loop does not catch *)
Fixpoint ask (choices : list choice) (lines : list string) : result :=
  match lines with
  | [] => Raised Py.EOFError
  | ln :: lines =>
      match Gcc.py_int ln with
      | None => ask choices lines                        (* except ValueError *)
      | Some i =>
          if (i <? 1) || (Z.of_nat (List.length choices) <? i)
          then ask choices lines                         (* raise ValueError *)
          else
            match choices !! Z.to_nat (i - 1) with
            | None => Raised Py.IndexError
            | Some c =>
                if truthy (disabled c) then ask choices lines
                else Chosen c lines
            end
      end
  end.

(* [prompt(title, choices)]: the menu is laid out first, which takes the
   length of every name and pads it, and so needs every name to be a str *)
Definition prompt (choices : list choice) (lines : list string) : result :=
  match choices with
  | [] => Raised Py.ValueError                           (* max([]) *)
  | _ =>
      if forallb (λ c, is_str (name c)) choices then ask choices lines
      else Raised Py.TypeError
  end.

(* [tree_prompt(title, root)]; one unit of [fuel] for a round of its loop *)
Fixpoint tree_prompt (fuel : nat) (root : choice) (lines : list string)
    : result :=
  match children root with
  | [] => Chosen root lines
  | [c] =>
      match fuel with
      | O => NoFuel
      | S fuel =>
          (* log.warn("only avail. option is "+root.name) *)
          if is_str (name c) then tree_prompt fuel c lines
          else Raised Py.TypeError
      end
  | cs =>
      match fuel with
      | O => NoFuel
      | S fuel =>
          match prompt cs lines with
          | Chosen c rest => tree_prompt fuel c rest
          | r => r
          end
      end
  end.

(* the nodes of a tree of choices, and its height *)
Fixpoint nodes (c : choice) : list choice :=
  match c with
  | Choice _ _ _ _ cs => c :: flat_map nodes cs
  end.

Fixpoint height (c : choice) : nat :=
  match c with
  | Choice _ _ _ _ cs => S (list_max (map height cs))
  end.

End Menu.

Module Docs3.

Definition juno_a : Menu.choice :=
  Menu.Choice (VStr "Juno r0") "p.juno.r0" VNone VNone [].
Definition juno_b : Menu.choice :=
  Menu.Choice (VStr "Juno r2") "p.juno.r2" VNone VNone [].
Definition juno : Menu.choice :=
  Menu.Choice (VStr "Juno") "p.juno" VNone VNone [juno_a; juno_b].
Definition fvp_base : Menu.choice :=
  Menu.Choice (VStr "Base") "p.fvp.base" VNone VNone [].
Definition fvp : Menu.choice :=
  Menu.Choice (VStr "FVP") "p.fvp" VNone VNone [fvp_base].
Definition tc : Menu.choice :=
  Menu.Choice (VStr "TC") "p.tc" (VStr "needs Linux") (VBool true) [].
Definition platforms : Menu.choice :=
  Menu.Choice (VStr "<root>") "p" VNone VNone [fvp; juno; tc].

End Docs3.

(** ** [choice.tree] *)

Module Tree.
Import Menu.

(* the entry of [keys] that [choice.tree] takes from the key [k] under the
   node of meta [m]: [key = k[len(m)+1:]], cut before its first dot *)
Definition first_segment (m k : string) : string :=
  let key :=
    PyStr.slice k (Z.of_nat (String.length m) + 1)
      (Z.of_nat (String.length k)) in
  if PyStr.contains "." key then PyStr.slice key 0 (PyStr.find "." key)
  else key.

(* [[f"{root.meta}.{k}" for k in sorted(list(set(keys)))]]: whatever order
   the set lists them in, sorting leaves the distinct keys in ascending
   order *)
Definition child_keys (m : string) (keylist : list string) : list string :=
  (λ k, m +:+ "." +:+ k) <$>
    merge_sort String.le (remove_dups (first_segment m <$> keylist)).

Section Build.

(* [dblu(key, plat, noneAllowed)] at the platform of the call *)
Variable lu : string → bool → outcome value.

(* the loop [for k in keys: root.add(choice(...))]: the choices added *)
Fixpoint make (keys : list string) : outcome (list choice) :=
  match keys with
  | [] => Ret []
  | k :: keys =>
      n ← lu (k +:+ ".name") false;
      d ← lu (k +:+ ".descr") true;
      cs ← make keys;
      Ret (Choice n k d VNone [] :: cs)
  end.

(* the loop [for c in root.children: choice.tree(keylist, c, plat, False)]
   with [rec] for the call; a call works on the child in place, and what it
   returns is dropped.  [None] is the budget of the model running out. *)
Fixpoint descend (rec : choice → option (outcome (option choice)))
    (cs : list choice) : option (outcome (list choice)) :=
  match cs with
  | [] => Some (Ret [])
  | c :: cs =>
      match rec c with
      | None => None
      | Some (Ret r) =>
          match descend rec cs with
          | None => None
          | Some (Ret cs') => Some (Ret (default c r :: cs'))
          | Some (Abort e) => Some (Abort e)
          | Some TypeError => Some TypeError
          | Some OutOfFuel => Some OutOfFuel
          end
      | Some (Abort e) => Some (Abort e)
      | Some TypeError => Some TypeError
      | Some OutOfFuel => Some OutOfFuel
      end
  end.

(* [choice.tree(keylist, root, plat, gen_root=False)] for a choice [root];
   one unit of [fuel] for a level of the tree *)
Fixpoint tree_at (fuel : nat) (keylist : list string) (root : choice)
    : option (outcome (option choice)) :=
  match fuel with
  | O => None
  | S fuel =>
      let keylist := List.filter (String.prefix (meta root)) keylist in
      let leaf :=
        match keylist with
        | [k] => String.eqb k (meta root)
        | _ => false
        end in
      if leaf then Some (Ret None)
      else
        match child_keys (meta root) keylist with
        | [] => Some (Ret (Some root))
        | keys =>
            match make keys with
            | Ret new =>
                match descend (tree_at fuel keylist) (children root ++ new) with
                | None => None
                | Some (Ret cs) =>
                    Some (Ret (Some (Choice (name root) (meta root)
                                       (descr root) (disabled root) cs)))
                | Some (Abort e) => Some (Abort e)
                | Some TypeError => Some TypeError
                | Some OutOfFuel => Some OutOfFuel
                end
            | Abort e => Some (Abort e)
            | TypeError => Some TypeError
            | OutOfFuel => Some OutOfFuel
            end
        end
  end.

End Build.

(* [choice.tree(keylist, root, plat)] for a key [root]: [gen_root] is True,
   and the root of the tree is made here; [dbfuel] is the budget of each
   lookup *)
Definition tree (fuel dbfuel : nat) (ARMPLATDB : Database)
    (keylist : list string) (root : string) (plat : option string)
    : option (outcome (option choice)) :=
  tree_at (λ key noneAllowed, dblu dbfuel ARMPLATDB key plat noneAllowed)
    fuel keylist (Choice (VStr "<root>") root VNone VNone []).

End Tree.

Module Docs4.

Definition juno_db : gmap string value :=
  <["name" := VStr "Juno"]>
  (<["descr" := VStr "development board"]>
  (<["pb" := VList [VStr "pb.juno"]]>
  (<["r0" := VDict {["name" := VStr "Juno r0"]}]>
   {["r2" := VDict {["name" := VStr "Juno r2"]}]}))).

Definition fvp_db : gmap string value :=
  <["name" := VStr "FVP"]>
   {["base" := VDict {["name" := VStr "Base"]}]}.

Definition platdb : Database :=
  {["p" := VDict (<["juno" := VDict juno_db]> {["fvp" := VDict fvp_db]})]}.

Definition keylist : list string :=
  ["p.juno.r2"; "p.fvp.base"; "p.juno.r0"]%string.

Definition fvp_node : Menu.choice :=
  Menu.Choice (VStr "FVP") "p.fvp" VNone VNone
    [Menu.Choice (VStr "Base") "p.fvp.base" VNone VNone []].

Definition juno_node : Menu.choice :=
  Menu.Choice (VStr "Juno") "p.juno" (VStr "development board") VNone
    [Menu.Choice (VStr "Juno r0") "p.juno.r0" (VStr "development board")
       VNone [];
     Menu.Choice (VStr "Juno r2") "p.juno.r2" (VStr "development board")
       VNone []].

Definition ptree : Menu.choice :=
  Menu.Choice (VStr "<root>") "p" VNone VNone [fvp_node; juno_node].

End Docs4.

(** ** [config._choose_p]: which platforms are switched off *)

Module Config.
Import Menu.

(* [len(pbs) if pbs else 0] *)
Definition num_pbs (pbs : value) : outcome nat :=
  if truthy pbs then
    match pbs with
    | VStr s => Ret (String.length s)
    | VDict m => Ret (size m)
    | VList l => Ret (List.length l)
    | VSet l => Ret (List.length l)
    | _ => TypeError
    end
  else Ret 0%nat.

(* [sum([not p.disabled for p in root.children])] *)
Definition num_en_children (cs : list choice) : nat :=
  List.length (List.filter (λ p, negb (truthy (disabled p))) cs).

(* [[f(c) for c in l]] for an [f] that may not return *)
Fixpoint each {A B} (f : A → outcome B) (l : list A) : outcome (list B) :=
  match l with
  | [] => Ret []
  | c :: l => c' ← f c; l' ← each f l; Ret (c' :: l')
  end.

(* what [crawl] makes the description of a node that it disables *)
Definition needs_linux : string :=
  "can only build from source for this platform, "
  +:+ "which requires a Linux host PC".

Section Crawl.

(* [HOST=="Linux"] *)
Variable linux : bool.
(* [dblu(key, noneAllowed=True)] *)
Variable lu : string → outcome value.

(* [crawl(root)] of [config._choose_p]: the node as the call leaves it *)
Fixpoint crawl (root : choice) : outcome choice :=
  match root with
  | Choice n m d dis children =>
      cs ← each crawl children;
      pbs ← lu (m +:+ ".pb");
      num ← num_pbs pbs;
      let can_init_ws := negb (Nat.eqb num 0 && negb linux) in
      if (negb (Nat.eqb (List.length cs) 0)
          && Nat.eqb (num_en_children cs) 0)
         || negb can_init_ws
      then
        Ret (Choice n m (VStr needs_linux) (VBool true) cs)
      else Ret (Choice n m d dis cs)
  end.

End Crawl.

(* [crawl(root)] against the database; [dbfuel] is the budget of each
   lookup *)
Definition crawl_db (dbfuel : nat) (ARMPLATDB : Database) (linux : bool)
    (root : choice) : outcome choice :=
  crawl linux (λ key, dblu dbfuel ARMPLATDB key None true) root.

End Config.

Module Docs5.

(* the tree of [Docs4] as [crawl] leaves it on a host other than Linux *)
Definition fvp_off : Menu.choice :=
  Menu.Choice (VStr "FVP") "p.fvp" (VStr Config.needs_linux) (VBool true)
    [Menu.Choice (VStr "Base") "p.fvp.base" (VStr Config.needs_linux)
       (VBool true) []].

Definition ptree_off : Menu.choice :=
  Menu.Choice (VStr "<root>") "p" (VStr Config.needs_linux) (VBool true)
    [fvp_off; Docs4.juno_node].

End Docs5.

(** * Properties *)

(** ** Outcomes *)

Lemma bind_ret {A B} (a : A) (f : A → outcome B) : Ret a ≫= f = f a.
Proof. reflexivity. Qed.

Lemma refines_refl {A} (o : outcome A) : refines o o.
Proof. by right. Qed.

Lemma refines_bind {A B} (o1 o2 : outcome A) (f1 f2 : A → outcome B) :
  refines o1 o2 →
  (∀ a, refines (f1 a) (f2 a)) →
  refines (o1 ≫= f1) (o2 ≫= f2).
Proof.
  intros [-> | ->] Hf; [by left|].
  destruct o2; simpl; auto using refines_refl.
Qed.

Lemma refines_done {A} (o1 o2 : outcome A) :
  refines o1 o2 → o1 ≠ OutOfFuel → o1 = o2.
Proof. by intros [-> | ->]. Qed.

(** ** Facts about the string operations *)

Module PyStrFacts.
Import PyStr.
Local Open Scope nat_scope.

Lemma append_nil t : "" +:+ t = t.
Proof. reflexivity. Qed.

Lemma append_cons a s t : String a s +:+ t = String a (s +:+ t).
Proof. reflexivity. Qed.

Lemma count_app c s t : count c (s +:+ t) = count c s + count c t.
Proof. induction s as [|a s IH]; simpl; [done|]. rewrite IH. lia. Qed.

Lemma contains_app c s t : contains c (s +:+ t) = contains c s || contains c t.
Proof.
  induction s as [|a s IH]; simpl; [done|]. rewrite IH. by rewrite orb_assoc.
Qed.

Lemma contains_count c s : contains c s = false ↔ count c s = 0.
Proof.
  induction s as [|a s IH]; simpl; [done|].
  destruct (Ascii.eqb a c); simpl; [split; [done|lia] | exact IH].
Qed.

Lemma contains_head c s : contains c (String c s) = true.
Proof. simpl. by rewrite Ascii.eqb_refl. Qed.

Lemma length_app s t : String.length (s +:+ t) = String.length s + String.length t.
Proof. induction s as [|a s IH]; simpl; [done|]. by rewrite IH. Qed.

Lemma index_of_first c s t :
  contains c s = false →
  index_of c (s +:+ String c t) = Some (String.length s).
Proof.
  induction s as [|a s IH]; simpl.
  - by rewrite Ascii.eqb_refl.
  - destruct (Ascii.eqb a c); simpl; [done|]. intros H. by rewrite (IH H).
Qed.

Lemma find_first c s t :
  contains c s = false →
  find c (s +:+ String c t) = Z.of_nat (String.length s).
Proof. intros H. unfold find. by rewrite (index_of_first _ _ _ H). Qed.

Lemma substring_prefix m q : substring 0 (String.length m) (m +:+ q) = m.
Proof.
  induction m as [|a m IH]; [by destruct q|].
  rewrite append_cons. cbn. by rewrite IH.
Qed.

Lemma substring_mid p m q :
  substring (String.length p) (String.length m) (p +:+ m +:+ q) = m.
Proof.
  induction p as [|a p IH]; [exact (substring_prefix m q)|].
  rewrite append_cons. cbn. exact IH.
Qed.

Lemma slice_mid p m q :
  slice (p +:+ m +:+ q)
    (Z.of_nat (String.length p)) (Z.of_nat (String.length p + String.length m))
  = m.
Proof.
  unfold slice. rewrite !length_app.
  rewrite (proj2 (Z.ltb_ge (Z.of_nat (String.length p)) 0)) by lia.
  rewrite (proj2 (Z.ltb_ge (Z.of_nat (String.length p + String.length m)) 0))
    by lia.
  rewrite !Z.min_l by lia.
  rewrite Nat2Z.id.
  replace (Z.to_nat _) with (String.length m) by lia.
  apply substring_mid.
Qed.

Lemma prefix_app old post : String.prefix old (old +:+ post) = true.
Proof.
  induction old as [|a old IH]; [by destruct post|].
  rewrite append_cons. cbn.
  destruct (ascii_dec a a); [exact IH | done].
Qed.

Lemma prefix_head_ne c old a rest :
  Ascii.eqb a c = false → String.prefix (String c old) (String a rest) = false.
Proof.
  intros H. simpl. destruct (ascii_dec c a) as [->|]; [|done].
  by rewrite Ascii.eqb_refl in H.
Qed.

Lemma replace_from_skip old new t post :
  replace_from old new (String.length t) (t +:+ post) = replace_from old new 0 post.
Proof.
  induction t as [|a t IH]; [by destruct post|].
  rewrite append_cons. cbn. exact IH.
Qed.

(* the leftmost occurrence is replaced first, and the scan resumes after it *)
Lemma replace_first c old' new pre post :
  contains c pre = false →
  replace (pre +:+ String c old' +:+ post) (String c old') new
  = pre +:+ new +:+ replace post (String c old') new.
Proof.
  intros Hpre. unfold replace.
  induction pre as [|a pre IH].
  - rewrite append_nil, append_cons. cbn [replace_from].
    rewrite <- append_cons, prefix_app.
    replace (String.length (String c old') - 1) with (String.length old')
      by (cbn; lia).
    by rewrite replace_from_skip.
  - simpl in Hpre. apply orb_false_elim in Hpre as [Hac Hpre].
    rewrite !append_cons. cbn [replace_from].
    rewrite (prefix_head_ne _ _ _ _ Hac). f_equal. by apply IH.
Qed.

Lemma eqb_brace_absent key s :
  contains "{" s = false →
  String.eqb (String "{" (key +:+ "}")) s = false.
Proof.
  intros H. apply String.eqb_neq. intros <-. by rewrite contains_head in H.
Qed.

End PyStrFacts.

(** ** The leftmost token *)

Lemma append_assoc (a b c : string) : (a +:+ b) +:+ c = a +:+ b +:+ c.
Proof.
  induction a as [|x a IH]; [done|].
  by rewrite !PyStrFacts.append_cons, IH.
Qed.

Lemma count_replace_from_le c old new s : ∀ skip,
  PyStr.count c new = 0%nat →
  (PyStr.count c (PyStr.replace_from old new skip s) ≤ PyStr.count c s)%nat.
Proof.
  induction s as [|a s IH]; intros skip Hnew; [done|].
  cbn [PyStr.replace_from PyStr.count]. destruct skip as [|skip].
  - destruct (String.prefix old (String a s)).
    + rewrite PyStrFacts.count_app, Hnew.
      specialize (IH (String.length old - 1)%nat Hnew). lia.
    + cbn [PyStr.count]. specialize (IH 0%nat Hnew). lia.
  - specialize (IH skip Hnew). lia.
Qed.

Lemma count_replace_le c old' new s :
  PyStr.contains c new = false →
  (PyStr.count c (PyStr.replace s (String c old') new) ≤ PyStr.count c s)%nat.
Proof.
  intros H. apply count_replace_from_le. by apply PyStrFacts.contains_count.
Qed.

Section Token.

Variables pre X post : string.
Hypothesis pre_open : PyStr.contains "{" pre = false.
Hypothesis pre_close : PyStr.contains "}" pre = false.
Hypothesis X_close : PyStr.contains "}" X = false.

Local Abbreviation item := (pre +:+ String "{" (X +:+ String "}" post)).

Lemma token_contains : PyStr.contains "{" item = true.
Proof.
  rewrite PyStrFacts.contains_app, PyStrFacts.contains_head.
  apply orb_true_r.
Qed.

Lemma token_find_open : PyStr.find "{" item = Z.of_nat (String.length pre).
Proof. by apply PyStrFacts.find_first. Qed.

Lemma token_find_close :
  PyStr.find "}" item = Z.of_nat (String.length pre + 1 + String.length X).
Proof.
  replace (pre +:+ String "{" (X +:+ String "}" post))
    with ((pre +:+ String "{" X) +:+ String "}" post)
    by (by rewrite append_assoc).
  rewrite PyStrFacts.find_first.
  - rewrite PyStrFacts.length_app. cbn [String.length]. f_equal. lia.
  - rewrite PyStrFacts.contains_app, pre_close. cbn. exact X_close.
Qed.

Lemma token_inner_key : inner_key item = X.
Proof.
  unfold inner_key. rewrite token_find_open, token_find_close.
  replace (pre +:+ String "{" (X +:+ String "}" post))
    with ((pre +:+ "{") +:+ X +:+ String "}" post)
    by (by rewrite append_assoc).
  replace (Z.of_nat (String.length pre) + 1)%Z
    with (Z.of_nat (String.length (pre +:+ "{")))
    by (rewrite PyStrFacts.length_app; cbn [String.length]; lia).
  replace (String.length pre + 1 + String.length X)%nat
    with (String.length (pre +:+ "{") + String.length X)%nat
    by (rewrite PyStrFacts.length_app; cbn [String.length]; lia).
  apply PyStrFacts.slice_mid.
Qed.

Lemma token_token : token item = String "{" (X +:+ "}").
Proof.
  unfold token. rewrite token_find_open, token_find_close.
  replace (String "{" (X +:+ String "}" post))
    with (String "{" (X +:+ "}") +:+ post)
    by (by rewrite PyStrFacts.append_cons, append_assoc).
  replace (Z.of_nat (String.length pre + 1 + String.length X) + 1)%Z
    with (Z.of_nat (String.length pre + String.length (String "{" (X +:+ "}"))))
    by (cbn [String.length]; rewrite PyStrFacts.length_app;
        cbn [String.length]; lia).
  apply PyStrFacts.slice_mid.
Qed.

Lemma token_replace sub :
  PyStr.replace item (token item) sub
  = pre +:+ sub +:+ PyStr.replace post (String "{" (X +:+ "}")) sub.
Proof.
  rewrite token_token.
  replace (String "{" (X +:+ String "}" post))
    with (String "{" (X +:+ "}") +:+ post)
    by (by rewrite PyStrFacts.append_cons, append_assoc).
  by apply PyStrFacts.replace_first.
Qed.

Lemma token_progress sub :
  PyStr.contains "{" sub = false →
  PyStr.replace item (token item) sub ≠ item.
Proof.
  intros Hsub Heq.
  assert (Hc : PyStr.count "{" (PyStr.replace item (token item) sub)
               = PyStr.count "{" item) by (by rewrite Heq).
  rewrite token_replace in Hc.
  rewrite !PyStrFacts.count_app in Hc. cbn [PyStr.count] in Hc.
  rewrite PyStrFacts.count_app in Hc. cbn [PyStr.count] in Hc.
  pose proof (count_replace_le "{" (X +:+ "}") sub post Hsub).
  apply PyStrFacts.contains_count in Hsub.
  rewrite Hsub in Hc.
  change (Ascii.eqb "{" "{") with true in Hc.
  change (Ascii.eqb "}" "{") with false in Hc.
  cbv iota in Hc. lia.
Qed.

End Token.

(** ** Dictionaries *)

Lemma lookup_assimilate (d src : Database) (k : string) :
  assimilate d src !! k
  = match src !! k with Some v => Some v | None => d !! k end.
Proof.
  unfold assimilate.
  apply (map_fold_weak_ind
    (λ (r : Database) (m : Database),
       r !! k = match m !! k with Some v => Some v | None => d !! k end)).
  - by rewrite lookup_empty.
  - intros i x m r Hi IH. rewrite !lookup_insert.
    case_decide; [done | exact IH].
Qed.

Lemma assimilate_union (d src : Database) : assimilate d src = src ∪ d.
Proof.
  apply map_eq; intros k. rewrite lookup_assimilate, lookup_union.
  by destruct (src !! k), (d !! k).
Qed.

Lemma assimilate_empty (self : Database) : assimilate ∅ self = self.
Proof. rewrite assimilate_union. apply (right_id_L ∅ (∪)). Qed.

(** ** The budget only decides whether a call finishes *)

Section Monotone.

Variable plat : option string.
Variables nested1 nested2 : Database → string → outcome value.
Variables dblu1 dblu2 : string → outcome value.
Hypothesis nested_mono : ∀ d k, refines (nested1 d k) (nested2 d k).
Hypothesis dblu_mono : ∀ k, refines (dblu1 k) (dblu2 k).

Lemma cross_reference_mono d item :
  refines (cross_reference nested1 d item) (cross_reference nested2 d item).
Proof.
  destruct item; simpl; auto using refines_refl.
  destruct (is_xref s); auto using refines_refl.
Qed.

Lemma walk_mono ks : ∀ lookupLvl d item,
  refines (walk nested1 ks lookupLvl d item) (walk nested2 ks lookupLvl d item).
Proof.
  induction ks as [|k ks IH]; intros lookupLvl d item; simpl.
  - apply refines_refl.
  - destruct (is_none (resolve lookupLvl d k)); [apply refines_refl|].
    apply refines_bind; [apply cross_reference_mono|].
    intros []; apply IH.
Qed.

Lemma substitute_mono n : ∀ m d item,
  (n ≤ m)%nat →
  refines (substitute nested1 dblu1 n d item) (substitute nested2 dblu2 m d item).
Proof.
  induction n as [|n IH]; intros m d item Hle.
  - destruct m; simpl; destruct (negb (PyStr.contains "{" item));
      auto using refines_refl; by left.
  - destruct m as [|m]; [lia|]. simpl.
    destruct (negb (PyStr.contains "{" item)); [apply refines_refl|].
    apply refines_bind; [apply nested_mono|].
    intros []; try apply refines_refl.
    destruct (String.eqb _ item); [|apply IH; lia].
    apply refines_bind; [apply dblu_mono|].
    intros []; try apply refines_refl.
    destruct (String.eqb _ item); [apply refines_refl|apply IH; lia].
Qed.

Lemma postprocess_mono n m key d item :
  (n ≤ m)%nat →
  refines (postprocess plat nested1 dblu1 n key d item)
          (postprocess plat nested2 dblu2 m key d item).
Proof.
  intros Hle. destruct item; try apply refines_refl.
  unfold postprocess.
  destruct (String.eqb _ s); [apply refines_refl|].
  destruct (String.eqb "null" s); [apply refines_refl|].
  destruct (String.eqb "true" s); [apply refines_refl|].
  apply refines_bind; [apply refines_refl|]. intros s'.
  destruct (negb _); [apply refines_refl|].
  apply refines_bind; [by apply substitute_mono|].
  intros; apply refines_refl.
Qed.

Lemma lookup_body_mono n m self key noneAllowed :
  (n ≤ m)%nat →
  refines (lookup_body plat nested1 dblu1 n self key noneAllowed)
          (lookup_body plat nested2 dblu2 m self key noneAllowed).
Proof.
  intros Hle. unfold lookup_body.
  apply refines_bind; [apply refines_refl|]. intros k.
  apply refines_bind; [apply walk_mono|]. intros [item d].
  apply refines_bind; [by apply postprocess_mono|].
  intros; apply refines_refl.
Qed.

End Monotone.

Lemma lookup_mono_S n : ∀ ARMPLATDB self key plat noneAllowed,
  refines (lookup n ARMPLATDB self key plat noneAllowed)
          (lookup (S n) ARMPLATDB self key plat noneAllowed).
Proof.
  induction n as [|n IH]; intros; [by left|].
  cbn [lookup]. apply lookup_body_mono; auto.
Qed.

Lemma refines_trans {A} (o1 o2 o3 : outcome A) :
  refines o1 o2 → refines o2 o3 → refines o1 o3.
Proof. intros [-> | ->]; [by left | done]. Qed.

Lemma lookup_mono n m ARMPLATDB self key plat noneAllowed :
  (n ≤ m)%nat →
  refines (lookup n ARMPLATDB self key plat noneAllowed)
          (lookup m ARMPLATDB self key plat noneAllowed).
Proof.
  induction 1 as [|m _ IH]; [apply refines_refl|].
  eapply refines_trans; [exact IH | apply lookup_mono_S].
Qed.

(** ** Unfolding [lookup] *)

Lemma lookup_S n ARMPLATDB self key plat noneAllowed :
  lookup (S n) ARMPLATDB self key plat noneAllowed
  = lookup_body plat (nested_lookup n ARMPLATDB plat)
      (root_lookup n ARMPLATDB plat) n self key noneAllowed.
Proof. reflexivity. Qed.

Lemma lookup_walked n ARMPLATDB self key plat noneAllowed :
  lookup (S n) ARMPLATDB self key plat noneAllowed
  = '(item, d) ← walked n ARMPLATDB self key plat;
    item ← postprocess plat (nested_lookup n ARMPLATDB plat)
             (root_lookup n ARMPLATDB plat) n key d item;
    finish noneAllowed item.
Proof.
  rewrite lookup_S. unfold lookup_body, walked, segments.
  by destruct (subPlat plat key).
Qed.

Lemma walk_run_loop nested ks : ∀ lookupLvl d item,
  walk nested ks lookupLvl d item
  = st ← run_loop nested ks (Running lookupLvl d item); Ret (loop_result st).
Proof.
  induction ks as [|k ks IH]; intros lookupLvl d item; [done|].
  cbn [walk run_loop loop_step].
  destruct (is_none (resolve lookupLvl d k)).
  - clear. induction ks as [|k' ks IH]; [done | exact IH].
  - destruct (cross_reference nested d (resolve lookupLvl d k)) as [v| | |];
      try done.
    destruct v; apply IH.
Qed.

Lemma run_loop_app nested ks1 ks2 st :
  run_loop nested (ks1 ++ ks2) st
  = st' ← run_loop nested ks1 st; run_loop nested ks2 st'.
Proof.
  revert st. induction ks1 as [|k ks1 IH]; intros st; [done|].
  cbn [app run_loop]. destruct (loop_step nested k st); try done. apply IH.
Qed.

(** ** The last step of [lookup] *)

Lemma lookup_finish n ARMPLATDB self key plat :
  ∃ o : outcome value, ∀ noneAllowed,
    lookup n ARMPLATDB self key plat noneAllowed = o ≫= finish noneAllowed.
Proof.
  destruct n as [|n]; [by exists OutOfFuel|].
  exists ('(item, d) ← walked n ARMPLATDB self key plat;
          postprocess plat (nested_lookup n ARMPLATDB plat)
            (root_lookup n ARMPLATDB plat) n key d item).
  intros noneAllowed. rewrite lookup_walked.
  destruct (walked n ARMPLATDB self key plat) as [[item d]| | |]; done.
Qed.

(* a call that does not allow None never returns it *)
Lemma lookup_not_none n ARMPLATDB self key plat :
  lookup n ARMPLATDB self key plat false ≠ Ret VNone.
Proof.
  destruct (lookup_finish n ARMPLATDB self key plat) as [o Ho].
  rewrite Ho. destruct o as [v| | |]; try done. by destruct v.
Qed.

(* what is None under [noneAllowed=True] is fatal under the default *)
Lemma lookup_none_fatal n ARMPLATDB self key plat :
  lookup n ARMPLATDB self key plat true = Ret VNone →
  lookup n ARMPLATDB self key plat false = Abort NotFound.
Proof.
  destruct (lookup_finish n ARMPLATDB self key plat) as [o Ho].
  rewrite !Ho. destruct o as [v| | |]; try done. by destruct v.
Qed.

Lemma walk_break nested ks1 k ks2 lookupLvl0 d0 item0 lookupLvl d item :
  run_loop nested ks1 (Running lookupLvl0 d0 item0)
    = Ret (Running lookupLvl d item) →
  resolve lookupLvl d k = VNone →
  walk nested (ks1 ++ k :: ks2) lookupLvl0 d0 item0 = Ret (VNone, d).
Proof.
  intros Hrun Hk. rewrite walk_run_loop, run_loop_app, Hrun, bind_ret.
  cbn [run_loop loop_step]. rewrite Hk. cbn [is_none]. rewrite bind_ret.
  assert (Hb : run_loop nested ks2 (Broken d) = Ret (Broken d))
    by (clear; induction ks2 as [|k' ks2 IH]; [done | exact IH]).
  by rewrite Hb.
Qed.

(** ** Scalar post-processing *)

Lemma postprocess_plain plat nested dblu_nested fuel key d s :
  String.eqb (String "{" (key +:+ "}")) s = false →
  String.eqb "null" s = false →
  String.eqb "true" s = false →
  postprocess plat nested dblu_nested fuel key d (VStr s)
  = s' ← subPlat plat s;
    if negb (Nat.eqb (PyStr.count "{" s') (PyStr.count "}" s'))
    then Abort MalformedReference
    else r ← substitute nested dblu_nested fuel d s'; Ret (VStr r).
Proof. intros H1 H2 H3. unfold postprocess. by rewrite H1, H2, H3. Qed.

(* a string item comes back as a string, unless it is a reserved literal *)
Lemma postprocess_string plat nested dblu_nested fuel key d s v :
  postprocess plat nested dblu_nested fuel key d (VStr s) = Ret v →
  (v = VNone ∧ s = "null") ∨ (v = VBool true ∧ s = "true") ∨ (∃ r, v = VStr r).
Proof.
  unfold postprocess.
  destruct (String.eqb _ s); [done|].
  destruct (String.eqb_spec "null" s) as [<-|_];
    [intros [= <-]; by left|].
  destruct (String.eqb_spec "true" s) as [<-|_];
    [intros [= <-]; right; by left|].
  destruct (subPlat plat s) as [s'| | |]; try done. rewrite bind_ret.
  destruct (negb _); [done|].
  destruct (substitute _ _ _ _ _) as [r| | |]; try done.
  rewrite bind_ret. intros [= <-]. right; right. by exists r.
Qed.

Lemma finish_ret noneAllowed item v :
  finish noneAllowed item = Ret v → v = item.
Proof. unfold finish. destruct (_ && _); [done | by intros [= <-]]. Qed.

(** ** Entering and running the [while] loop *)

Lemma lookup_loop_entry n ARMPLATDB self key plat noneAllowed s' d :
  loop_entry n ARMPLATDB self key plat = Some (s', d) →
  lookup (S n) ARMPLATDB self key plat noneAllowed
  = r ← substitution n ARMPLATDB plat n d s'; Ret (VStr r).
Proof.
  unfold loop_entry. rewrite lookup_walked.
  destruct (walked n ARMPLATDB self key plat) as [[[] d']| | |]; try done.
  destruct (String.eqb _ s) eqn:H1; [done|].
  destruct (String.eqb "null" s) eqn:H2; [done|].
  destruct (String.eqb "true" s) eqn:H3; [done|].
  destruct (subPlat plat s) as [s''| | |] eqn:Hs; try done.
  destruct (Nat.eqb _ _) eqn:Hc; [|done]. intros [= -> ->].
  rewrite bind_ret, postprocess_plain, Hs, bind_ret, Hc by done.
  cbn [negb]. unfold substitution.
  by destruct (substitute _ _ _ _ _).
Qed.

Lemma substitute_done nested dblu_nested fuel d item :
  PyStr.contains "{" item = false →
  substitute nested dblu_nested fuel d item = Ret item.
Proof. intros H. destruct fuel; cbn [substitute]; by rewrite H. Qed.

Lemma substitute_pass nested dblu_nested fuel d item sub :
  PyStr.contains "{" item = true →
  nested d (inner_key item) = Ret (VStr sub) →
  PyStr.replace item (token item) sub ≠ item →
  substitute nested dblu_nested (S fuel) d item
  = substitute nested dblu_nested fuel d (PyStr.replace item (token item) sub).
Proof.
  intros Hc Hn Hne. cbn [substitute]. rewrite Hc. cbn [negb].
  rewrite Hn, bind_ret. by rewrite (proj2 (String.eqb_neq _ _) Hne).
Qed.

Lemma substitute_after_passes nested dblu_nested j : ∀ fuel d item item',
  after_passes nested j d item = Some item' →
  substitute nested dblu_nested (j + fuel) d item
  = substitute nested dblu_nested fuel d item'.
Proof.
  induction j as [|j IH]; intros fuel d item item'; [by intros [= ->]|].
  cbn [after_passes].
  destruct (PyStr.contains "{" item) eqn:Hc; [|done].
  destruct (nested d (inner_key item)) as [[]| | |] eqn:Hn; try done.
  destruct (String.eqb _ item) eqn:He; [done|]. intros Hj.
  rewrite Nat.add_succ_l, (substitute_pass _ _ _ _ _ _ Hc Hn).
  - by apply IH.
  - by apply String.eqb_neq.
Qed.

Lemma substitute_no_brace nested dblu_nested fuel : ∀ d item r,
  substitute nested dblu_nested fuel d item = Ret r →
  PyStr.contains "{" r = false.
Proof.
  induction fuel as [|fuel IH]; intros d item r; cbn [substitute];
    destruct (PyStr.contains "{" item) eqn:Hc; cbn [negb]; try done;
    try (by intros [= <-]).
  destruct (nested d (inner_key item)) as [[]| | |]; try done.
  rewrite bind_ret. destruct (String.eqb _ item); [|apply IH].
  destruct (dblu_nested (inner_key item)) as [[]| | |]; try done.
  rewrite bind_ret. destruct (String.eqb _ item); [done | apply IH].
Qed.

(* a string returned by [lookup] has no "{" left *)
Lemma lookup_no_brace n ARMPLATDB self key plat noneAllowed r :
  lookup n ARMPLATDB self key plat noneAllowed = Ret (VStr r) →
  PyStr.contains "{" r = false.
Proof.
  destruct n as [|n]; [done|]. rewrite lookup_walked.
  destruct (walked n ARMPLATDB self key plat) as [[item d]| | |]; try done.
  rewrite bind_ret.
  destruct (postprocess _ _ _ _ _ _ _) as [v| | |] eqn:Hp; try done.
  rewrite bind_ret. intros H. apply finish_ret in H as <-.
  destruct item; try done. revert Hp. unfold postprocess.
  destruct (String.eqb _ s); [done|].
  destruct (String.eqb "null" s); [done|].
  destruct (String.eqb "true" s); [done|].
  destruct (subPlat plat s) as [s'| | |]; try done. rewrite bind_ret.
  destruct (negb _); [done|].
  destruct (substitute _ _ _ _ _) as [r'| | |] eqn:Hsub; try done.
  rewrite bind_ret. intros [= <-]. by apply substitute_no_brace in Hsub.
Qed.

Lemma loop_entry_walked n ARMPLATDB self key plat s' d :
  loop_entry n ARMPLATDB self key plat = Some (s', d) →
  ∃ s, walked n ARMPLATDB self key plat = Ret (VStr s, d)
       ∧ subPlat plat s = Ret s'
       ∧ PyStr.count "{" s' = PyStr.count "}" s'.
Proof.
  unfold loop_entry.
  destruct (walked n ARMPLATDB self key plat) as [[[] d']| | |]; try done.
  destruct (String.eqb _ s); [done|].
  destruct (String.eqb "null" s); [done|].
  destruct (String.eqb "true" s); [done|].
  destruct (subPlat plat s) as [s''| | |] eqn:Hs; try done.
  destruct (Nat.eqb_spec (PyStr.count "{" s'') (PyStr.count "}" s''));
    [|done].
  intros [= -> ->]. by exists s.
Qed.

Lemma lookup_at_least m n ARMPLATDB self key plat noneAllowed v :
  lookup m ARMPLATDB self key plat noneAllowed = Ret v →
  (m ≤ n)%nat →
  lookup n ARMPLATDB self key plat noneAllowed = Ret v.
Proof.
  intros Hm Hle. rewrite <- Hm. symmetry.
  apply refines_done; [by apply lookup_mono | by rewrite Hm].
Qed.

(** ** Structural references *)

Lemma is_xref_exact X :
  PyStr.contains "{" X = false →
  PyStr.contains "}" X = false →
  is_xref (String "#" (String "{" (X +:+ "}"))) = true
  ∧ inner_key (String "#" (String "{" (X +:+ "}"))) = X.
Proof.
  intros Ho Hc. split.
  - unfold is_xref. cbn [PyStr.startswith PyStr.count].
    rewrite !PyStrFacts.count_app. cbn [PyStr.count].
    apply PyStrFacts.contains_count in Ho, Hc. rewrite Ho, Hc. reflexivity.
  - exact (token_inner_key "#" X "" eq_refl eq_refl Hc).
Qed.

Lemma postprocess_other plat nested dblu_nested fuel key d v :
  (∀ s, v ≠ VStr s) →
  postprocess plat nested dblu_nested fuel key d v = Ret v.
Proof. intros H. destruct v; try done. by destruct (H s). Qed.

Lemma finish_some noneAllowed v : v ≠ VNone → finish noneAllowed v = Ret v.
Proof. intros H. by destruct v. Qed.

(** ** Inheritance along a path of nodes *)

Lemma run_loop_enters nested ks : ∀ lookupLvl d item chain ms,
  enters lookupLvl ks = Some ms →
  (∀ k, d !! k = nearest k chain) →
  (∀ k v, lookupLvl !! k = Some v → d !! k = Some v) →
  ∃ lookupLvl' d' item',
    run_loop nested ks (Running lookupLvl d item)
      = Ret (Running lookupLvl' d' item')
    ∧ (∀ k, d' !! k = nearest k (rev ms ++ chain))
    ∧ (∀ k v, lookupLvl' !! k = Some v → d' !! k = Some v).
Proof.
  induction ks as [|k0 ks IH]; intros lookupLvl d item chain ms.
  - intros [= <-] Hd Hl. by exists lookupLvl, d, item.
  - cbn [enters].
    destruct (lookupLvl !! k0) as [[| | | |m| |]|] eqn:Hk0; try done.
    destruct (enters m ks) as [ms'|] eqn:Hms; [|done].
    intros [= <-] Hd Hl.
    destruct (IH m (assimilate d m) (VDict m) (m :: chain) ms' Hms)
      as (lookupLvl' & d' & item' & Hrun & Hd' & Hl').
    + intros k. rewrite lookup_assimilate. cbn [nearest].
      destruct (m !! k); [done | apply Hd].
    + intros k v Hv. by rewrite lookup_assimilate, Hv.
    + exists lookupLvl', d', item'. split; [|split; [|exact Hl']].
      * cbn [run_loop loop_step]. unfold resolve. rewrite Hk0.
        cbn [is_none cross_reference]. by rewrite bind_ret.
      * intros k. rewrite Hd'. cbn [rev]. by rewrite <- app_assoc.
Qed.

Lemma plain_spec s :
  plain s = true →
  PyStr.contains "{" s = false ∧ PyStr.contains "}" s = false
  ∧ PyStr.contains "@" s = false
  ∧ String.eqb "null" s = false ∧ String.eqb "true" s = false.
Proof.
  unfold plain. rewrite !andb_true_iff, !negb_true_iff. tauto.
Qed.

Lemma inert_cross_reference nested d v :
  inert v = true → cross_reference nested d v = Ret v.
Proof.
  destruct v; try done. intros H. apply plain_spec in H as (_ & Hc & _).
  cbn [cross_reference]. unfold is_xref.
  apply PyStrFacts.contains_count in Hc. rewrite Hc.
  by rewrite andb_false_r.
Qed.

Lemma inert_postprocess plat nested dblu_nested fuel key d v :
  inert v = true →
  postprocess plat nested dblu_nested fuel key d v = Ret v.
Proof.
  destruct v; try done. intros H.
  apply plain_spec in H as (Ho & Hc & Ha & Hn & Ht).
  rewrite postprocess_plain; [|by apply PyStrFacts.eqb_brace_absent|done..].
  unfold subPlat. rewrite Ha, bind_ret.
  apply PyStrFacts.contains_count in Hc. rewrite Hc.
  pose proof Ho as Ho'. apply PyStrFacts.contains_count in Ho'. rewrite Ho'.
  cbn [Nat.eqb negb]. by rewrite substitute_done.
Qed.

(* the last segment of a path of nodes resolves to the nearest definition *)
Lemma lookup_nearest n ARMPLATDB self key plat noneAllowed ks k ms v :
  segments plat key = Ret (ks ++ [k]) →
  enters self ks = Some ms →
  nearest k (rev ms ++ [self]) = Some v →
  inert v = true →
  lookup (S n) ARMPLATDB self key plat noneAllowed = Ret v.
Proof.
  intros Hseg Hent Hnear Hv.
  destruct (run_loop_enters (nested_lookup n ARMPLATDB plat) ks
              (assimilate ∅ self) (assimilate ∅ self) VNone [self] ms)
    as (lookupLvl & d & item & Hrun & Hd & Hl).
  - by rewrite assimilate_empty.
  - intros k'. rewrite assimilate_empty. cbn [nearest].
    by destruct (self !! k').
  - done.
  - assert (Hres : resolve lookupLvl d k = v).
    { unfold resolve. destruct (lookupLvl !! k) as [v'|] eqn:Hk.
      - apply Hl in Hk. rewrite Hd, Hnear in Hk. congruence.
      - by rewrite Hd, Hnear. }
    rewrite lookup_walked. unfold walked.
    rewrite Hseg, bind_ret, walk_run_loop, run_loop_app, Hrun, bind_ret.
    cbn [run_loop loop_step]. rewrite Hres.
    replace (is_none v) with false by (by destruct v).
    rewrite inert_cross_reference, !bind_ret by done.
    assert (Hfin : ∀ d', (item' ← postprocess plat
        (nested_lookup n ARMPLATDB plat) (root_lookup n ARMPLATDB plat)
        n key d' v; finish noneAllowed item') = Ret v).
    { intros d'. rewrite inert_postprocess, bind_ret by done.
      apply finish_some. by destruct v. }
    destruct v; apply Hfin.
Qed.

(** ** The loop on a template given piece by piece *)

Lemma brace_free_spec s :
  brace_free s = true ↔
  PyStr.contains "{" s = false ∧ PyStr.contains "}" s = false.
Proof. unfold brace_free. rewrite andb_true_iff, !negb_true_iff. tauto. Qed.

Lemma brace_free_app s t :
  brace_free s = true → brace_free t = true → brace_free (s +:+ t) = true.
Proof.
  rewrite !brace_free_spec, !PyStrFacts.contains_app.
  intros [-> ->] [-> ->]. done.
Qed.

Lemma replace_app_absent c old' new pre rest :
  PyStr.contains c pre = false →
  PyStr.replace (pre +:+ rest) (String c old') new
  = pre +:+ PyStr.replace rest (String c old') new.
Proof.
  intros Hpre. unfold PyStr.replace. induction pre as [|a pre IH]; [done|].
  simpl in Hpre. apply orb_false_elim in Hpre as [Hac Hpre].
  rewrite !PyStrFacts.append_cons. cbn [PyStr.replace_from].
  rewrite (PyStrFacts.prefix_head_ne _ _ _ _ Hac). f_equal. by apply IH.
Qed.

(* "X}" is not a prefix of "X'}..." for distinct keys without "}" *)
Lemma prefix_key_ne X : ∀ X' rest,
  PyStr.contains "}" X = false →
  PyStr.contains "}" X' = false →
  X ≠ X' →
  String.prefix (X +:+ "}") (X' +:+ String "}" rest) = false.
Proof.
  induction X as [|a X IH]; intros X' rest HX HX' Hne.
  - destruct X' as [|b X']; [done|]. simpl in HX'.
    apply orb_false_elim in HX' as [Hb _].
    rewrite PyStrFacts.append_nil, PyStrFacts.append_cons. cbn [String.prefix].
    destruct (ascii_dec "}" b) as [<-|]; [|done].
    by rewrite Ascii.eqb_refl in Hb.
  - simpl in HX. apply orb_false_elim in HX as [Ha HX].
    destruct X' as [|b X'].
    + rewrite PyStrFacts.append_nil, PyStrFacts.append_cons. cbn [String.prefix].
      destruct (ascii_dec a "}") as [->|]; [|done].
      by rewrite Ascii.eqb_refl in Ha.
    + simpl in HX'. apply orb_false_elim in HX' as [_ HX'].
      rewrite !PyStrFacts.append_cons. cbn [String.prefix].
      destruct (ascii_dec a b) as [->|]; [|done].
      apply IH; [done..|]. congruence.
Qed.

Lemma replace_skip_token X X' sub rest :
  brace_free X = true →
  brace_free X' = true →
  X ≠ X' →
  PyStr.replace (String "{" (X' +:+ String "}" rest)) (String "{" (X +:+ "}")) sub
  = String "{" (X' +:+ String "}"
      (PyStr.replace rest (String "{" (X +:+ "}")) sub)).
Proof.
  intros HX HX' Hne.
  apply brace_free_spec in HX as [_ HXc].
  apply brace_free_spec in HX' as [HXo' HXc'].
  unfold PyStr.replace at 1. cbn [PyStr.replace_from String.prefix].
  destruct (ascii_dec "{" "{"); [|done].
  rewrite (prefix_key_ne X X' rest HXc HXc' Hne). f_equal.
  change (PyStr.replace_from (String "{" (X +:+ "}")) sub 0
            (X' +:+ String "}" rest))
    with (PyStr.replace (X' +:+ String "}" rest) (String "{" (X +:+ "}")) sub).
  rewrite (replace_app_absent _ _ _ _ _ HXo'). reflexivity.
Qed.

Lemma replace_render X sub ps :
  brace_free X = true →
  forallb piece_ok ps = true →
  PyStr.replace (render ps) (String "{" (X +:+ "}")) sub
  = render (map (fill X sub) ps).
Proof.
  intros HX. induction ps as [|[t|X'] ps IH]; [done|..];
    cbn [forallb piece_ok map fill render];
    intros [Hp Hps]%andb_true_iff.
  - apply brace_free_spec in Hp as [Hto _].
    by rewrite (replace_app_absent _ _ _ _ _ Hto), IH.
  - destruct (String.eqb_spec X' X) as [->|Hne].
    + pose proof (PyStrFacts.replace_first "{" (X +:+ "}") sub ""
                    (render ps) eq_refl) as H.
      rewrite !PyStrFacts.append_nil in H. cbn [render].
      rewrite <- IH by done. rewrite <- H. f_equal.
      by rewrite PyStrFacts.append_cons, append_assoc.
    + cbn [render]. rewrite replace_skip_token, IH; done || congruence.
Qed.

Lemma render_no_token ps :
  forallb piece_ok ps = true →
  tokens ps = 0%nat →
  PyStr.contains "{" (render ps) = false ∧ ∀ f, expand f ps = render ps.
Proof.
  induction ps as [|[t|X] ps IH]; [done|..]; cbn [forallb piece_ok tokens];
    intros [Hp Hps]%andb_true_iff Htok; [|done].
  destruct (IH Hps Htok) as [Hc He].
  apply brace_free_spec in Hp as [Hto _]. split.
  - cbn [render]. by rewrite PyStrFacts.contains_app, Hto, Hc.
  - intros f. cbn [expand render]. by rewrite He.
Qed.

(* the leftmost token of a template, and what follows it *)
Lemma render_first_token ps :
  forallb piece_ok ps = true →
  (0 < tokens ps)%nat →
  ∃ pre X post,
    render ps = pre +:+ String "{" (X +:+ String "}" (render post))
    ∧ brace_free pre = true ∧ brace_free X = true
    ∧ In (Tok X) ps
    ∧ forallb piece_ok post = true
    ∧ tokens ps = S (tokens post)
    ∧ (∀ Y, In (Tok Y) post → In (Tok Y) ps)
    ∧ ∀ f, expand f ps = pre +:+ f X +:+ expand f post.
Proof.
  induction ps as [|[t|X] ps IH]; [cbn; lia|..];
    cbn [forallb piece_ok tokens]; intros [Hp Hps]%andb_true_iff Htok.
  - destruct (IH Hps Htok) as (pre & X & post & Hr & Hpre & HX & Hin & Hpost
                               & Hn & Hsub & He).
    exists (t +:+ pre), X, post. repeat split; try done.
    + cbn [render]. by rewrite Hr, append_assoc.
    + by apply brace_free_app.
    + by right.
    + intros Y HY. right. by apply Hsub.
    + intros f. cbn [expand]. by rewrite He, append_assoc.
  - exists "", X, ps. repeat split; try done.
    + by left.
    + intros Y HY. by right.
Qed.

Lemma tokens_fill X sub ps : (tokens (map (fill X sub) ps) ≤ tokens ps)%nat.
Proof.
  induction ps as [|[t|X'] ps IH]; [done|exact IH|].
  cbn [map fill]. destruct (String.eqb X' X); cbn [tokens]; lia.
Qed.

Lemma piece_ok_fill X sub ps :
  brace_free sub = true →
  forallb piece_ok ps = true →
  forallb piece_ok (map (fill X sub) ps) = true.
Proof.
  intros Hsub. induction ps as [|[t|X'] ps IH]; [done|..];
    cbn [forallb map fill piece_ok]; intros [Hp Hps]%andb_true_iff.
  - by rewrite Hp, IH.
  - destruct (String.eqb X' X); cbn [forallb piece_ok];
      rewrite IH by done; [by rewrite Hsub | by rewrite Hp].
Qed.

Lemma in_fill X sub Y ps : In (Tok Y) (map (fill X sub) ps) → In (Tok Y) ps.
Proof.
  induction ps as [|[t|X'] ps IH]; [done|..]; cbn [map fill In].
  - intros [?|?]; [done | right; by apply IH].
  - destruct (String.eqb X' X); intros [?|?]; try done;
      (by left) || (right; by apply IH).
Qed.

Lemma expand_fill f X ps :
  expand f (map (fill X (f X)) ps) = expand f ps.
Proof.
  induction ps as [|[t|X'] ps IH]; [done|..]; cbn [map fill expand].
  - by rewrite IH.
  - destruct (String.eqb_spec X' X) as [->|]; cbn [expand]; by rewrite IH.
Qed.

Lemma substitute_template nested dblu_nested d f fuel : ∀ ps,
  forallb piece_ok ps = true →
  (∀ X, In (Tok X) ps →
        nested d X = Ret (VStr (f X)) ∧ brace_free (f X) = true) →
  (tokens ps ≤ fuel)%nat →
  substitute nested dblu_nested fuel d (render ps) = Ret (expand f ps).
Proof.
  induction fuel as [|fuel IH]; intros ps Hok Hval Hn.
  - destruct (render_no_token ps Hok) as [Hc He]; [lia|].
    by rewrite substitute_done, He.
  - destruct (Nat.eq_dec (tokens ps) 0) as [H0|H0].
    { destruct (render_no_token ps Hok H0) as [Hc He].
      by rewrite substitute_done, He. }
    destruct (render_first_token ps Hok) as (pre & X & post & Hr & Hpre & HX
                                            & Hin & Hpost & Htok & Hsub & He);
      [lia|].
    destruct (Hval X Hin) as [HnX HfX].
    apply brace_free_spec in Hpre as Hpre'. destruct Hpre' as [Hpo Hpc].
    apply brace_free_spec in HX as HX'. destruct HX' as [_ HXc].
    apply brace_free_spec in HfX as HfX'. destruct HfX' as [Hfo _].
    rewrite Hr, substitute_pass with (sub := f X).
    + rewrite (token_replace pre X (render post) Hpo Hpc HXc).
      rewrite replace_render by done.
      change (pre +:+ f X +:+ render (map (fill X (f X)) post))
        with (render (Text pre :: Text (f X) :: map (fill X (f X)) post)).
      rewrite IH.
      * cbn [expand]. by rewrite expand_fill, He.
      * cbn [forallb piece_ok]. rewrite Hpre, HfX. by apply piece_ok_fill.
      * intros Y [?|[?|HY]]; try done. apply Hval, Hsub. by eapply in_fill.
      * cbn [tokens]. pose proof (tokens_fill X (f X) post). lia.
    + by apply token_contains.
    + by rewrite (token_inner_key pre X (render post) Hpo Hpc HXc).
    + by apply token_progress.
Qed.

(** ** The examples of the documentation *)

Example people_john :
  dblu 1 Docs.people "people.john.surname" None false = Ret (VStr "Smith") ∧
  dblu 1 Docs.people "people.jane.surname" None false = Ret (VStr "Smith") ∧
  dblu 1 Docs.people "people.alexa.surname" None false
    = Ret (VStr "Smith-Doe").
Proof. vm_compute. auto. Qed.

Example ex_arm_title :
  dblu 2 Docs.arm "arm.title" None false
  = Ret (VStr "Arm Platforms Software 18.10").
Proof. vm_compute. reflexivity. Qed.

(* the two slashes are those of "url" and of the template *)
Example ex_something :
  dblu 3 Docs.arm "something.url" None false
  = Ret (VStr "https://example.com//path/to/18.10/123.zip").
Proof. vm_compute. reflexivity. Qed.

Example ex_thing :
  dblu 3 Docs.thing "thing.variant1.name" None false
    = Ret (VStr "AAA-111.zip") ∧
  dblu 3 Docs.thing "thing.variant2.name" None false
    = Ret (VStr "AAA-222.zip") ∧
  dblu 3 Docs.thing "thing.variant3.name" None false
    = Ret (VStr "BBB-333.zip").
Proof. vm_compute. auto. Qed.

Example ex_fedora :
  dblu 3 Docs.fedora "fedora.url" (Some "p.board"%string) false
    = Ret (VStr "https://path.to.fedora/server/images/27") ∧
  dblu 3 Docs.fedora "fedora.url" (Some "p.model"%string) false
    = Ret (VStr "https://path.to.fedora/server/images/28").
Proof. vm_compute. auto. Qed.

Example ex_k :
  dblu 2 Docs.kernels "p.model.k" None false
  = Ret (VList [VStr "k.kernel1"; VStr "k.kernel2"]).
Proof. vm_compute. reflexivity. Qed.

(* a reserved word inside a longer text is text *)
Example ex_note :
  dblu 1 Docs.literals "note" None false = Ret (VStr "not null").
Proof. vm_compute. reflexivity. Qed.

(* [multilookup] keeps the order of the keys *)
Example ex_multilookup :
  dblum 2 Docs.software "arm" ["title"; "release"; "url"]%string None false
  = Ret [VStr "Software 18.10"; VStr "18.10"; VStr "https://example.com/"].
Proof. vm_compute. reflexivity. Qed.

(** ** The [while] loop, pass by pass *)

(* the loop is its body, pass after pass *)
Lemma substitute_by_pass nested dblu_nested fuel d item :
  PyStr.contains "{" item = true →
  substitute nested dblu_nested (S fuel) d item
  = item' ← pass nested dblu_nested d item;
    substitute nested dblu_nested fuel d item'.
Proof.
  intros Hc. cbn [substitute]. rewrite Hc. cbn [negb]. unfold pass.
  destruct (nested d (inner_key item)) as [sub| | |]; [|done..].
  rewrite !bind_ret. destruct sub as [| | |sub| | |]; try done.
  destruct (String.eqb (PyStr.replace item (token item) sub) item);
    [|by rewrite bind_ret].
  destruct (dblu_nested (inner_key item)) as [sub2| | |]; [|done..].
  rewrite !bind_ret. destruct sub2 as [| | |sub2| | |]; try done.
  destruct (String.eqb (PyStr.replace item (token item) sub2) item);
    [done|by rewrite bind_ret].
Qed.

Lemma index_of_split c s : ∀ i,
  PyStr.index_of c s = Some i →
  ∃ pre post, s = pre +:+ String c post ∧ PyStr.contains c pre = false ∧
              String.length pre = i.
Proof.
  induction s as [|a s IH]; intros i; cbn [PyStr.index_of]; [done|].
  destruct (Ascii.eqb a c) eqn:Ha.
  - intros [= <-]. apply Ascii.eqb_eq in Ha as ->.
    by exists ""%string, s.
  - destruct (PyStr.index_of c s) as [i'|]; [|done]. intros [= <-].
    destruct (IH i' eq_refl) as (pre & post & -> & Hpre & Hlen).
    exists (String a pre), post. rewrite PyStrFacts.append_cons.
    split; [done|]. split; [|by cbn; rewrite Hlen].
    cbn [PyStr.contains]. by rewrite Ha.
Qed.

Lemma index_of_contains c s :
  PyStr.contains c s = true → ∃ i, PyStr.index_of c s = Some i.
Proof.
  induction s as [|a s IH]; cbn [PyStr.contains PyStr.index_of]; [done|].
  destruct (Ascii.eqb a c); [by eexists|]. cbn [orb].
  intros [i ->]%IH. by eexists.
Qed.

Lemma index_of_absent c s :
  PyStr.contains c s = false → PyStr.index_of c s = None.
Proof.
  induction s as [|a s IH]; cbn [PyStr.contains PyStr.index_of]; [done|].
  destruct (Ascii.eqb a c); [done|]. cbn [orb]. by intros ->%IH.
Qed.

Lemma substring_none n s : substring n 0 s = ""%string.
Proof. revert n. induction s as [|a s IH]; intros [|n]; cbn; auto. Qed.

(* a slice that ends where it begins, or before *)
Lemma slice_empty s (a b : Z) :
  0 ≤ a → 0 ≤ b → b ≤ a → PyStr.slice s a b = ""%string.
Proof.
  intros Ha Hb Hab. unfold PyStr.slice.
  rewrite !(proj2 (Z.ltb_ge _ 0)) by lia.
  replace (Z.to_nat (Z.min b _ - Z.min a _)) with 0%nat by lia.
  apply substring_none.
Qed.

Lemma intersperse_length new s :
  String.length (PyStr.intersperse new s)
  = (String.length s + (String.length s + 1) * String.length new)%nat.
Proof.
  induction s as [|a s IH]; cbn [PyStr.intersperse String.length]; [lia|].
  rewrite PyStrFacts.length_app. cbn [String.length]. rewrite IH. lia.
Qed.

Lemma replace_empty_fixed s new :
  PyStr.replace s "" new = s ↔ new = ""%string.
Proof.
  cbn [PyStr.replace]. split.
  - intros H. apply (f_equal String.length) in H.
    rewrite intersperse_length in H. destruct new; [done|].
    cbn [String.length] in H. lia.
  - intros ->. induction s as [|a s IH]; [done|].
    cbn [PyStr.intersperse]. by rewrite PyStrFacts.append_nil, IH.
Qed.

(* a pass leaves the string as it is only when its token is empty: the
   first "}" is missing or stands before the first "{" *)
Lemma unchanged_token_empty item sub :
  PyStr.contains "{" item = true →
  PyStr.contains "{" sub = false →
  PyStr.replace item (token item) sub = item →
  token item = ""%string ∧ sub = ""%string.
Proof.
  intros Hc Hsub Heq.
  assert (Ht : token item = ""%string); [|by rewrite Ht, replace_empty_fixed in Heq].
  destruct (index_of_contains _ _ Hc) as [l Hl].
  destruct (index_of_split _ _ _ Hl) as (pre & rest & -> & Hpre & Hlen).
  unfold token, PyStr.find at 1. rewrite Hl.
  destruct (PyStr.contains "}" pre) eqn:Hpc.
  - destruct (index_of_contains _ _ Hpc) as [r Hr].
    destruct (index_of_split _ _ _ Hr) as (p1 & p2 & -> & Hp1 & Hlen1).
    rewrite append_assoc, PyStrFacts.append_cons.
    rewrite (PyStrFacts.find_first _ _ _ Hp1).
    apply slice_empty; [lia|lia|].
    rewrite <- Hlen, PyStrFacts.length_app. cbn [String.length]. lia.
  - destruct (PyStr.contains "}" rest) eqn:Hrc.
    + destruct (index_of_contains _ _ Hrc) as [r Hr].
      destruct (index_of_split _ _ _ Hr) as (X & post & -> & HX & _).
      by destruct (token_progress pre X post Hpre Hpc HX sub Hsub).
    + unfold PyStr.find. rewrite index_of_absent.
      * apply slice_empty; lia.
      * rewrite PyStrFacts.contains_app, Hpc. cbn [PyStr.contains orb].
        by rewrite Hrc.
Qed.

(** ** A recursion that the self-reference check does not see *)

Lemma at_self_recursion n noneAllowed :
  lookup n Docs6.at_self Docs6.at_self "u" (Some "u"%string) noneAllowed
  = OutOfFuel.
Proof.
  revert noneAllowed. induction n as [|n IH]; intros noneAllowed; [done|].
  rewrite lookup_walked.
  assert (Hw : walked n Docs6.at_self Docs6.at_self "u" (Some "u"%string)
               = Ret (VStr "{@}", Docs6.at_self)) by (vm_compute; reflexivity).
  rewrite Hw, bind_ret.
  assert (Hp : postprocess (Some "u"%string)
                 (nested_lookup n Docs6.at_self (Some "u"%string))
                 (root_lookup n Docs6.at_self (Some "u"%string)) n "u"
                 Docs6.at_self (VStr "{@}")
               = s ← substitute
                      (nested_lookup n Docs6.at_self (Some "u"%string))
                      (root_lookup n Docs6.at_self (Some "u"%string)) n
                      Docs6.at_self "{u}"; Ret (VStr s)) by reflexivity.
  rewrite Hp. destruct n as [|n]; [done|].
  cbn [substitute].
  change (PyStr.contains "{" "{u}") with true. cbn [negb].
  change (inner_key "{u}") with "u"%string.
  unfold nested_lookup. by rewrite IH.
Qed.

(** ** Any budget that suffices gives the same outcome *)

(* two runs on the same arguments that both finish within their budgets end
   in the same outcome *)
Lemma lookup_any_budget n m ARMPLATDB self key plat noneAllowed :
  lookup n ARMPLATDB self key plat noneAllowed ≠ OutOfFuel →
  lookup m ARMPLATDB self key plat noneAllowed ≠ OutOfFuel →
  lookup n ARMPLATDB self key plat noneAllowed
  = lookup m ARMPLATDB self key plat noneAllowed.
Proof.
  intros H1 H2. destruct (Nat.le_ge_cases n m) as [Hle|Hle].
  - apply refines_done; [by apply lookup_mono | done].
  - symmetry. apply refines_done; [by apply lookup_mono | done].
Qed.

(** ** The store: what a call of [lookup] does to the objects *)

Module StoreFacts.

Lemma bind_run {A B} (m : Store.run A) (f : A → Store.run B) σ :
  (m ≫= f) σ
  = match m σ with
    | Ret (a, σ') => f a σ'
    | Abort e => Abort e
    | TypeError => TypeError
    | OutOfFuel => OutOfFuel
    end.
Proof. reflexivity. Qed.

Lemma repr_mono σ σ' : σ ⊆ σ' → ∀ hv v, Store.repr σ hv v → Store.repr σ' hv v.
Proof.
  intros Hsub. fix IH 3. intros hv v [| | | |l content m Hl Hm|hl l Hl|].
  - constructor.
  - constructor.
  - constructor.
  - constructor.
  - apply (Store.repr_dict _ l content m).
    + by eapply lookup_weaken.
    + intros k. destruct (Hm k) as [x y Hxy|]; constructor. by apply IH.
  - constructor. revert hl l Hl. fix IHl 3.
    intros hl l [|x y hl' l' Hxy Hl']; constructor; [by apply IH|].
    by apply IHl.
  - constructor.
Qed.

Lemma represents_mono σ σ' content m :
  σ ⊆ σ' → Store.represents σ content m → Store.represents σ' content m.
Proof.
  intros Hsub H k. destruct (H k); constructor. by eapply repr_mono.
Qed.

Lemma object_mono σ σ' l m : σ ⊆ σ' → Store.object σ l m → Store.object σ' l m.
Proof.
  intros Hsub (content & Hl & Hm). exists content.
  split; [by eapply lookup_weaken|by eapply represents_mono].
Qed.

Lemma object_repr σ l m : Store.object σ l m ↔ Store.repr σ (Store.HRef l) (VDict m).
Proof.
  split.
  - intros (content & Hl & Hm). by eapply Store.repr_dict.
  - inversion 1; subst. by eexists.
Qed.

Lemma represents_empty σ : Store.represents σ ∅ ∅.
Proof. intros k. rewrite !lookup_empty. constructor. Qed.

Lemma represents_insert σ content m k hv v :
  Store.repr σ hv v → Store.represents σ content m →
  Store.represents σ (<[k := hv]> content) (<[k := v]> m).
Proof.
  intros Hv H k'. destruct (decide (k = k')) as [->|Hne].
  - rewrite !lookup_insert_eq. by constructor.
  - rewrite !lookup_insert_ne by done. apply H.
Qed.

(* the aggregate after [assimilate] *)
Lemma represents_assimilate σ hd hs D S :
  Store.represents σ hd D → Store.represents σ hs S →
  Store.represents σ (hs ∪ hd) (assimilate D S).
Proof.
  intros HD HS k. rewrite lookup_assimilate, lookup_union.
  destruct (HS k) as [x y Hxy|].
  - rewrite union_Some_l. by constructor.
  - rewrite (left_id_L None _). apply HD.
Qed.

(* [assimilate] changes the object [d], and only that object *)
Lemma assimilate_store d src σ hd :
  σ !! d = Some hd →
  Store.assimilate d src σ = Ret ((), <[d := (σ !!! src) ∪ hd]> σ).
Proof.
  intros Hd. unfold Store.assimilate. f_equal. f_equal.
  apply (map_fold_weak_ind
           (λ (r : Store.store) (m : Store.dict), r = <[d := m ∪ hd]> σ)).
  - rewrite (left_id_L ∅ (∪)). by rewrite insert_id.
  - intros k v m r Hk ->. unfold Store.update.
    rewrite lookup_total_insert_eq, insert_insert_eq.
    by rewrite insert_union_l.
Qed.


Lemma extends_refl τ σ : Store.extends τ τ σ.
Proof. split; [done|auto]. Qed.

Lemma extends_trans τ τ1 τ2 σ σ1 :
  Store.extends τ τ1 σ → Store.extends τ1 τ2 σ1 →
  (∀ l, is_Some (σ !! l) → is_Some (σ1 !! l)) →
  Store.extends τ τ2 σ.
Proof.
  intros [H1 H1'] [H2 H2'] Hdom. split; [by etrans|]. auto.
Qed.

Lemma fresh_none (σ : Store.store) : σ !! fresh (dom σ) = None.
Proof. apply not_elem_of_dom, is_fresh. Qed.

(* a new object *)
Lemma extends_new τ σ content l :
  τ ⊆ σ → σ !! l = None →
  Store.extends τ (<[l := content]> τ) σ ∧ <[l := content]> τ ⊆ <[l := content]> σ
  ∧ σ ⊆ <[l := content]> σ ∧ τ !! l = None.
Proof.
  intros Hsub Hl.
  assert (Hτ : τ !! l = None).
  { destruct (τ !! l) eqn:E; [|done].
    by rewrite (lookup_weaken _ _ _ _ E Hsub) in Hl. }
  split; [split|split; [|split]].
  - by apply insert_subseteq.
  - intros l' H1 H2. destruct (decide (l = l')) as [<-|Hne].
    + rewrite Hl in H2. by destruct H2.
    + by rewrite lookup_insert_ne in H1.
  - by apply insert_mono.
  - by apply insert_subseteq.
  - done.
Qed.

Lemma frame_refl d σ : Store.frame d σ σ.
Proof. by intros l content _ H. Qed.

Lemma frame_trans d σ σ1 σ2 : Store.frame d σ σ1 → Store.frame d σ1 σ2 → Store.frame d σ σ2.
Proof. intros H1 H2 l content Hne H. by apply H2, H1. Qed.

Lemma frame_subseteq d σ σ' : σ ⊆ σ' → Store.frame d σ σ'.
Proof. intros Hsub l content _ H. by eapply lookup_weaken. Qed.

Lemma frame_insert d σ content : Store.frame d σ (<[d := content]> σ).
Proof. intros l c Hne H. by rewrite lookup_insert_ne. Qed.

Lemma new_run content σ :
  Store.new content σ = Ret (fresh (dom σ), <[fresh (dom σ) := content]> σ).
Proof. reflexivity. Qed.

Lemma copy_run x content σ :
  σ !! x = Some content →
  Store.copy x σ = Ret (fresh (dom σ), <[fresh (dom σ) := content]> σ).
Proof.
  intros Hx. unfold Store.copy, Store.items. rewrite bind_run.
  by rewrite (lookup_total_correct _ _ _ Hx).
Qed.

Lemma resolve_run ll dl k σ hl hd :
  σ !! ll = Some hl → σ !! dl = Some hd →
  Store.resolve ll dl k σ
  = Ret (match hl !! k with
         | Some v => v
         | None => match hd !! k with Some v => v | None => Store.HNone end
         end, σ).
Proof.
  intros Hl Hd. unfold Store.resolve, Store.items. rewrite !bind_run.
  by rewrite (lookup_total_correct _ _ _ Hl), (lookup_total_correct _ _ _ Hd).
Qed.

Lemma resolve_repr τ hl hd L D k :
  Store.represents τ hl L → Store.represents τ hd D →
  Store.repr τ (match hl !! k with
          | Some v => v
          | None => match hd !! k with Some v => v | None => Store.HNone end
          end)
         (resolve L D k).
Proof.
  intros HL HD. unfold resolve.
  destruct (HL k) as [x y Hxy|]; [done|].
  destruct (HD k) as [x y Hxy|]; [done|constructor].
Qed.

Lemma bind_run_assoc {A B C} (m : Store.run A) (f : A → Store.run B) (g : B → Store.run C) σ :
  ((m ≫= f) ≫= g) σ = (m ≫= λ a, f a ≫= g) σ.
Proof.
  rewrite !bind_run. destruct (m σ) as [[a σ']| | |]; by rewrite ?bind_run.
Qed.

Lemma is_none_repr τ hv v : Store.repr τ hv v → Store.is_none hv = is_none v.
Proof. by destruct 1. Qed.

Lemma returns_as_ret τ σ hv v :
  τ ⊆ σ → Store.repr τ hv v → Store.returns_as τ σ (Ret v) (Ret (hv, σ)).
Proof.
  intros Hsub Hv. exists hv, σ, τ. split; [done|]. split; [done|].
  split; [apply extends_refl|]. by split.
Qed.

(* a run that starts later starts from more objects *)
Lemma returns_as_start τ σ τ1 σ1 o r :
  σ ⊆ σ1 → Store.extends τ τ1 σ →
  Store.returns_as τ1 σ1 o r → Store.returns_as τ σ o r.
Proof.
  intros Hσ Hτ. destruct o as [v| | |]; try done.
  intros (hv & σ' & τ' & -> & Hσ' & Hτ' & Hsub & Hv).
  exists hv, σ', τ'. split; [done|]. split; [by etrans|].
  split; [|by split]. eapply extends_trans; [done..|].
  intros l [x Hx]. exists x. by eapply lookup_weaken.
Qed.

Lemma returns_str_start τ σ τ1 σ1 o r :
  σ ⊆ σ1 → Store.extends τ τ1 σ →
  Store.returns_str τ1 σ1 o r → Store.returns_str τ σ o r.
Proof.
  intros Hσ Hτ. destruct o as [v| | |]; try done.
  intros (σ' & τ' & -> & Hσ' & Hτ' & Hsub).
  exists σ', τ'. split; [done|]. split; [by etrans|].
  split; [|done]. eapply extends_trans; [done..|].
  intros l [x Hx]. exists x. by eapply lookup_weaken.
Qed.

Lemma walks_as_start d τ σ τ1 σ1 o r :
  Store.frame d σ σ1 → is_Some (σ1 !! d) → Store.extends τ τ1 σ →
  Store.walks_as d τ1 σ1 o r → Store.walks_as d τ σ o r.
Proof.
  intros Hσ Hd Hτ. destruct o as [[v D]| | |]; try done.
  intros (hv & σ' & τ' & content & -> & Hσ' & Hτ' & Hsub & Hv & Hd' & HD).
  exists hv, σ', τ', content. split; [done|].
  split; [by eapply frame_trans|]. split; [|done].
  eapply extends_trans; [done..|].
  intros l [x Hx]. destruct (decide (l = d)) as [->|Hne]; [done|].
  exists x. by apply Hσ.
Qed.

Section Refinement.

Variable plat : option string.
Variable N : Database → string → outcome value.
Variable R : string → outcome value.
Variable Nh : Store.loc → string → Store.run Store.hvalue.
Variable Rh : string → Store.run Store.hvalue.
Variable A : Store.loc.
Variable DB : Database.

Hypothesis HN : ∀ τ σ c m key,
  τ ⊆ σ → Store.object τ A DB → Store.object τ c m →
  Store.returns_as τ σ (N m key) (Nh c key σ).
Hypothesis HR : ∀ τ σ key,
  τ ⊆ σ → Store.object τ A DB → Store.returns_as τ σ (R key) (Rh key σ).

(* [Database(d).lookup(key, plat)] *)
Lemma nested_refines τ σ d content D key :
  τ ⊆ σ → Store.object τ A DB → σ !! d = Some content → Store.represents τ content D →
  Store.returns_as τ σ (N D key) ((c ← Store.copy d; Nh c key) σ).
Proof.
  intros Hsub HA Hd HD. rewrite bind_run, (copy_run _ _ _ Hd).
  destruct (extends_new τ σ content _ Hsub (fresh_none σ))
    as (Hext & Hsub1 & Hσ & Hτ).
  eapply returns_as_start; [exact Hσ|exact Hext|].
  destruct Hext as [Hττ _]. apply HN; [done|by eapply object_mono|].
  exists content. split; [by rewrite lookup_insert_eq|].
  by eapply represents_mono.
Qed.

Lemma cross_reference_refines τ σ d content D hitem item :
  τ ⊆ σ → Store.object τ A DB → σ !! d = Some content → Store.represents τ content D →
  Store.repr τ hitem item →
  Store.returns_as τ σ (cross_reference N D item)
    (Store.cross_reference Nh d hitem σ).
Proof.
  intros Hsub HA Hd HD Hv.
  destruct Hv; cbn [cross_reference Store.cross_reference];
    try (apply returns_as_ret; [done|by econstructor]).
  destruct (is_xref s).
  - by eapply nested_refines.
  - apply returns_as_ret; [done|constructor].
Qed.

Lemma walk_refines ks d : ∀ τ σ ll hl hd L D hitem item,
  τ ⊆ σ → Store.object τ A DB → τ !! d = None →
  σ !! d = Some hd → Store.represents τ hd D →
  σ !! ll = Some hl → Store.represents τ hl L →
  Store.repr τ hitem item →
  Store.walks_as d τ σ (walk N ks L D item) (Store.walk Nh ks ll d hitem σ).
Proof.
  induction ks as [|k ks IH];
    intros τ σ ll hl hd L D hitem item Hsub HA Hτd Hd HD Hl HL Hv.
  { exists hitem, σ, τ, hd. split; [done|]. split; [apply frame_refl|].
    split; [apply extends_refl|]. done. }
  cbn [walk Store.walk]. rewrite bind_run, (resolve_run _ _ _ _ _ _ Hl Hd).
  pose proof (resolve_repr τ hl hd L D k HL HD) as Hres.
  revert Hres.
  generalize (match hl !! k with
              | Some v => v
              | None => match hd !! k with Some v => v | None => Store.HNone end
              end) (resolve L D k).
  intros hres pres Hres. rewrite (is_none_repr _ _ _ Hres).
  destruct (is_none pres) eqn:Hnone.
  { exists Store.HNone, σ, τ, hd. split; [done|]. split; [apply frame_refl|].
    split; [apply extends_refl|]. split; [done|]. split; [constructor|done]. }
  pose proof (cross_reference_refines τ σ d hd D hres pres Hsub HA Hd HD Hres)
    as Hx.
  rewrite bind_run.
  destruct (cross_reference N D pres) as [item'| | |];
    cbn [Store.returns_as] in Hx; [|by rewrite Hx..].
  destruct Hx as (hv & σ2 & τ2 & -> & Hσ2 & Hext2 & Hsub2 & Hv2).
  rewrite bind_ret.
  assert (Hτ2d : τ2 !! d = None).
  { destruct (τ2 !! d) eqn:E; [|done].
    destruct (proj2 Hext2 d) as [x Hx]; [by eexists..|congruence]. }
  assert (Hd2 : σ2 !! d = Some hd) by (by eapply lookup_weaken).
  assert (Hl2 : σ2 !! ll = Some hl) by (by eapply lookup_weaken).
  assert (HA2 : Store.object τ2 A DB) by (eapply object_mono; [apply Hext2|done]).
  assert (HD2 : Store.represents τ2 hd D)
    by (eapply represents_mono; [apply Hext2|done]).
  assert (HL2 : Store.represents τ2 hl L)
    by (eapply represents_mono; [apply Hext2|done]).
  eapply walks_as_start;
    [by apply frame_subseteq|by eexists|exact Hext2|].
  destruct Hv2 as [| | | |l content m Hlc Hm|hvs vs Hvs|];
    try (eapply IH; [done..|by econstructor]).
  (* a dict is entered *)
  assert (Hlc2 : σ2 !! l = Some content) by (by eapply lookup_weaken).
  rewrite bind_run, (copy_run _ _ _ Hlc2).
  pose proof (fresh_none σ2) as Hf. revert Hf.
  generalize (fresh (dom σ2)). intros l' Hf.
  destruct (extends_new τ2 σ2 content l' Hsub2 Hf)
    as (Hext3 & Hsub3 & Hσ3 & Hτ3).
  assert (Hne : l' ≠ d) by congruence.
  assert (Hd3 : <[l' := content]> σ2 !! d = Some hd)
    by (by rewrite lookup_insert_ne).
  rewrite bind_run, (assimilate_store _ _ _ _ Hd3).
  rewrite lookup_total_insert_eq.
  eapply walks_as_start; [| |exact Hext3|].
  - intros i x Hi Hx. rewrite lookup_insert_ne by done.
    by eapply lookup_weaken.
  - rewrite lookup_insert_eq. by eexists.
  - destruct Hext3 as [Hττ3 _].
    eapply (IH _ _ l' content (content ∪ hd) m (assimilate D m)).
    + apply map_subseteq_spec. intros i x Hx.
      destruct (decide (i = d)) as [->|Hi].
      * rewrite lookup_insert_ne in Hx by done. congruence.
      * rewrite lookup_insert_ne by done. by eapply lookup_weaken.
    + by eapply object_mono.
    + by rewrite lookup_insert_ne.
    + by rewrite lookup_insert_eq.
    + apply represents_assimilate; by eapply represents_mono.
    + rewrite lookup_insert_ne by done. by rewrite lookup_insert_eq.
    + by eapply represents_mono.
    + eapply (Store.repr_dict _ l' content m); [by rewrite lookup_insert_eq|].
      by eapply (represents_mono τ2).
Qed.

Lemma substitute_refines fuel d content D : ∀ τ σ item,
  τ ⊆ σ → Store.object τ A DB → σ !! d = Some content → Store.represents τ content D →
  Store.returns_str τ σ (substitute N R fuel D item)
    (Store.substitute Nh Rh fuel d item σ).
Proof.
  induction fuel as [|fuel IH]; intros τ σ item Hsub HA Hd HD;
    cbn [substitute Store.substitute];
    (destruct (PyStr.contains "{" item); cbn [negb];
     [|exists σ, τ; split; [done|]; split; [done|];
       split; [apply extends_refl|done]]); [done|].
  pose proof (nested_refines τ σ d content D (inner_key item) Hsub HA Hd HD)
    as Hx.
  rewrite <- (bind_run_assoc (Store.copy d)).
  rewrite bind_run.
  destruct (N D (inner_key item)) as [sub| | |];
    cbn [Store.returns_as] in Hx; [|by rewrite Hx..].
  destruct Hx as (hv & σ2 & τ2 & -> & Hσ2 & Hext2 & Hsub2 & Hv2).
  rewrite bind_ret.
  assert (Hd2 : σ2 !! d = Some content) by (by eapply lookup_weaken).
  assert (HA2 : Store.object τ2 A DB) by (eapply object_mono; [apply Hext2|done]).
  assert (HD2 : Store.represents τ2 content D)
    by (eapply represents_mono; [apply Hext2|done]).
  eapply returns_str_start; [exact Hσ2|exact Hext2|].
  destruct Hv2 as [| | |sub| | |]; try done.
  destruct (String.eqb (PyStr.replace item (token item) sub) item);
    [|by eapply IH].
  pose proof (HR τ2 σ2 (inner_key item) Hsub2 HA2) as Hy.
  rewrite bind_run.
  destruct (R (inner_key item)) as [sub2| | |];
    cbn [Store.returns_as] in Hy; [|by rewrite Hy..].
  destruct Hy as (hv & σ3 & τ3 & -> & Hσ3 & Hext3 & Hsub3 & Hv3).
  rewrite bind_ret.
  eapply returns_str_start; [exact Hσ3|exact Hext3|].
  destruct Hv3 as [| | |sub2| | |]; try done.
  destruct (String.eqb (PyStr.replace item (token item) sub2) item); [done|].
  eapply IH; [done| | |].
  - eapply object_mono; [apply Hext3|done].
  - by eapply lookup_weaken.
  - eapply represents_mono; [apply Hext3|done].
Qed.

Lemma postprocess_refines fuel key d content D τ σ hitem item :
  τ ⊆ σ → Store.object τ A DB → σ !! d = Some content → Store.represents τ content D →
  Store.repr τ hitem item →
  Store.returns_as τ σ (postprocess plat N R fuel key D item)
    (Store.postprocess plat Nh Rh fuel key d hitem σ).
Proof.
  intros Hsub HA Hd HD Hv.
  destruct Hv; cbn [postprocess Store.postprocess];
    try (apply returns_as_ret; [done|by econstructor]).
  destruct (String.eqb _ s); [done|].
  destruct (String.eqb "null" s); [apply returns_as_ret; [done|constructor]|].
  destruct (String.eqb "true" s); [apply returns_as_ret; [done|constructor]|].
  rewrite bind_run. unfold Store.lift.
  destruct (subPlat plat s) as [s'| | |]; [|done..]. rewrite bind_ret.
  destruct (negb _); [done|].
  pose proof (substitute_refines fuel d content D τ σ s' Hsub HA Hd HD) as Hx.
  rewrite bind_run.
  destruct (substitute N R fuel D s') as [r| | |];
    cbn [Store.returns_str] in Hx; [|by rewrite Hx..].
  destruct Hx as (σ2 & τ2 & -> & Hσ2 & Hext2 & Hsub2).
  rewrite bind_ret. exists (Store.HStr r), σ2, τ2. repeat split; try done.
  - apply Hext2.
  - apply Hext2.
  - constructor.
Qed.

Lemma lookup_body_refines fuel key noneAllowed τ σ self doc :
  τ ⊆ σ → Store.object τ A DB → Store.object τ self doc →
  Store.returns_as τ σ (lookup_body plat N R fuel doc key noneAllowed)
    (Store.lookup_body plat Nh Rh fuel self key noneAllowed σ).
Proof.
  intros Hsub HA (hs & Hs & Hdoc).
  unfold lookup_body, Store.lookup_body.
  rewrite bind_run, new_run.
  pose proof (fresh_none σ) as Hf. revert Hf.
  generalize (fresh (dom σ)). intros d Hf.
  assert (Hτd : τ !! d = None).
  { destruct (τ !! d) eqn:E; [|done].
    by rewrite (lookup_weaken _ _ _ _ E Hsub) in Hf. }
  assert (Hs1 : <[d := ∅]> σ !! self = Some hs).
  { rewrite lookup_insert_ne; [by eapply lookup_weaken|].
    intros ->. apply (lookup_weaken _ _ _ _ Hs) in Hsub. congruence. }
  rewrite bind_run, (assimilate_store _ _ _ ∅ (lookup_insert_eq _ _ _)).
  rewrite (lookup_total_correct _ _ _ Hs1), insert_insert_eq.
  rewrite (right_id_L ∅ (∪)).
  rewrite bind_run. unfold Store.lift at 1.
  destruct (subPlat plat key) as [k| | |]; [|done..]. rewrite bind_ret.
  set (σ1 := <[d := hs]> σ).
  assert (Hsub1 : τ ⊆ σ1).
  { apply map_subseteq_spec. intros i x Hx.
    unfold σ1. rewrite lookup_insert_ne by congruence.
    by eapply lookup_weaken. }
  assert (Hd1 : σ1 !! d = Some hs) by apply lookup_insert_eq.
  assert (HD : Store.represents τ hs (assimilate ∅ doc))
    by (by rewrite assimilate_empty).
  pose proof (walk_refines (PyStr.split "." k) d τ σ1 d hs hs
                (assimilate ∅ doc) (assimilate ∅ doc) Store.HNone VNone
                Hsub1 HA Hτd Hd1 HD Hd1 HD (Store.repr_none _)) as Hw.
  rewrite bind_run.
  destruct (walk N _ _ _ _) as [[item D]| | |];
    cbn [Store.walks_as] in Hw; [|by rewrite Hw..].
  destruct Hw as (hv & σ2 & τ2 & content & -> & Hfr & Hext2 & Hsub2 & Hv
                  & Hd2 & HD2).
  rewrite bind_ret.
  assert (Hσ2 : σ ⊆ σ2).
  { apply map_subseteq_spec. intros i x Hx. apply Hfr; [congruence|].
    unfold σ1. rewrite lookup_insert_ne by congruence. done. }
  assert (Hext : Store.extends τ τ2 σ).
  { split; [apply Hext2|]. intros l H1 [x H2]. apply (proj2 Hext2 l H1).
    unfold σ1. rewrite lookup_insert_ne by congruence. by eexists. }
  eapply returns_as_start; [exact Hσ2|exact Hext|].
  pose proof (postprocess_refines fuel key d content D τ2 σ2 hv item Hsub2)
    as Hp.
  rewrite bind_run.
  destruct (postprocess plat N R fuel key D item) as [item'| | |];
    cbn [Store.returns_as] in Hp.
  - destruct Hp as (hv' & σ3 & τ3 & -> & Hσ3 & Hext3 & Hsub3 & Hv');
      [eapply object_mono; [apply Hext2|done]|done..|].
    rewrite bind_ret. unfold finish, Store.finish.
    rewrite (is_none_repr _ _ _ Hv').
    destruct (_ && _); [done|].
    exists hv', σ3, τ3. by repeat split; try apply Hext3.
  - rewrite Hp; [done|eapply object_mono; [apply Hext2|done]|done..].
  - rewrite Hp; [done|eapply object_mono; [apply Hext2|done]|done..].
  - rewrite Hp; [done|eapply object_mono; [apply Hext2|done]|done..].
Qed.

End Refinement.

(* the method on the store does what the function on values does *)
Lemma lookup_refines fuel A DB plat : ∀ τ σ self doc key noneAllowed,
  τ ⊆ σ → Store.object τ A DB → Store.object τ self doc →
  Store.returns_as τ σ (lookup fuel DB doc key plat noneAllowed)
    (Store.lookup fuel A self key plat noneAllowed σ).
Proof.
  induction fuel as [|fuel IH]; intros τ σ self doc key noneAllowed Hsub HA Hs;
    [done|].
  cbn [lookup Store.lookup].
  apply (lookup_body_refines plat _ _ _ _ A DB); [| |done..].
  - intros τ' σ' c m k Hsub' HA' Hc. by apply IH.
  - intros τ' σ' k Hsub' HA'. by apply IH.
Qed.

(* a call that returns leaves the objects as they were, and returns what
   the function on values returns *)
Lemma lookup_returns fuel A DB plat σ σ0 self doc key noneAllowed hv σ' :
  Store.object σ0 A DB → Store.object σ0 self doc → σ0 ⊆ σ →
  Store.lookup fuel A self key plat noneAllowed σ = Ret (hv, σ') →
  σ ⊆ σ' ∧ ∃ v, lookup fuel DB doc key plat noneAllowed = Ret v
                ∧ Store.repr σ' hv v.
Proof.
  intros HA Hs Hsub Hrun.
  pose proof (lookup_refines fuel A DB plat σ0 σ self doc key noneAllowed
                Hsub HA Hs) as H.
  destruct (lookup fuel DB doc key plat noneAllowed) as [v| | |];
    cbn [Store.returns_as] in H; [|congruence..].
  destruct H as (hv' & σ'' & τ' & H & Hσ & _ & Hτ & Hv).
  rewrite Hrun in H. injection H as -> ->.
  split; [done|]. exists v. split; [done|].
  exact (repr_mono _ _ Hτ _ _ Hv).
Qed.

Lemma represents_singleton σ k hv v :
  Store.repr σ hv v → Store.represents σ {[ k := hv ]} {[ k := v ]}.
Proof.
  intros Hv. apply (represents_insert σ ∅ ∅ k hv v Hv), represents_empty.
Qed.

Lemma run_split {A} (r : outcome (A * Store.store)) a :
  Store.result r = Ret a → r = Ret (a, Store.final r).
Proof. destruct r as [[a' σ]| | |]; [|done..]. by intros [= ->]. Qed.

End StoreFacts.

(* the store [Docs7.arm] holds the database [Docs.arm] *)
Lemma arm_object : Store.object Docs7.arm 1%positive Docs.arm.
Proof.
  exists Docs7.arm_root. split; [reflexivity|].
  apply StoreFacts.represents_insert.
  - apply (Store.repr_dict _ 2%positive Docs7.arm_node); [reflexivity|].
    repeat (apply StoreFacts.represents_insert; [constructor|]).
    apply StoreFacts.represents_empty.
  - apply StoreFacts.represents_singleton.
    apply (Store.repr_dict _ 3%positive Docs7.something_node); [reflexivity|].
    apply StoreFacts.represents_singleton. constructor.
Qed.

Lemma arm_run :
  Store.lookup 2 1%positive 1%positive "arm" None false Docs7.arm
  = Ret (Store.HRef 5%positive, Docs7.arm_after).
Proof. apply StoreFacts.run_split. vm_compute. reflexivity. Qed.

Example ex_store_lookup :
  Store.result
    (Store.lookup 2 1%positive 1%positive "arm" None false Docs7.arm)
    = Ret (Store.HRef 5%positive) ∧
  Store.result
    (Store.lookup 2 1%positive 1%positive "arm" None false Docs7.arm_after)
    = Ret (Store.HRef 7%positive) ∧
  Store.result
    (Store.lookup 2 1%positive 1%positive "arm.title" None false Docs7.arm)
    = Ret (Store.HStr "Arm Platforms Software 18.10") ∧
  Store.result
    (Store.lookup 2 1%positive 1%positive "arm.nothing" None false Docs7.arm)
    = Abort NotFound.
Proof. vm_compute. repeat split. Qed.

(** * The properties of the specification *)

(** C1. Inheritance. Entering a dict puts its own keys on top of the
    aggregate, the aggregate starts as the keys of the database itself, and
    a segment is looked up in the current nesting level first and in the
    aggregate otherwise. Hence, once the walk has entered the nodes [ms] the
    aggregate maps every key to its definition nearest to the last node, and
    when the last segment [k] of the key path is defined in one of the nodes
    or in the database, the call returns that nearest definition: a node's
    own key hides an inherited one. For the node "root" with surname "Smith"
    and children john, jane and alexa, of which alexa alone has a surname of
    her own, the surnames of john and jane are "Smith" and that of alexa is
    "Smith-Doe". *)
Theorem C1_inheritance :
  (∀ (d m : Database) (k : string),
     assimilate d m !! k
     = match m !! k with Some v => Some v | None => d !! k end) ∧
  (∀ self : Database, assimilate ∅ self = self) ∧
  (∀ (lookupLvl d : Database) (k : string),
     resolve lookupLvl d k
     = match lookupLvl !! k with
       | Some v => v
       | None => default VNone (d !! k)
       end) ∧
  (∀ nested (self : Database) ks ms,
     enters self ks = Some ms →
     ∃ lookupLvl d item,
       run_loop nested ks
         (Running (assimilate ∅ self) (assimilate ∅ self) VNone)
         = Ret (Running lookupLvl d item)
       ∧ ∀ k, d !! k = nearest k (rev ms ++ [self])) ∧
  (∀ n ARMPLATDB self key plat noneAllowed ks k ms v,
     segments plat key = Ret (ks ++ [k]) →
     enters self ks = Some ms →
     nearest k (rev ms ++ [self]) = Some v →
     inert v = true →
     lookup (S n) ARMPLATDB self key plat noneAllowed = Ret v) ∧
  (∀ n, (1 ≤ n)%nat →
     dblu n Docs.family "root.john.surname" None false = Ret (VStr "Smith") ∧
     dblu n Docs.family "root.jane.surname" None false = Ret (VStr "Smith") ∧
     dblu n Docs.family "root.alexa.surname" None false
       = Ret (VStr "Smith-Doe")).
Proof.
  split; [exact lookup_assimilate|].
  split; [exact assimilate_empty|].
  split; [intros; unfold resolve; by destruct (d !! k)|].
  split.
  { intros nested self ks ms Hent.
    rewrite assimilate_empty.
    destruct (run_loop_enters nested ks self self VNone [self] ms Hent)
      as (lookupLvl & d & item & Hrun & Hd & _).
    - intros k. cbn [nearest]. by destruct (self !! k).
    - done.
    - by exists lookupLvl, d, item. }
  split; [exact lookup_nearest|].
  intros n Hn. unfold dblu.
  repeat split; apply (lookup_at_least 1); done || by vm_compute.
Qed.

Lemma C1_inheritance_witness :
  lookup 1 Docs.family Docs.family "root.alexa.surname" None false
    = Ret (VStr "Smith-Doe") ∧
  lookup 1 Docs.family Docs.family "root.john.surname" None false
    = Ret (VStr "Smith").
Proof.
  split.
  - eapply (proj1 (proj2 (proj2 (proj2 (proj2 C1_inheritance)))) 0%nat
              Docs.family Docs.family "root.alexa.surname" None false
              ["root"; "alexa"]%string "surname").
    + reflexivity.
    + vm_compute. reflexivity.
    + vm_compute. reflexivity.
    + reflexivity.
  - eapply (proj1 (proj2 (proj2 (proj2 (proj2 C1_inheritance)))) 0%nat
              Docs.family Docs.family "root.john.surname" None false
              ["root"; "john"]%string "surname").
    + reflexivity.
    + vm_compute. reflexivity.
    + vm_compute. reflexivity.
    + reflexivity.
Defined.

(** C2 (amended). Structural reference. When the last segment of the key
    path resolves to a string of the exact form "#{X}", [X] is resolved by a
    nested lookup against the aggregate [d] of that point of the walk, taken
    as a database of its own, with the same context and [noneAllowed] false,
    and the walk ends with the result as its item: a result that is not a
    string (a dict, a list, a set, a number, a boolean) is returned as it is,
    and a string result goes through the post-processing of any walked-to
    string before it is returned. For the "alias" document, "b.k" resolves to
    the list of "a.k". *)
Theorem C2_structural_reference n ARMPLATDB self key plat noneAllowed ks k
    lookupLvl d item0 X :
  segments plat key = Ret (ks ++ [k]) →
  run_loop (nested_lookup n ARMPLATDB plat) ks
    (Running (assimilate ∅ self) (assimilate ∅ self) VNone)
    = Ret (Running lookupLvl d item0) →
  resolve lookupLvl d k = VStr (String "#" (String "{" (X +:+ "}"))) →
  PyStr.contains "{" X = false →
  PyStr.contains "}" X = false →
  lookup (S n) ARMPLATDB self key plat noneAllowed
    = (v ← lookup n ARMPLATDB d X plat false;
       item ← postprocess plat (nested_lookup n ARMPLATDB plat)
                (root_lookup n ARMPLATDB plat) n key d v;
       finish noneAllowed item) ∧
  (∀ v, lookup n ARMPLATDB d X plat false = Ret v →
        (∀ s, v ≠ VStr s) →
        lookup (S n) ARMPLATDB self key plat noneAllowed = Ret v) ∧
  (∀ m, (2 ≤ m)%nat →
     dblu m Docs.alias "b.k" None false = Ret (VList [VStr "x"; VStr "y"])).
Proof.
  intros Hseg Hrun Hk Ho Hc.
  destruct (is_xref_exact X Ho Hc) as [Hx HX].
  assert (Heq : lookup (S n) ARMPLATDB self key plat noneAllowed
    = (v ← lookup n ARMPLATDB d X plat false;
       item ← postprocess plat (nested_lookup n ARMPLATDB plat)
                (root_lookup n ARMPLATDB plat) n key d v;
       finish noneAllowed item)).
  { rewrite lookup_walked. unfold walked.
    rewrite Hseg, bind_ret, walk_run_loop, run_loop_app, Hrun, bind_ret.
    cbn [run_loop loop_step]. rewrite Hk. cbn [is_none cross_reference].
    rewrite Hx, HX.
    change (nested_lookup n ARMPLATDB plat d X)
      with (lookup n ARMPLATDB d X plat false).
    destruct (lookup n ARMPLATDB d X plat false) as [v| | |]; try done.
    by destruct v. }
  split; [exact Heq|]. split.
  - intros v Hv Hns. rewrite Heq, Hv, bind_ret.
    rewrite postprocess_other, bind_ret by done.
    apply finish_some. intros ->.
    by apply (lookup_not_none n ARMPLATDB d X plat).
  - intros m Hm. unfold dblu.
    apply (lookup_at_least 2); [by vm_compute | done].
Qed.

Lemma C2_structural_reference_witness :
  lookup 2 Docs.alias Docs.alias "b.k" None false
  = Ret (VList [VStr "x"; VStr "y"]).
Proof.
  pose (node := ({[ "k"%string := VStr "#{a.k}" ]} : Database)).
  refine (proj1 (proj2 (C2_structural_reference 1 Docs.alias Docs.alias
            "b.k" None false ["b"]%string "k" node
            (assimilate (assimilate ∅ Docs.alias) node) (VDict node)
            "a.k" _ _ _ _ _)) _ _ _).
  - reflexivity.
  - vm_compute. reflexivity.
  - vm_compute. reflexivity.
  - reflexivity.
  - reflexivity.
  - vm_compute. reflexivity.
  - discriminate.
Defined.

(** C2 as stated fails: "b" is the structural reference "#{a}", the nested
    lookup of "a" returns the string made of the characters n, u, l, l, and
    the call for "b" does not return that string: it decodes it, returning
    None when [noneAllowed] is true and aborting with NotFound otherwise. *)
Lemma C2_counterexample :
  Docs.pieces !! "b"%string = Some (VStr "#{a}") ∧
  lookup 3 Docs.pieces (assimilate ∅ Docs.pieces) "a" None false
    = Ret (VStr "null") ∧
  lookup 4 Docs.pieces Docs.pieces "b" None true = Ret VNone ∧
  lookup 4 Docs.pieces Docs.pieces "b" None false = Abort NotFound.
Proof. vm_compute. repeat split; done. Qed.

(** C3 (amended). Template substitution. Let the walked-to item be a string
    that is neither "{key}" nor a reserved literal, and let [s'] be that
    string with "@" replaced by the context, its braces balanced. The call
    returns the string that the [while] loop computes from [s']. A string
    without "{" ends the loop. Otherwise a pass takes the leftmost token
    "{X}", resolves [X] by a nested lookup against the aggregate [d] and, the
    value being a string [sub], replaces the token by [sub], starting with its
    leftmost occurrence and going on through the rest of the string; the loop
    then continues with the new string. A string that the loop returns has no
    "{" left. When [s'] is made of brace-free texts and of tokens whose keys
    all resolve to brace-free strings, a budget above the number of tokens
    suffices, and the call returns [s'] with every token replaced by the value
    of its key. For the "arm" document, the title "Software {release}"
    resolves to "Software 18.10". *)
Theorem C3_template_substitution n ARMPLATDB self key plat noneAllowed s' d :
  loop_entry n ARMPLATDB self key plat = Some (s', d) →
  (∃ s, walked n ARMPLATDB self key plat = Ret (VStr s, d)
        ∧ subPlat plat s = Ret s') ∧
  lookup (S n) ARMPLATDB self key plat noneAllowed
    = (r ← substitution n ARMPLATDB plat n d s'; Ret (VStr r)) ∧
  (∀ fuel item,
     PyStr.contains "{" item = false →
     substitution n ARMPLATDB plat fuel d item = Ret item) ∧
  (∀ fuel pre X post sub,
     PyStr.contains "{" pre = false →
     PyStr.contains "}" pre = false →
     PyStr.contains "}" X = false →
     nested_lookup n ARMPLATDB plat d X = Ret (VStr sub) →
     substitution n ARMPLATDB plat (S fuel) d
       (pre +:+ String "{" (X +:+ String "}" post))
     = substitution n ARMPLATDB plat fuel d
         (pre +:+ sub +:+ PyStr.replace post (String "{" (X +:+ "}")) sub)) ∧
  (∀ fuel r,
     substitution n ARMPLATDB plat fuel d s' = Ret r →
     PyStr.contains "{" r = false) ∧
  (∀ ps f m,
     s' = render ps →
     forallb piece_ok ps = true →
     (∀ X, In (Tok X) ps →
           nested_lookup n ARMPLATDB plat d X = Ret (VStr (f X))
           ∧ brace_free (f X) = true) →
     (tokens ps ≤ n)%nat →
     (S n ≤ m)%nat →
     lookup m ARMPLATDB self key plat noneAllowed
     = Ret (VStr (expand f ps))) ∧
  (∀ m, (2 ≤ m)%nat →
     dblu m Docs.software "arm.title" None false
     = Ret (VStr "Software 18.10")).
Proof.
  intros He. repeat apply conj.
  - destruct (loop_entry_walked _ _ _ _ _ _ _ He) as (s & Hw & Hs & _).
    by exists s.
  - by apply lookup_loop_entry.
  - intros fuel item Hc. by apply substitute_done.
  - intros fuel pre X post sub Hpo Hpc HX Hn. unfold substitution.
    rewrite <- (token_replace pre X post Hpo Hpc HX sub).
    apply substitute_pass.
    + by apply token_contains.
    + by rewrite token_inner_key.
    + apply token_progress; try done.
      exact (lookup_no_brace _ _ _ _ _ _ _ Hn).
  - intros fuel r Hr. exact (substitute_no_brace _ _ _ _ _ _ Hr).
  - intros ps f m -> Hok Hval Hn Hm.
    apply (lookup_at_least (S n)); [|done].
    rewrite (lookup_loop_entry _ _ _ _ _ _ _ _ He). unfold substitution.
    by rewrite (substitute_template _ _ d f n ps Hok Hval Hn).
  - intros m Hm. unfold dblu.
    apply (lookup_at_least 2); [by vm_compute | done].
Qed.

Lemma C3_template_substitution_witness :
  lookup 2 Docs.software Docs.software "arm.title" None false
  = (r ← substitution 1 Docs.software None 1
           (assimilate (assimilate ∅ Docs.software) Docs.software_arm)
           "Software {release}";
     Ret (VStr r)) ∧
  lookup 2 Docs.software Docs.software "arm.title" None false
  = Ret (VStr "Software 18.10").
Proof.
  assert (He : loop_entry 1 Docs.software Docs.software "arm.title" None
               = Some ("Software {release}"%string,
                       assimilate (assimilate ∅ Docs.software)
                         Docs.software_arm))
    by (vm_compute; reflexivity).
  split.
  - exact (proj1 (proj2 (C3_template_substitution 1 Docs.software
             Docs.software "arm.title" None false _ _ He))).
  - refine (proj1 (proj2 (proj2 (proj2 (proj2 (proj2
              (C3_template_substitution 1 Docs.software Docs.software
                 "arm.title" None false _ _ He))))))
              [Text "Software "; Tok "release"] (λ _, "18.10"%string)
              2%nat _ _ _ _ _).
    + reflexivity.
    + reflexivity.
    + intros X HX.
      assert (X = "release"%string) as ->
        by (destruct HX as [HX|[HX|[]]]; congruence).
      vm_compute. split; reflexivity.
    + cbn. lia.
    + lia.
Defined.

(** C3 as stated fails: the token of "is {enabled}" resolves to the boolean
    True, and the call does not replace the token by a string form of that
    value: the replacement raises a TypeError. *)
Lemma C3_counterexample :
  loop_entry 1 Docs.literals Docs.literals "flag" None
    = Some ("is {enabled}"%string, Docs.literals) ∧
  nested_lookup 1 Docs.literals None Docs.literals "enabled"
    = Ret (VBool true) ∧
  lookup 2 Docs.literals Docs.literals "flag" None false = TypeError.
Proof. vm_compute. repeat split; done. Qed.

(** C4. The second attempt. When a pass of the [while] loop resolves its
    token against the aggregate and the replacement leaves the string
    unchanged, the same token is resolved once more, this time by [dblu]
    against the root database, and the pass ends as that one lookup and
    its replacement decide: the call aborts with NonTerminatingReference
    when the string is unchanged again, a failure of the root lookup is
    the failure of the call, and otherwise the loop goes on with the new
    string. In a call this happens only on an empty token (the first "}"
    is missing or stands before the first "{") that the aggregate resolves
    to the empty string, and the second attempt then leaves the string
    unchanged exactly when the root resolves the token to the empty string
    too. *)
Theorem C4_second_attempt n ARMPLATDB self key plat noneAllowed s' d j item
    sub :
  loop_entry n ARMPLATDB self key plat = Some (s', d) →
  after_passes (nested_lookup n ARMPLATDB plat) j d s' = Some item →
  (j < n)%nat →
  PyStr.contains "{" item = true →
  nested_lookup n ARMPLATDB plat d (inner_key item) = Ret (VStr sub) →
  PyStr.replace item (token item) sub = item →
  let second_attempt : outcome string :=
    sub2 ← root_lookup n ARMPLATDB plat (inner_key item);
    match sub2 with
    | VStr sub2 =>
        if String.eqb (PyStr.replace item (token item) sub2) item
        then Abort NonTerminatingReference
        else Ret (PyStr.replace item (token item) sub2)
    | _ => TypeError
    end in
  pass (nested_lookup n ARMPLATDB plat) (root_lookup n ARMPLATDB plat) d item
    = second_attempt ∧
  lookup (S n) ARMPLATDB self key plat noneAllowed
    = (item' ← second_attempt;
       r ← substitution n ARMPLATDB plat (n - S j) d item';
       Ret (VStr r)) ∧
  token item = ""%string ∧ sub = ""%string ∧
  ∀ sub2, PyStr.replace item (token item) sub2 = item ↔ sub2 = ""%string.
Proof.
  intros He Hj Hlt Hc Hn Hsame second_attempt.
  assert (Hpass : pass (nested_lookup n ARMPLATDB plat)
                    (root_lookup n ARMPLATDB plat) d item = second_attempt).
  { unfold pass. by rewrite Hn, bind_ret, Hsame, String.eqb_refl. }
  split; [exact Hpass|]. split.
  - rewrite (lookup_loop_entry _ _ _ _ _ _ _ _ He). unfold substitution.
    replace n with (j + S (n - S j))%nat at 3 by lia.
    rewrite (substitute_after_passes _ _ _ _ _ _ _ Hj).
    rewrite (substitute_by_pass _ _ _ _ _ Hc), Hpass.
    by destruct second_attempt.
  - destruct (unchanged_token_empty item sub Hc) as [Ht Hs]; [|done|].
    { by eapply lookup_no_brace. }
    split; [done|]. split; [done|]. intros sub2. rewrite Ht.
    apply replace_empty_fixed.
Qed.

(* in [Docs.stalled] both attempts find the empty string; in
   [Docs.recovered] the aggregate of node "a" maps "" to the empty string
   and the root maps it to "y", so that the second attempt changes the
   string *)
Lemma C4_second_attempt_witness :
  lookup 2 Docs.stalled Docs.stalled "k" None false
    = Abort NonTerminatingReference ∧
  pass (nested_lookup 1 Docs.recovered None) (root_lookup 1 Docs.recovered None)
    (assimilate (assimilate ∅ Docs.recovered)
       (<[""%string := VStr ""]> {[ "k"%string := VStr "}{" ]}))
    "}{"
    = Ret "y}y{y"%string ∧
  token "}{" = ""%string.
Proof.
  split; [|split].
  - eapply proj1, proj2.
    eapply (C4_second_attempt 1 Docs.stalled Docs.stalled "k" None false
              _ _ 0%nat "}{" "").
    + vm_compute. reflexivity.
    + reflexivity.
    + lia.
    + reflexivity.
    + vm_compute. reflexivity.
    + reflexivity.
  - eapply proj1.
    eapply (C4_second_attempt 1 Docs.recovered Docs.recovered "a.k" None
              false _ _ 0%nat "}{" "").
    + vm_compute. reflexivity.
    + reflexivity.
    + lia.
    + reflexivity.
    + vm_compute. reflexivity.
    + reflexivity.
  - eapply proj1, proj2, proj2.
    eapply (C4_second_attempt 1 Docs.stalled Docs.stalled "k" None false
              _ _ 0%nat "}{" "").
    + vm_compute. reflexivity.
    + reflexivity.
    + lia.
    + reflexivity.
    + vm_compute. reflexivity.
    + reflexivity.
Defined.

(** C5 (amended). Self-reference: when the item found by walking the key
    path is, as it is stored, the string "{key}" for the key as it was
    asked (no "@" replaced in either), the call aborts with SelfReference,
    whatever the flag; the abort is decided before any template is
    substituted, since it does not depend on what nested lookups would
    return or on the budget. *)
Theorem C5_self_reference n ARMPLATDB self key plat noneAllowed d :
  walked n ARMPLATDB self key plat = Ret (VStr (String "{" (key +:+ "}")), d) →
  lookup (S n) ARMPLATDB self key plat noneAllowed = Abort SelfReference ∧
  ∀ nested dblu_nested fuel,
    postprocess plat nested dblu_nested fuel key d
      (VStr (String "{" (key +:+ "}"))) = Abort SelfReference.
Proof.
  intros Hw.
  assert (Hp : ∀ nested dblu_nested fuel,
    postprocess plat nested dblu_nested fuel key d
      (VStr (String "{" (key +:+ "}"))) = Abort SelfReference).
  { intros. unfold postprocess. by rewrite String.eqb_refl. }
  split; [|exact Hp].
  by rewrite lookup_walked, Hw, bind_ret, Hp.
Qed.

Lemma C5_self_reference_witness :
  lookup 1 Docs.selfref Docs.selfref "a.b" None false = Abort SelfReference ∧
  lookup 1 Docs.selfref_at Docs.selfref_at "@.x" (Some "p"%string) true
    = Abort SelfReference.
Proof.
  split.
  - eapply proj1.
    eapply (C5_self_reference 0 Docs.selfref Docs.selfref "a.b" None false).
    vm_compute. reflexivity.
  - eapply proj1.
    eapply (C5_self_reference 0 Docs.selfref_at Docs.selfref_at "@.x"
              (Some "p"%string) true).
    vm_compute. reflexivity.
Defined.

(** C5 as stated fails: in [Docs6.shadowed] the item of "a.k" is "{a.k}"
    once "@" is replaced in it, which is "{key}", and the call returns "v";
    in [Docs6.at_self] the item of "u" becomes "{u}" in the same way, and
    the call calls itself on "u" again and again, beyond every budget.
    Neither aborts with SelfReference. *)
Lemma C5_counterexample :
  (∃ d, walked 1 Docs6.shadowed Docs6.shadowed "a.k" (Some "a"%string)
        = Ret (VStr "{@.k}", d)) ∧
  subPlat (Some "a"%string) "a.k" = Ret "a.k"%string ∧
  subPlat (Some "a"%string) "{@.k}" = Ret (String "{" ("a.k" +:+ "}")) ∧
  lookup 2 Docs6.shadowed Docs6.shadowed "a.k" (Some "a"%string) false
    = Ret (VStr "v") ∧
  (∃ d, walked 1 Docs6.at_self Docs6.at_self "u" (Some "u"%string)
        = Ret (VStr "{@}", d)) ∧
  subPlat (Some "u"%string) "{@}" = Ret (String "{" ("u" +:+ "}")) ∧
  ∀ n noneAllowed,
    lookup n Docs6.at_self Docs6.at_self "u" (Some "u"%string) noneAllowed
    ≠ Abort SelfReference.
Proof.
  split; [eexists; vm_compute; reflexivity|].
  split; [reflexivity|]. split; [reflexivity|].
  split; [vm_compute; reflexivity|].
  split; [eexists; vm_compute; reflexivity|].
  split; [reflexivity|].
  intros n noneAllowed. by rewrite at_self_recursion.
Qed.

(** C6 (amended). Malformed reference: the brace counts are compared once,
    on the string obtained from the walked-to item by replacing "@" and
    before any template is substituted; when the number of "{" differs from
    the number of "}" there, the call aborts with MalformedReference, whatever
    [noneAllowed] is. *)
Theorem C6_malformed_reference n ARMPLATDB self key plat noneAllowed d s s' :
  walked n ARMPLATDB self key plat = Ret (VStr s, d) →
  s ≠ String "{" (key +:+ "}") →
  s ≠ "null"%string →
  s ≠ "true"%string →
  subPlat plat s = Ret s' →
  PyStr.count "{" s' ≠ PyStr.count "}" s' →
  lookup (S n) ARMPLATDB self key plat noneAllowed = Abort MalformedReference.
Proof.
  intros Hw H1 H2 H3 Hs Hc.
  rewrite lookup_walked, Hw, bind_ret, postprocess_plain, Hs, bind_ret.
  - by rewrite (proj2 (Nat.eqb_neq _ _) Hc).
  - apply String.eqb_neq. congruence.
  - apply String.eqb_neq. congruence.
  - apply String.eqb_neq. congruence.
Qed.

Lemma C6_malformed_reference_witness :
  lookup 1 Docs.unbalanced Docs.unbalanced "url" None true
  = Abort MalformedReference.
Proof.
  eapply (C6_malformed_reference 0 Docs.unbalanced Docs.unbalanced "url" None
            true _ "http://{host/path" "http://{host/path").
  - vm_compute. reflexivity.
  - discriminate.
  - discriminate.
  - discriminate.
  - reflexivity.
  - vm_compute. lia.
Defined.

(** C6 as stated fails. The final string "x}" of the first call has one "}"
    and no "{", and the stored string "{@" of the second has one "{" and no
    "}": the counts differ after substitution in the one and before it in
    the other, and neither call aborts with MalformedReference. *)
Lemma C6_counterexample :
  (lookup 2 Docs.odd_key Docs.odd_key "k" None false = Ret (VStr "x}") ∧
   PyStr.count "{" "x}" ≠ PyStr.count "}" "x}") ∧
  (walked 1 Docs.late_brace Docs.late_brace "k" (Some "a}"%string)
     = Ret (VStr "{@", Docs.late_brace) ∧
   PyStr.count "{" "{@" ≠ PyStr.count "}" "{@" ∧
   lookup 2 Docs.late_brace Docs.late_brace "k" (Some "a}"%string) false
     = Ret (VStr "v")).
Proof. vm_compute. repeat split; done. Qed.

(** C7 (amended). Reserved literals: when the walked-to item is exactly the
    string "null" the value is None, which a call with [noneAllowed] true
    returns and a call with [noneAllowed] false turns into the NotFound abort;
    when it is exactly "true" the call returns boolean True whatever the
    flag. A walked-to string is decoded to None or to a boolean only when it
    is, as a whole, "null" or "true". *)
Theorem C7_reserved_literals n ARMPLATDB self key plat d s :
  walked n ARMPLATDB self key plat = Ret (VStr s, d) →
  (s = "null"%string →
     lookup (S n) ARMPLATDB self key plat true = Ret VNone ∧
     lookup (S n) ARMPLATDB self key plat false = Abort NotFound) ∧
  (s = "true"%string →
     ∀ noneAllowed,
       lookup (S n) ARMPLATDB self key plat noneAllowed = Ret (VBool true)) ∧
  (∀ noneAllowed,
     lookup (S n) ARMPLATDB self key plat noneAllowed = Ret VNone →
     s = "null"%string) ∧
  (∀ noneAllowed b,
     lookup (S n) ARMPLATDB self key plat noneAllowed = Ret (VBool b) →
     s = "true"%string ∧ b = true).
Proof.
  intros Hw.
  assert (Hstr : ∀ noneAllowed v,
    lookup (S n) ARMPLATDB self key plat noneAllowed = Ret v →
    (v = VNone ∧ s = "null"%string) ∨ (v = VBool true ∧ s = "true"%string)
    ∨ (∃ r, v = VStr r)).
  { intros noneAllowed v H. rewrite lookup_walked, Hw, bind_ret in H.
    destruct (postprocess _ _ _ _ _ _ _) as [v'| | |] eqn:Hp; try done.
    rewrite bind_ret in H. apply finish_ret in H as ->.
    by apply postprocess_string in Hp. }
  split; [|split; [|split]].
  - intros ->. by rewrite !lookup_walked, Hw.
  - intros -> noneAllowed. rewrite lookup_walked, Hw. by destruct noneAllowed.
  - intros noneAllowed H.
    apply Hstr in H as [[_ ?]|[[? _]|[r ?]]]; done.
  - intros noneAllowed b H.
    apply Hstr in H as [[? _]|[[? ?]|[r ?]]]; [done| |done].
    split; congruence.
Qed.

Lemma C7_reserved_literals_witness :
  lookup 1 Docs.literals Docs.literals "pihooks" None true = Ret VNone ∧
  lookup 1 Docs.literals Docs.literals "pihooks" None false = Abort NotFound.
Proof.
  eapply (C7_reserved_literals 0 Docs.literals Docs.literals "pihooks" None).
  - vm_compute. reflexivity.
  - reflexivity.
Defined.

(** C7 as stated fails: the stored value of "pihooks" is exactly "null", and
    the call with the default [noneAllowed=False] does not return None: it
    aborts with NotFound. *)
Lemma C7_counterexample :
  walked 0 Docs.literals Docs.literals "pihooks" None
    = Ret (VStr "null", Docs.literals) ∧
  lookup 1 Docs.literals Docs.literals "pihooks" None false = Abort NotFound ∧
  lookup 1 Docs.literals Docs.literals "pihooks" None false ≠ Ret VNone.
Proof. vm_compute. repeat split; done. Qed.

(** C8. Absence policy: when the walk of the key path finds no value at
    some segment [k] (neither the current nesting level nor the aggregate
    defines it), the call aborts with NotFound if [noneAllowed] is false, and
    returns None without error if [noneAllowed] is true. *)
Theorem C8_absence_policy n ARMPLATDB self key plat ks1 k ks2 lookupLvl d item :
  segments plat key = Ret (ks1 ++ k :: ks2) →
  run_loop (nested_lookup n ARMPLATDB plat) ks1
    (Running (assimilate ∅ self) (assimilate ∅ self) VNone)
    = Ret (Running lookupLvl d item) →
  resolve lookupLvl d k = VNone →
  lookup (S n) ARMPLATDB self key plat false = Abort NotFound ∧
  lookup (S n) ARMPLATDB self key plat true = Ret VNone.
Proof.
  intros Hseg Hrun Hk.
  rewrite !lookup_walked. unfold walked. rewrite Hseg, bind_ret.
  by rewrite (walk_break _ _ _ _ _ _ _ _ _ _ Hrun Hk).
Qed.

Lemma C8_absence_policy_witness :
  lookup 1 Docs.family Docs.family "root.john.age" None false = Abort NotFound ∧
  lookup 1 Docs.family Docs.family "root.john.age" None true = Ret VNone.
Proof.
  eapply (C8_absence_policy 0 Docs.family Docs.family "root.john.age" None
            ["root"; "john"]%string "age" []).
  - reflexivity.
  - vm_compute. reflexivity.
  - vm_compute. reflexivity.
Defined.

(** C9. Determinism. With the dicts as objects of a store, a call of
    [lookup] that returns leaves every object that was there as it was:
    what it writes, it writes to objects it has made itself. Hence no call
    changes what another finds: in any two stores that hold the objects
    of the database and of the receiver as they are, before or after any
    number of calls, two calls on the same arguments end alike, and where
    one returns the other returns an equal value: the two stand for the
    same value, also when they are dicts and so different objects. The
    budget of the model does not count: a call is only asked not to run out
    of it. *)
Theorem C9_determinism fuel1 fuel2 ARMPLATDB self DB doc key plat
    noneAllowed σ σ1 σ2 hv1 σ1' :
  Store.object σ ARMPLATDB DB →
  Store.object σ self doc →
  σ ⊆ σ1 →
  σ ⊆ σ2 →
  Store.lookup fuel1 ARMPLATDB self key plat noneAllowed σ1 = Ret (hv1, σ1') →
  Store.lookup fuel2 ARMPLATDB self key plat noneAllowed σ2 ≠ OutOfFuel →
  σ1 ⊆ σ1' ∧
  ∃ hv2 σ2' v,
    Store.lookup fuel2 ARMPLATDB self key plat noneAllowed σ2
      = Ret (hv2, σ2') ∧
    σ2 ⊆ σ2' ∧ Store.repr σ1' hv1 v ∧ Store.repr σ2' hv2 v.
Proof.
  intros HA Hs Hsub1 Hsub2 Hrun1 Hrun2.
  destruct (StoreFacts.lookup_returns _ _ _ _ _ _ _ _ _ _ _ _ HA Hs Hsub1 Hrun1)
    as (Hframe & v & Hv & Hrepr).
  split; [done|].
  pose proof (StoreFacts.lookup_refines fuel2 ARMPLATDB DB plat σ σ2 self doc
                key noneAllowed Hsub2 HA Hs) as H.
  assert (Hv2 : lookup fuel2 DB doc key plat noneAllowed = Ret v).
  { rewrite <- Hv. symmetry.
    apply (lookup_any_budget fuel1 fuel2 DB doc key plat noneAllowed);
      [by rewrite Hv|].
    intros E. rewrite E in H. by cbn [Store.returns_as] in H. }
  rewrite Hv2 in H. cbn [Store.returns_as] in H.
  destruct H as (hv2 & σ2' & τ' & H & Hσ2 & _ & Hτ & Hv').
  exists hv2, σ2', v. split; [done|]. split; [done|]. split; [done|].
  exact (StoreFacts.repr_mono _ _ Hτ _ _ Hv').
Qed.

Lemma C9_determinism_witness :
  Docs7.arm ⊆ Docs7.arm_after ∧
  ∃ hv2 σ2' v,
    Store.lookup 3 1%positive 1%positive "arm" None false Docs7.arm_after
      = Ret (hv2, σ2') ∧
    Docs7.arm_after ⊆ σ2' ∧
    Store.repr Docs7.arm_after (Store.HRef 5%positive) v ∧
    Store.repr σ2' hv2 v.
Proof.
  apply (C9_determinism 2 3 1%positive 1%positive Docs.arm Docs.arm "arm"
           None false Docs7.arm Docs7.arm Docs7.arm_after
           (Store.HRef 5%positive) Docs7.arm_after).
  - exact arm_object.
  - exact arm_object.
  - reflexivity.
  - exact (proj1 (StoreFacts.lookup_returns _ _ _ _ _ _ _ _ _ _ _ _
                    arm_object arm_object (reflexivity _) arm_run)).
  - exact arm_run.
  - intros H.
    apply (f_equal (λ r, match r with OutOfFuel => true | _ => false end)) in H.
    vm_compute in H. discriminate H.
Defined.

(** C10. Nested lookups are strict. At budget [S n] the body of [lookup]
    makes its nested calls, against the aggregate and against the root
    database alike, with [noneAllowed] false, whatever flag the outer call was
    given. Consequently a call with [noneAllowed] true aborts with NotFound,
    instead of returning None, as soon as the token that a pass of the
    [while] loop resolves, or a "#{...}" reference met at a segment of the
    walk, names a key that a tolerant lookup would resolve to None (the key
    is missing, or its value is "null"). *)
Theorem C10_nested_lookups_strict n ARMPLATDB self key plat :
  (∀ noneAllowed,
     lookup (S n) ARMPLATDB self key plat noneAllowed
     = lookup_body plat
         (λ d k, lookup n ARMPLATDB d k plat false)
         (λ k, lookup n ARMPLATDB ARMPLATDB k plat false)
         n self key noneAllowed) ∧
  (∀ s' d j item,
     loop_entry n ARMPLATDB self key plat = Some (s', d) →
     after_passes (nested_lookup n ARMPLATDB plat) j d s' = Some item →
     (j < n)%nat →
     PyStr.contains "{" item = true →
     lookup n ARMPLATDB d (inner_key item) plat true = Ret VNone →
     lookup (S n) ARMPLATDB self key plat true = Abort NotFound) ∧
  (∀ ks1 k ks2 lookupLvl d item s,
     segments plat key = Ret (ks1 ++ k :: ks2) →
     run_loop (nested_lookup n ARMPLATDB plat) ks1
       (Running (assimilate ∅ self) (assimilate ∅ self) VNone)
       = Ret (Running lookupLvl d item) →
     resolve lookupLvl d k = VStr s →
     is_xref s = true →
     lookup n ARMPLATDB d (inner_key s) plat true = Ret VNone →
     lookup (S n) ARMPLATDB self key plat true = Abort NotFound).
Proof.
  split; [done|]. split.
  - intros s' d j item He Hj Hlt Hc Hnone.
    rewrite (lookup_loop_entry _ _ _ _ _ _ _ _ He). unfold substitution.
    replace n with (j + S (n - S j))%nat at 3 by lia.
    rewrite (substitute_after_passes _ _ _ _ _ _ _ Hj).
    cbn [substitute]. rewrite Hc. cbn [negb].
    change (nested_lookup n ARMPLATDB plat d (inner_key item))
      with (lookup n ARMPLATDB d (inner_key item) plat false).
    by rewrite (lookup_none_fatal _ _ _ _ _ Hnone).
  - intros ks1 k ks2 lookupLvl d item s Hseg Hrun Hk Hx Hnone.
    rewrite lookup_walked. unfold walked.
    rewrite Hseg, bind_ret, walk_run_loop, run_loop_app, Hrun, bind_ret.
    cbn [run_loop loop_step]. rewrite Hk. cbn [is_none cross_reference].
    rewrite Hx.
    change (nested_lookup n ARMPLATDB plat d (inner_key s))
      with (lookup n ARMPLATDB d (inner_key s) plat false).
    by rewrite (lookup_none_fatal _ _ _ _ _ Hnone).
Qed.

Lemma C10_nested_lookups_strict_witness :
  lookup 2 Docs.dangling Docs.dangling "md5" None true = Abort NotFound ∧
  lookup 2 Docs.dangling Docs.dangling "name" None true = Abort NotFound ∧
  lookup 2 Docs.dangling Docs.dangling "deps" None true = Abort NotFound.
Proof.
  split; [|split].
  - eapply (proj1 (proj2 (C10_nested_lookups_strict 1 Docs.dangling
              Docs.dangling "md5" None)) _ _ 0%nat).
    + vm_compute. reflexivity.
    + reflexivity.
    + lia.
    + reflexivity.
    + vm_compute. reflexivity.
  - eapply (proj1 (proj2 (C10_nested_lookups_strict 1 Docs.dangling
              Docs.dangling "name" None)) _ _ 0%nat).
    + vm_compute. reflexivity.
    + reflexivity.
    + lia.
    + reflexivity.
    + vm_compute. reflexivity.
  - eapply (proj2 (proj2 (C10_nested_lookups_strict 1 Docs.dangling
              Docs.dangling "deps" None)) [] "deps"%string []).
    + reflexivity.
    + reflexivity.
    + vm_compute. reflexivity.
    + reflexivity.
    + vm_compute. reflexivity.
Defined.

(** * Further properties of the resolver and of the code around it *)

(** ** [lookup]: the context, the flag, and what is never returned *)

(** X1. A key path that contains "@" cannot be resolved without a context:
    the call aborts with InvalidContext whatever the database, the flag and
    the budget; and so does a call whose walked-to string contains "@" (the
    string being neither "{key}" nor a reserved literal). *)
Theorem X1_invalid_context n ARMPLATDB self key noneAllowed :
  (PyStr.contains "@" key = true →
   lookup (S n) ARMPLATDB self key None noneAllowed = Abort InvalidContext) ∧
  (∀ s d,
     walked n ARMPLATDB self key None = Ret (VStr s, d) →
     s ≠ String "{" (key +:+ "}") →
     s ≠ "null"%string →
     s ≠ "true"%string →
     PyStr.contains "@" s = true →
     lookup (S n) ARMPLATDB self key None noneAllowed = Abort InvalidContext).
Proof.
  split.
  - intros Hk. rewrite lookup_walked. unfold walked, segments, subPlat.
    by rewrite Hk.
  - intros s d Hw H1 H2 H3 Hs.
    rewrite lookup_walked, Hw, bind_ret, postprocess_plain.
    + unfold subPlat. by rewrite Hs.
    + apply String.eqb_neq. congruence.
    + apply String.eqb_neq. congruence.
    + apply String.eqb_neq. congruence.
Qed.

Lemma X1_invalid_context_witness :
  lookup 1 Docs2.needs_plat Docs2.needs_plat "@.vsn" None true
    = Abort InvalidContext ∧
  lookup 1 Docs2.needs_plat Docs2.needs_plat "url" None true
    = Abort InvalidContext.
Proof.
  split.
  - apply (proj1 (X1_invalid_context 0 Docs2.needs_plat Docs2.needs_plat
                    "@.vsn" true)).
    reflexivity.
  - apply (proj2 (X1_invalid_context 0 Docs2.needs_plat Docs2.needs_plat
                    "url" true) "host/@"%string Docs2.needs_plat).
    + vm_compute. reflexivity.
    + discriminate.
    + discriminate.
    + discriminate.
    + reflexivity.
Defined.

(** X2. The flag [noneAllowed] matters only to a call whose value is None:
    whatever a tolerant call ends in, the strict call on the same arguments
    ends in the same, except that it aborts with NotFound where the tolerant
    one returns None. *)
Theorem X2_flag_only_for_none n ARMPLATDB self key plat :
  lookup n ARMPLATDB self key plat false
  = match lookup n ARMPLATDB self key plat true with
    | Ret VNone => Abort NotFound
    | o => o
    end.
Proof.
  destruct (lookup_finish n ARMPLATDB self key plat) as [o Ho].
  rewrite !Ho. destruct o as [v| | |]; try done. by destruct v.
Qed.

(** X3. What [lookup] never returns: a string that still contains "{",
    whatever the flag; and None, when [noneAllowed] is false. *)
Theorem X3_never_returned n ARMPLATDB self key plat :
  (∀ noneAllowed r,
     lookup n ARMPLATDB self key plat noneAllowed = Ret (VStr r) →
     PyStr.contains "{" r = false) ∧
  lookup n ARMPLATDB self key plat false ≠ Ret VNone.
Proof.
  split.
  - intros noneAllowed r. apply lookup_no_brace.
  - apply lookup_not_none.
Qed.

Lemma X3_never_returned_witness :
  PyStr.contains "{" "Software 18.10" = false.
Proof.
  apply (proj1 (X3_never_returned 2 Docs.software Docs.software "arm.title"
                  None) false).
  vm_compute. reflexivity.
Defined.

(** ** [lookup]: segments after a scalar, and after a structural reference *)

Lemma lookup_after_loop n ARMPLATDB self key plat noneAllowed ks lookupLvl d
    v :
  segments plat key = Ret ks →
  run_loop (nested_lookup n ARMPLATDB plat) ks
    (Running (assimilate ∅ self) (assimilate ∅ self) VNone)
    = Ret (Running lookupLvl d v) →
  inert v = true →
  lookup (S n) ARMPLATDB self key plat noneAllowed = Ret v.
Proof.
  intros Hseg Hrun Hv. rewrite lookup_walked. unfold walked.
  rewrite Hseg, bind_ret, walk_run_loop, Hrun, !bind_ret.
  cbn [loop_result]. rewrite inert_postprocess, bind_ret by done.
  apply finish_some. by destruct v.
Qed.

Lemma loop_step_inert nested lookupLvl d item k v :
  resolve lookupLvl d k = v →
  inert v = true →
  loop_step nested k (Running lookupLvl d item)
  = Ret (match v with
         | VDict m => Running m (assimilate d m) (VDict m)
         | _ => Running lookupLvl d v
         end).
Proof.
  intros Hk Hv. cbn [loop_step]. rewrite Hk.
  replace (is_none v) with false by (by destruct v).
  by rewrite inert_cross_reference, bind_ret.
Qed.

(** X4. A scalar in the middle of a key path does not end the walk: when a
    segment [k1] resolves to a value that is neither None nor a dict nor a
    reference, the next segment [k2] is looked up where [k1] was, in the same
    nesting level and aggregate, so that the call returns what [k2] resolves
    to there. *)
Theorem X4_segment_after_scalar n ARMPLATDB self key plat noneAllowed ks k1 k2
    lookupLvl d item v1 v2 :
  segments plat key = Ret (ks ++ [k1; k2]) →
  run_loop (nested_lookup n ARMPLATDB plat) ks
    (Running (assimilate ∅ self) (assimilate ∅ self) VNone)
    = Ret (Running lookupLvl d item) →
  resolve lookupLvl d k1 = v1 →
  inert v1 = true →
  (∀ m, v1 ≠ VDict m) →
  resolve lookupLvl d k2 = v2 →
  inert v2 = true →
  lookup (S n) ARMPLATDB self key plat noneAllowed = Ret v2.
Proof.
  intros Hseg Hrun H1 Hv1 Hnd H2 Hv2.
  assert (Hrun' : ∃ lookupLvl' d',
    run_loop (nested_lookup n ARMPLATDB plat) (ks ++ [k1; k2])
      (Running (assimilate ∅ self) (assimilate ∅ self) VNone)
    = Ret (Running lookupLvl' d' v2)).
  { rewrite run_loop_app, Hrun, bind_ret. cbn [run_loop].
    rewrite (loop_step_inert _ _ _ _ _ _ H1 Hv1), bind_ret.
    assert (Hst : (match v1 with
                   | VDict m => Running m (assimilate d m) (VDict m)
                   | _ => Running lookupLvl d v1
                   end) = Running lookupLvl d v1)
      by (destruct v1; try done; by destruct (Hnd m)).
    rewrite Hst, (loop_step_inert _ _ _ _ _ _ H2 Hv2), bind_ret.
    destruct v2; by eexists _, _. }
  destruct Hrun' as (lookupLvl' & d' & Hrun').
  by eapply lookup_after_loop.
Qed.

Lemma X4_segment_after_scalar_witness :
  lookup 1 Docs2.board Docs2.board "name.pdir" None false = Ret (VStr "juno").
Proof.
  apply (X4_segment_after_scalar 0 Docs2.board Docs2.board "name.pdir" None
           false [] "name" "pdir" Docs2.board Docs2.board VNone
           (VStr "Juno") (VStr "juno")).
  - reflexivity.
  - vm_compute. reflexivity.
  - vm_compute. reflexivity.
  - reflexivity.
  - discriminate.
  - vm_compute. reflexivity.
  - reflexivity.
Defined.

(** X5. A structural reference in the middle of a key path is followed: when
    a segment resolves to a string "#{X}" and the nested lookup of [X] against
    the aggregate returns a dict, the walk enters that dict, and the call
    returns what the next segment names in it. *)
Theorem X5_reference_to_node n ARMPLATDB self key plat noneAllowed ks k1 k2
    lookupLvl d item X m v :
  segments plat key = Ret (ks ++ [k1; k2]) →
  run_loop (nested_lookup n ARMPLATDB plat) ks
    (Running (assimilate ∅ self) (assimilate ∅ self) VNone)
    = Ret (Running lookupLvl d item) →
  resolve lookupLvl d k1 = VStr (String "#" (String "{" (X +:+ "}"))) →
  PyStr.contains "{" X = false →
  PyStr.contains "}" X = false →
  lookup n ARMPLATDB d X plat false = Ret (VDict m) →
  m !! k2 = Some v →
  inert v = true →
  lookup (S n) ARMPLATDB self key plat noneAllowed = Ret v.
Proof.
  intros Hseg Hrun Hk1 Ho Hc HX Hk2 Hv.
  destruct (is_xref_exact X Ho Hc) as [Hx Hin].
  assert (Hrun' : ∃ lookupLvl' d',
    run_loop (nested_lookup n ARMPLATDB plat) (ks ++ [k1; k2])
      (Running (assimilate ∅ self) (assimilate ∅ self) VNone)
    = Ret (Running lookupLvl' d' v)).
  { rewrite run_loop_app, Hrun, bind_ret. cbn [run_loop loop_step].
    rewrite Hk1. cbn [is_none cross_reference]. rewrite Hx, Hin.
    change (nested_lookup n ARMPLATDB plat d X)
      with (lookup n ARMPLATDB d X plat false).
    rewrite HX, !bind_ret.
    rewrite (loop_step_inert _ m (assimilate d m) (VDict m) k2 v), bind_ret;
      [|by unfold resolve; rewrite Hk2|done].
    destruct v; by eexists _, _. }
  destruct Hrun' as (lookupLvl' & d' & Hrun').
  by eapply lookup_after_loop.
Qed.

Lemma X5_reference_to_node_witness :
  lookup 2 Docs2.board Docs2.board "legacy.fs" None false = Ret (VStr "oe").
Proof.
  apply (X5_reference_to_node 1 Docs2.board Docs2.board "legacy.fs" None
           false [] "legacy" "fs" Docs2.board Docs2.board VNone "shared"
           (<["rel"%string := VStr "19.01"]> {[ "fs"%string := VStr "oe" ]})
           (VStr "oe")).
  - reflexivity.
  - vm_compute. reflexivity.
  - vm_compute. reflexivity.
  - reflexivity.
  - reflexivity.
  - vm_compute. reflexivity.
  - vm_compute. reflexivity.
  - reflexivity.
Defined.

(** ** [multilookup] and [dblum] *)

(** X6. [multilookup] returns a list exactly when the lookup of every key
    under the root prefix returns, and the list then holds, key by key and in
    the order of the keys, the values of these lookups. *)
Theorem X6_multilookup_pointwise fuel ARMPLATDB self root keys plat noneAllowed
    vs :
  multilookup fuel ARMPLATDB self root keys plat noneAllowed = Ret vs ↔
  Forall2
    (λ k v, lookup fuel ARMPLATDB self (root +:+ String "." k) plat noneAllowed
            = Ret v)
    keys vs.
Proof.
  revert vs. induction keys as [|k keys IH]; intros vs; cbn [multilookup].
  - split; [intros [= <-]; constructor | by intros ->%Forall2_nil_inv_l].
  - split.
    + destruct (lookup fuel ARMPLATDB self (root +:+ String "." k) plat
                  noneAllowed) as [v| | |] eqn:Hk; try done.
      rewrite bind_ret.
      destruct (multilookup fuel ARMPLATDB self root keys plat noneAllowed)
        as [vs'| | |] eqn:Hm; try done.
      rewrite bind_ret. intros [= <-]. constructor; [done | by apply IH].
    + intros (v & vs' & Hv & Hvs & ->)%Forall2_cons_inv_l.
      cbn beta in Hv. apply IH in Hvs. by rewrite Hv, bind_ret, Hvs.
Qed.

(** X7. [multilookup] stops at the first key whose lookup does not return:
    when the keys before [k] all resolve and the lookup of [k] ends in an
    abort, a TypeError or an exhausted budget, the whole call ends in the
    same, whatever keys follow. *)
Theorem X7_multilookup_first_failure fuel ARMPLATDB self root ks1 k ks2 plat
    noneAllowed :
  Forall
    (λ k', ∃ v, lookup fuel ARMPLATDB self (root +:+ String "." k') plat
                  noneAllowed = Ret v)
    ks1 →
  (∀ v, lookup fuel ARMPLATDB self (root +:+ String "." k) plat noneAllowed
        ≠ Ret v) →
  multilookup fuel ARMPLATDB self root (ks1 ++ k :: ks2) plat noneAllowed
  = (lookup fuel ARMPLATDB self (root +:+ String "." k) plat noneAllowed
     ≫= λ _, Ret []).
Proof.
  intros Hks1 Hk. induction Hks1 as [|k' ks1 [v Hv] _ IH].
  - cbn [app multilookup].
    destruct (lookup fuel ARMPLATDB self (root +:+ String "." k) plat
                noneAllowed) as [v| | |]; try done.
    by destruct (Hk v).
  - cbn [app multilookup]. rewrite Hv, bind_ret, IH.
    destruct (lookup fuel ARMPLATDB self (root +:+ String "." k) plat
                noneAllowed) as [v'| | |]; try done.
    by destruct (Hk v').
Qed.

Lemma X7_multilookup_first_failure_witness :
  dblum 2 Docs.software "arm" ["title"; "vsn"; "url"]%string None false
  = Abort NotFound.
Proof.
  unfold dblum.
  change ["title"; "vsn"; "url"]%string
    with (["title"%string] ++ "vsn"%string :: ["url"%string])%list.
  rewrite (X7_multilookup_first_failure 2 Docs.software Docs.software "arm"
             ["title"]%string "vsn" ["url"]%string None false).
  - vm_compute. reflexivity.
  - constructor; [|constructor]. eexists. vm_compute. reflexivity.
  - intros v. vm_compute. discriminate.
Defined.

(** ** Facts about the further string operations *)

Module PyStrMoreFacts.
Import PyStr PyStrMore.
Local Open Scope nat_scope.

Lemma prefix_nil s : String.prefix "" s = true.
Proof. by destruct s. Qed.

Lemma prefix_length old s :
  String.prefix old s = true → String.length old ≤ String.length s.
Proof.
  revert s. induction old as [|a old IH]; intros s; [cbn; lia|].
  destruct s as [|b s]; [done|]. cbn [String.prefix String.length].
  destruct (ascii_dec a b); [|done]. intros H%IH. lia.
Qed.

Lemma prefix_app_l old s t :
  String.prefix old s = true → String.prefix old (s +:+ t) = true.
Proof.
  revert s. induction old as [|a old IH]; intros s; [intros _; apply prefix_nil|].
  destruct s as [|b s]; [done|].
  rewrite PyStrFacts.append_cons. cbn [String.prefix].
  destruct (ascii_dec a b); [apply IH | done].
Qed.

Lemma contains_sub_app_l sub s t :
  contains_sub sub s = true → contains_sub sub (s +:+ t) = true.
Proof.
  induction s as [|a s IH].
  - cbn [contains_sub]. rewrite orb_false_r. intros H.
    destruct sub; [|done]. destruct t; by cbn.
  - rewrite PyStrFacts.append_cons. cbn [contains_sub].
    intros [H|H]%orb_true_iff.
    + rewrite <- PyStrFacts.append_cons, (prefix_app_l _ _ _ H). done.
    + rewrite (IH H). apply orb_true_r.
Qed.

Lemma contains_sub_app_r sub s t :
  contains_sub sub s = true → contains_sub sub (t +:+ s) = true.
Proof.
  intros H. induction t as [|a t IH]; [done|].
  rewrite PyStrFacts.append_cons. cbn [contains_sub]. rewrite IH.
  apply orb_true_r.
Qed.

Lemma lstrip_suffix f s : ∃ t, s = t +:+ lstrip f s.
Proof.
  induction s as [|a s [t IH]]; [by exists ""|]. cbn [lstrip].
  destruct (f a); [|by exists ""].
  exists (String a t). by rewrite PyStrFacts.append_cons, <- IH.
Qed.

Lemma rstrip_prefix f s : ∃ t, s = rstrip f s +:+ t.
Proof.
  induction s as [|a s [t IH]]; [by exists ""|]. cbn [rstrip].
  destruct (rstrip f s) as [|b r] eqn:Hr.
  - destruct (f a).
    + by exists (String a s).
    + exists t. rewrite PyStrFacts.append_cons. by rewrite <- IH.
  - exists t. rewrite PyStrFacts.append_cons. by rewrite <- IH.
Qed.

Lemma lstrip_contains c f s :
  contains c s = false → contains c (lstrip f s) = false.
Proof.
  destruct (lstrip_suffix f s) as [t Ht]. intros H. rewrite Ht in H.
  rewrite PyStrFacts.contains_app in H. by apply orb_false_elim in H as [_ ?].
Qed.

Lemma rstrip_contains c f s :
  contains c s = false → contains c (rstrip f s) = false.
Proof.
  destruct (rstrip_prefix f s) as [t Ht]. intros H. rewrite Ht in H.
  rewrite PyStrFacts.contains_app in H. by apply orb_false_elim in H as [? _].
Qed.

Lemma lstrip_contains_sub sub f s :
  contains_sub sub s = false → contains_sub sub (lstrip f s) = false.
Proof.
  destruct (lstrip_suffix f s) as [t Ht]. intros H.
  destruct (contains_sub sub (lstrip f s)) eqn:Hc; [|done].
  apply (contains_sub_app_r _ _ t) in Hc. congruence.
Qed.

Lemma rstrip_contains_sub sub f s :
  contains_sub sub s = false → contains_sub sub (rstrip f s) = false.
Proof.
  destruct (rstrip_prefix f s) as [t Ht]. intros H.
  destruct (contains_sub sub (rstrip f s)) eqn:Hc; [|done].
  apply (contains_sub_app_l _ _ t) in Hc. congruence.
Qed.

Lemma lstrip_head c f s :
  f c = true → startswith c (lstrip f s) = false.
Proof.
  intros Hc. induction s as [|a s IH]; [done|]. cbn [lstrip].
  destruct (f a) eqn:Ha; [exact IH|]. cbn [startswith].
  apply Ascii.eqb_neq. intros ->. congruence.
Qed.

Lemma rstrip_head c f s :
  startswith c s = false → startswith c (rstrip f s) = false.
Proof.
  destruct s as [|a s]; [done|]. cbn [startswith rstrip]. intros Ha.
  destruct (rstrip f s); [by destruct (f a) | done].
Qed.

Lemma endswith_char_cons c a s :
  endswith (String c "") (String a s)
  = match s with
    | EmptyString => Ascii.eqb c a
    | _ => endswith (String c "") s
    end.
Proof.
  cbn [endswith String.eqb]. destruct s as [|b s].
  - cbn. by destruct (Ascii.eqb c a).
  - cbn [String.eqb]. by destruct (Ascii.eqb c a).
Qed.

Lemma rstrip_last c s :
  endswith (String c "") (rstrip (is_char c) s) = false.
Proof.
  induction s as [|a s IH]; [done|]. cbn [rstrip].
  destruct (rstrip (is_char c) s) as [|b r] eqn:Hr.
  - unfold is_char. destruct (Ascii.eqb a c) eqn:Hac; [done|].
    rewrite endswith_char_cons. by rewrite Ascii.eqb_sym.
  - by rewrite endswith_char_cons.
Qed.

Lemma lstrip_id c s : startswith c s = false → lstrip (is_char c) s = s.
Proof. destruct s as [|a s]; [done|]. cbn. unfold is_char. by intros ->. Qed.

Lemma rstrip_id c s :
  endswith (String c "") s = false → rstrip (is_char c) s = s.
Proof.
  induction s as [|a s IH]; [done|]. rewrite endswith_char_cons.
  cbn [rstrip]. destruct s as [|b s].
  - cbn [rstrip]. unfold is_char. rewrite Ascii.eqb_sym. by intros ->.
  - intros H. rewrite (IH H). done.
Qed.

Lemma replace_absent c old' new s :
  contains c s = false → replace s (String c old') new = s.
Proof.
  intros H. unfold replace. induction s as [|a s IH]; [done|].
  simpl in H. apply orb_false_elim in H as [Hac H].
  cbn [replace_from]. rewrite (PyStrFacts.prefix_head_ne _ _ _ _ Hac).
  by rewrite IH.
Qed.

(* replacing the character [c] leaves no [c] behind *)
Lemma replace_char_gone c new s :
  contains c new = false →
  contains c (replace s (String c "") new) = false.
Proof.
  intros Hnew. unfold replace. induction s as [|a s IH]; [done|].
  cbn [replace_from String.prefix]. destruct (ascii_dec c a) as [->|Hne].
  - rewrite prefix_nil. cbn [String.length Nat.sub].
    by rewrite PyStrFacts.contains_app, Hnew, IH.
  - cbn [contains]. rewrite IH, orb_false_r.
    apply Ascii.eqb_neq. congruence.
Qed.

Lemma replace_char_length c c' s :
  String.length (replace s (String c "") (String c' "")) = String.length s.
Proof.
  unfold replace. induction s as [|a s IH]; [done|].
  cbn [replace_from String.prefix]. destruct (ascii_dec c a).
  - rewrite prefix_nil. cbn [String.length Nat.sub].
    rewrite PyStrFacts.append_cons, PyStrFacts.append_nil.
    cbn [String.length]. by rewrite IH.
  - cbn [String.length]. by rewrite IH.
Qed.

(* a replacement brings in no character that neither the string nor the
   new text has *)
Lemma replace_contains c s old' a new :
  contains c s = false →
  contains c new = false →
  contains c (replace s (String a old') new) = false.
Proof.
  intros Hs Hnew. apply PyStrFacts.contains_count.
  apply PyStrFacts.contains_count in Hs, Hnew.
  pose proof (count_replace_from_le c (String a old') new s 0 Hnew).
  unfold replace. lia.
Qed.

Lemma replace_from_length old new s : ∀ skip,
  old ≠ ""%string →
  String.length new ≤ String.length old →
  skip ≤ String.length s →
  String.length (replace_from old new skip s) + skip ≤ String.length s.
Proof.
  intros skip Hold Hlen. revert skip.
  induction s as [|a s IH]; intros skip Hskip.
  - cbn in *. lia.
  - cbn [replace_from String.length] in *. destruct skip as [|skip].
    + destruct (String.prefix old (String a s)) eqn:Hp.
      * apply prefix_length in Hp. cbn [String.length] in Hp.
        rewrite PyStrFacts.length_app.
        assert (0 < String.length old) by (destruct old; [done | cbn; lia]).
        specialize (IH (String.length old - 1)). lia.
      * cbn [String.length]. specialize (IH 0). lia.
    + specialize (IH skip). lia.
Qed.

Lemma replace_shrinks old new s :
  String.length new < String.length old →
  contains_sub old s = true →
  String.length (replace_from old new 0 s) < String.length s.
Proof.
  intros Hlen.
  assert (Hold : old ≠ ""%string) by (intros ->; cbn in Hlen; lia).
  induction s as [|a s IH].
  - cbn [contains_sub]. rewrite orb_false_r. by destruct old.
  - cbn [contains_sub replace_from String.length].
    destruct (String.prefix old (String a s)) eqn:Hp.
    + intros _. apply prefix_length in Hp. cbn [String.length] in Hp.
      rewrite PyStrFacts.length_app.
      pose proof (replace_from_length old new s (String.length old - 1)
                    Hold) as H.
      lia.
    + cbn [orb String.length]. intros H%IH. lia.
Qed.

End PyStrMoreFacts.

(** ** [sh.fmtpath] and [sh.url2dld] *)

Lemma collapse_total old new : ∀ fuel p,
  (String.length new < String.length old)%nat →
  (String.length p ≤ fuel)%nat →
  ∃ r, Sh.collapse fuel old new p = Some r
       ∧ PyStrMore.contains_sub old r = false
       ∧ (String.length r ≤ String.length p)%nat
       ∧ ∀ c, PyStr.contains c p = false → PyStr.contains c new = false →
              PyStr.contains c r = false.
Proof.
  intros fuel p Hlen. revert p.
  assert (Hold : ∃ a old', old = String a old').
  { destruct old as [|a old']; [cbn in Hlen; lia | by eexists _, _]. }
  destruct Hold as (a & old' & ->).
  induction fuel as [|fuel IH]; intros p Hp.
  - destruct p; [|cbn in Hp; lia]. exists ""%string. by cbn.
  - cbn [Sh.collapse].
    destruct (PyStrMore.contains_sub (String a old') p) eqn:Hc;
      [|by exists p].
    pose proof (PyStrMoreFacts.replace_shrinks _ _ _ Hlen Hc) as Hsh.
    destruct (IH (PyStr.replace p (String a old') new)) as (r & Hr & Hn & Hl & Hch);
      [unfold PyStr.replace; lia|].
    exists r. repeat split; try done.
    + unfold PyStr.replace in Hl. lia.
    + intros c Hcp Hcn. apply Hch; [|done].
      by apply PyStrMoreFacts.replace_contains.
Qed.

(** X8. [sh.fmtpath] always finishes (its loop needs no more passes than
    the path has characters), and the path it returns contains no backslash
    and no two slashes in a row, and neither begins nor ends with a slash. *)
Theorem X8_fmtpath_shape fuel p :
  (String.length p ≤ fuel)%nat →
  ∃ r, Sh.fmtpath fuel p = Some r
       ∧ PyStr.contains "\" r = false
       ∧ PyStrMore.contains_sub "//" r = false
       ∧ PyStr.startswith "/" r = false
       ∧ PyStrMore.endswith "/" r = false.
Proof.
  intros Hfuel. unfold Sh.fmtpath.
  destruct (collapse_total "//" "/" fuel (PyStr.replace p "\" "/"))
    as (q & Hq & Hn & _ & Hch).
  - cbn. lia.
  - by rewrite PyStrMoreFacts.replace_char_length.
  - rewrite Hq. eexists. split; [reflexivity|].
    assert (Hb : PyStr.contains "\" q = false).
    { apply Hch; [|done]. by apply PyStrMoreFacts.replace_char_gone. }
    repeat split.
    + by apply PyStrMoreFacts.rstrip_contains,
        PyStrMoreFacts.lstrip_contains, PyStrMoreFacts.rstrip_contains,
        PyStrMoreFacts.lstrip_contains.
    + by apply PyStrMoreFacts.rstrip_contains_sub,
        PyStrMoreFacts.lstrip_contains_sub,
        PyStrMoreFacts.rstrip_contains_sub,
        PyStrMoreFacts.lstrip_contains_sub.
    + apply PyStrMoreFacts.rstrip_head.
      by apply (PyStrMoreFacts.lstrip_head "/" (PyStrMore.is_char "/")).
    + apply PyStrMoreFacts.rstrip_last.
Qed.

Lemma X8_fmtpath_shape_witness :
  ∃ r, Sh.fmtpath 22 " C:\work\\arm//ws\ " = Some r
       ∧ PyStr.contains "\" r = false
       ∧ PyStrMore.contains_sub "//" r = false
       ∧ PyStr.startswith "/" r = false
       ∧ PyStrMore.endswith "/" r = false.
Proof. apply X8_fmtpath_shape. vm_compute. lia. Defined.

(** X9. [sh.fmtpath] leaves a path as it is when the path has no backslash,
    no two slashes in a row, no white space at either end, and neither begins
    nor ends with a slash; no pass of its loop is made. *)
Theorem X9_fmtpath_fixed fuel p :
  PyStr.contains "\" p = false →
  PyStrMore.contains_sub "//" p = false →
  PyStrMore.strip p = p →
  PyStr.startswith "/" p = false →
  PyStrMore.endswith "/" p = false →
  Sh.fmtpath fuel p = Some p.
Proof.
  intros Hb Hs Hw Hl Hr. unfold Sh.fmtpath.
  rewrite (PyStrMoreFacts.replace_absent _ _ _ _ Hb).
  assert (Hc : Sh.collapse fuel "//" "/" p = Some p)
    by (destruct fuel; cbn [Sh.collapse]; by rewrite Hs).
  rewrite Hc. cbn [mbind option_bind]. rewrite Hw.
  by rewrite (PyStrMoreFacts.lstrip_id _ _ Hl), (PyStrMoreFacts.rstrip_id _ _ Hr).
Qed.

Lemma X9_fmtpath_fixed_witness :
  Sh.fmtpath 0 "build-scripts/platforms" = Some "build-scripts/platforms"%string.
Proof. apply X9_fmtpath_fixed; reflexivity. Defined.

(** X10. [sh.url2dld] always finishes, and the directory it returns lies
    directly under [sh.dld]: it is [sh.dld], a slash, and a name with no
    slash, no colon and no two underscores in a row. *)
Theorem X10_url2dld_flat fuel dld url :
  (String.length url ≤ fuel)%nat →
  ∃ p, Sh.url2dld fuel dld url = Some (dld +:+ String "/" p)
       ∧ PyStr.contains "/" p = false
       ∧ PyStr.contains ":" p = false
       ∧ PyStrMore.contains_sub "__" p = false.
Proof.
  intros Hfuel. unfold Sh.url2dld.
  set (u := PyStrMore.rstrip (PyStrMore.is_char "/")
              (PyStrMore.lstrip (PyStrMore.is_char "/") url)).
  assert (Hu : (String.length u ≤ String.length url)%nat).
  { unfold u.
    destruct (PyStrMoreFacts.lstrip_suffix (PyStrMore.is_char "/") url)
      as [t1 H1].
    destruct (PyStrMoreFacts.rstrip_prefix (PyStrMore.is_char "/")
                (PyStrMore.lstrip (PyStrMore.is_char "/") url)) as [t2 H2].
    rewrite H1 at 2. rewrite H2 at 2. rewrite !PyStrFacts.length_app. lia. }
  destruct (collapse_total "__" "_" fuel
              (PyStr.replace (PyStr.replace u ":" "_") "/" "_"))
    as (q & Hq & Hn & _ & Hch).
  - cbn. lia.
  - rewrite !PyStrMoreFacts.replace_char_length. lia.
  - rewrite Hq. exists q. repeat split; try done.
    + apply Hch; [|done]. by apply PyStrMoreFacts.replace_char_gone.
    + apply Hch; [|done]. apply PyStrMoreFacts.replace_contains; [|done].
      by apply PyStrMoreFacts.replace_char_gone.
Qed.

Lemma X10_url2dld_flat_witness :
  ∃ p, Sh.url2dld 40 ".downloads/" "https://releases.linaro.org/a__b/"
       = Some (".downloads/" +:+ String "/" p)
       ∧ PyStr.contains "/" p = false
       ∧ PyStr.contains ":" p = false
       ∧ PyStrMore.contains_sub "__" p = false.
Proof. apply X10_url2dld_flat. vm_compute. lia. Defined.

Example ex_fmtpath :
  Sh.fmtpath 22 " C:\work\\arm//ws\ " = Some "C:/work/arm/ws"%string.
Proof. vm_compute. reflexivity. Qed.

Example ex_url2dld :
  Sh.url2dld 40 ".downloads/" "https://releases.linaro.org/a__b/"
  = Some ".downloads//https_releases.linaro.org_a_b"%string.
Proof. vm_compute. reflexivity. Qed.

(** ** [sh.extract_or_copy] *)

Lemma endswith_spec suffix s :
  PyStrMore.endswith suffix s = true ↔ ∃ pre, s = pre +:+ suffix.
Proof.
  induction s as [|a s IH]; cbn [PyStrMore.endswith].
  - rewrite orb_false_r. split.
    + intros ->%String.eqb_eq. by exists ""%string.
    + intros [pre H]. destruct pre; [|done].
      rewrite PyStrFacts.append_nil in H. subst. apply String.eqb_refl.
  - rewrite orb_true_iff, IH. split.
    + intros [->%String.eqb_eq | [pre ->]]; [by exists ""%string|].
      by exists (String a pre).
    + intros [[|b pre] H].
      * left. rewrite PyStrFacts.append_nil in H. subst. apply String.eqb_refl.
      * right. rewrite PyStrFacts.append_cons in H. injection H as -> ->.
        by exists pre.
Qed.

(* of two suffixes of a string, the shorter is a suffix of the longer *)
Lemma endswith_comparable u v s :
  PyStrMore.endswith u s = true →
  PyStrMore.endswith v s = true →
  (String.length u ≤ String.length v)%nat →
  PyStrMore.endswith u v = true.
Proof.
  rewrite !endswith_spec. intros [p1 ->] [p2 H] Hlen.
  revert p2 H. induction p1 as [|a p1 IH]; intros p2 H.
  - rewrite PyStrFacts.append_nil in H. destruct p2 as [|b p2].
    + exists ""%string. by rewrite H, PyStrFacts.append_nil.
    + apply (f_equal String.length) in H.
      rewrite PyStrFacts.length_app in H. cbn [String.length] in H. lia.
  - destruct p2 as [|b p2].
    + exists (String a p1). by rewrite PyStrFacts.append_nil in H.
    + rewrite !PyStrFacts.append_cons in H. injection H as _ H. exact (IH p2 H).
Qed.

Lemma endswith_exclusive u v s :
  PyStrMore.endswith u v = false →
  (String.length u ≤ String.length v)%nat →
  PyStrMore.endswith u s = true →
  PyStrMore.endswith v s = false.
Proof.
  intros Huv Hlen Hu. destruct (PyStrMore.endswith v s) eqn:Hv; [|done].
  by rewrite (endswith_comparable u v s Hu Hv Hlen) in Huv.
Qed.

Lemma endswith_exclusive' u v s :
  PyStrMore.endswith u v = false →
  (String.length u ≤ String.length v)%nat →
  PyStrMore.endswith v s = true →
  PyStrMore.endswith u s = false.
Proof.
  intros Huv Hlen Hv. destruct (PyStrMore.endswith u s) eqn:Hu; [|done].
  by rewrite (endswith_comparable u v s Hu Hv Hlen) in Huv.
Qed.

Lemma endswith_longer u v s :
  PyStrMore.endswith u v = true →
  PyStrMore.endswith v s = true →
  PyStrMore.endswith u s = true.
Proof.
  rewrite !endswith_spec. intros [p ->] [q ->].
  exists (q +:+ p). by rewrite append_assoc.
Qed.

(** X11. The handler that [sh.extract_or_copy] picks depends on the end of
    the file name alone: .tar.xz and .tar.bz2 archives go to the two tar
    handlers, .zip files to unzip, .gz and .bz2 files that are not tar
    archives to gunzip and bunzip2, and every other file is copied; in
    particular a .tar.gz archive is copied as it is, not unpacked. *)
Theorem X11_handler src :
  (Extract.select src = Extract.Tarxf
     ↔ PyStrMore.endswith ".tar.xz" src = true) ∧
  (Extract.select src = Extract.Tarxjf
     ↔ PyStrMore.endswith ".tar.bz2" src = true) ∧
  (Extract.select src = Extract.Unzip
     ↔ PyStrMore.endswith ".zip" src = true) ∧
  (Extract.select src = Extract.Gunzip
     ↔ PyStrMore.endswith ".gz" src = true
       ∧ PyStrMore.endswith ".tar.gz" src = false) ∧
  (Extract.select src = Extract.Bunzip2
     ↔ PyStrMore.endswith ".bz2" src = true
       ∧ PyStrMore.endswith ".tar.bz2" src = false) ∧
  (PyStrMore.endswith ".tar.gz" src = true → Extract.select src = Extract.Cp).
Proof.
  unfold Extract.select.
  destruct (PyStrMore.endswith ".tar.xz" src) eqn:Hxz.
  { rewrite (endswith_exclusive ".tar.xz" ".tar.bz2" src),
      (endswith_exclusive' ".zip" ".tar.xz" src),
      (endswith_exclusive' ".gz" ".tar.xz" src),
      (endswith_exclusive' ".bz2" ".tar.xz" src),
      (endswith_exclusive ".tar.xz" ".tar.gz" src);
      try done; try (cbn; lia).
    repeat split; try done; by intros []. }
  destruct (PyStrMore.endswith ".tar.bz2" src) eqn:Hbz.
  { rewrite (endswith_exclusive' ".zip" ".tar.bz2" src),
      (endswith_exclusive' ".gz" ".tar.bz2" src),
      (endswith_exclusive' ".tar.gz" ".tar.bz2" src);
      try done; try (cbn; lia).
    repeat split; try done; by intros []. }
  destruct (PyStrMore.endswith ".zip" src) eqn:Hzip.
  { rewrite (endswith_exclusive' ".gz" ".zip" src),
      (endswith_exclusive' ".bz2" ".zip" src),
      (endswith_exclusive ".zip" ".tar.gz" src);
      try done; try (cbn; lia).
    repeat split; try done; by intros []. }
  destruct (PyStrMore.endswith ".gz" src) eqn:Hgz.
  - rewrite (endswith_exclusive ".gz" ".bz2" src); try done; try (cbn; lia).
    destruct (PyStrMore.endswith ".tar.gz" src) eqn:Htgz; cbn [negb andb];
      repeat split; try done; by intros [].
  - assert (Htgz : PyStrMore.endswith ".tar.gz" src = false).
    { destruct (PyStrMore.endswith ".tar.gz" src) eqn:Htgz; [|done].
      by rewrite (endswith_longer ".gz" ".tar.gz" src) in Hgz. }
    rewrite Htgz. cbn [andb negb].
    destruct (PyStrMore.endswith ".bz2" src); cbn [andb];
      repeat split; try done; by intros [].
Qed.

Lemma X11_handler_witness :
  Extract.select "rootfs.tar.gz" = Extract.Cp.
Proof.
  apply (proj2 (proj2 (proj2 (proj2 (proj2
           (X11_handler "rootfs.tar.gz")))))). reflexivity.
Defined.

Example ex_select :
  Extract.select "gcc-linaro-7.3.1.tar.xz" = Extract.Tarxf ∧
  Extract.select "juno.img.bz2" = Extract.Bunzip2 ∧
  Extract.select "ramdisk.img.gz" = Extract.Gunzip ∧
  Extract.select "rootfs.tar.gz" = Extract.Cp ∧
  Extract.select "repo" = Extract.Cp.
Proof. vm_compute. auto. Qed.

(** ** [check_sys_gcc] *)

Lemma tuple_lt_3 a b c x y z :
  Gcc.tuple_lt [a; b; c] [x; y; z] = true
  ↔ a < x ∨ (a = x ∧ (b < y ∨ (b = y ∧ c < z))).
Proof.
  cbn [Gcc.tuple_lt].
  destruct (Z.ltb_spec a x), (Z.ltb_spec x a), (Z.ltb_spec b y),
    (Z.ltb_spec y b), (Z.ltb_spec c z), (Z.ltb_spec z c);
    split; intros ?; first [done | lia | exfalso; lia].
Qed.

(** X12. For a gcc version of three components, [check_sys_gcc] returns
    exactly when the version is at least 5.4.0 and below 8.0.0 in the
    order of tuples, and calls [script.abort] otherwise.  The components
    are what [int] reads, so they may be negative: the last disjunct is
    the part of the window below 8.0.0 that only such versions reach. *)
Theorem X12_gcc_window out a b c :
  Gcc.version out = Some [a; b; c] →
  Gcc.check_sys_gcc out =
    (if bool_decide ((a = 5 ∧ (4 < b ∨ (b = 4 ∧ 0 ≤ c))) ∨ 6 ≤ a ≤ 7
                     ∨ (a = 8 ∧ (b < 0 ∨ (b = 0 ∧ c < 0))))
     then Gcc.Passed else Gcc.Aborted).
Proof.
  intros Hv. unfold Gcc.check_sys_gcc. rewrite Hv.
  cbn [List.length Nat.ltb Nat.leb].
  destruct (Gcc.tuple_lt [a; b; c] [5; 4; 0]) eqn:H1;
    destruct (Gcc.tuple_lt [a; b; c] [8; 0; 0]) eqn:H2; cbn [orb negb].
  - apply tuple_lt_3 in H1. rewrite bool_decide_eq_false_2; [done|lia].
  - apply tuple_lt_3 in H1. rewrite bool_decide_eq_false_2; [done|lia].
  - apply tuple_lt_3 in H2. apply not_true_iff_false in H1.
    rewrite tuple_lt_3 in H1. rewrite bool_decide_eq_true_2; [done|lia].
  - apply not_true_iff_false in H2. rewrite tuple_lt_3 in H2.
    rewrite bool_decide_eq_false_2; [done|lia].
Qed.

Lemma X12_gcc_window_witness :
  Gcc.check_sys_gcc "7.3.0" = Gcc.Passed ∧
  Gcc.check_sys_gcc "5.3.1" = Gcc.Aborted.
Proof.
  split.
  - exact (X12_gcc_window "7.3.0" 7 3 0 eq_refl).
  - exact (X12_gcc_window "5.3.1" 5 3 1 eq_refl).
Defined.

(** X13. When gcc prints its major version alone, [check_sys_gcc] returns
    for the versions 6, 7 and 8, and for every other one it does not reach
    [script.abort]: building the message raises IndexError. *)
Theorem X13_gcc_major_only out v :
  Gcc.version out = Some [v] →
  Gcc.check_sys_gcc out =
    (if bool_decide (6 ≤ v ≤ 8) then Gcc.Passed
     else Gcc.Raised Py.IndexError).
Proof.
  intros Hv. unfold Gcc.check_sys_gcc. rewrite Hv.
  cbn [List.length Nat.ltb Nat.leb Gcc.tuple_lt].
  destruct (Z.ltb_spec v 5), (Z.ltb_spec 5 v), (Z.ltb_spec v 8),
    (Z.ltb_spec 8 v); cbn [orb negb];
    (rewrite bool_decide_eq_true_2 by lia) ||
    (rewrite bool_decide_eq_false_2 by lia); (done || lia).
Qed.

Lemma X13_gcc_major_only_witness :
  Gcc.check_sys_gcc "8" = Gcc.Passed ∧
  Gcc.check_sys_gcc "9" = Gcc.Raised Py.IndexError.
Proof.
  split.
  - exact (X13_gcc_major_only "8" 8 eq_refl).
  - exact (X13_gcc_major_only "9" 9 eq_refl).
Defined.

Example ex_py_int :
  Gcc.py_int "7" = Some 7 ∧ Gcc.py_int " 042
" = Some 42 ∧
  Gcc.py_int "-3" = Some (-3) ∧ Gcc.py_int "+1_000" = Some 1000 ∧
  Gcc.py_int "" = None ∧ Gcc.py_int "1__0" = None ∧
  Gcc.py_int "_1" = None ∧ Gcc.py_int "1_" = None ∧
  Gcc.py_int "+-1" = None ∧ Gcc.py_int "- 1" = None ∧
  Gcc.py_int "3-rc" = None.
Proof. vm_compute. repeat split. Qed.

Example ex_check_sys_gcc :
  Gcc.check_sys_gcc "5.4.0" = Gcc.Passed ∧
  Gcc.check_sys_gcc "8.0.0" = Gcc.Aborted ∧
  Gcc.check_sys_gcc "7.5" = Gcc.Passed ∧
  Gcc.check_sys_gcc "4.8" = Gcc.Raised Py.IndexError ∧
  Gcc.check_sys_gcc "7.3.0-rc" = Gcc.Raised Py.ValueError.
Proof. vm_compute. repeat split. Qed.

(** ** [get_ws_files] *)

Module WsFacts.
Import Ws.

Lemma mem_spec f l : mem f l = true ↔ f ∈ l.
Proof.
  unfold mem. rewrite existsb_exists. setoid_rewrite String.eqb_eq.
  setoid_rewrite <- list_elem_of_In. naive_solver.
Qed.

Lemma remove_first_sublist f l : remove_first f l `sublist_of` l.
Proof.
  induction l as [|x l IH]; cbn [remove_first]; [done|].
  destruct (String.eqb f x); [by apply sublist_cons|by apply sublist_skip].
Qed.

Lemma remove_first_elem f l x :
  NoDup l → x ∈ remove_first f l ↔ x ∈ l ∧ x ≠ f.
Proof.
  induction l as [|y l IH]; cbn [remove_first]; intros Hnd.
  - set_solver.
  - apply NoDup_cons in Hnd as [Hy Hnd].
    destruct (String.eqb_spec f y) as [->|Hne].
    + rewrite elem_of_cons. split; [|naive_solver].
      intros Hx. split; [by right|]. by intros ->.
    + rewrite !elem_of_cons, IH by done. naive_solver.
Qed.

Lemma drop_sublist l f : drop l f `sublist_of` l.
Proof.
  unfold drop. destruct (mem f l); [apply remove_first_sublist|done].
Qed.

Lemma drop_elem l f x : NoDup l → x ∈ drop l f ↔ x ∈ l ∧ x ≠ f.
Proof.
  intros Hnd. unfold drop. destruct (mem f l) eqn:Hm.
  - by apply remove_first_elem.
  - apply not_true_iff_false in Hm. rewrite mem_spec in Hm. naive_solver.
Qed.

Lemma drops_sublist fs : ∀ l, fold_left drop fs l `sublist_of` l.
Proof.
  induction fs as [|f fs IH]; intros l; cbn [fold_left]; [done|].
  etrans; [apply IH|apply drop_sublist].
Qed.

Lemma drops_elem fs : ∀ l x,
  NoDup l → x ∈ fold_left drop fs l ↔ x ∈ l ∧ x ∉ fs.
Proof.
  induction fs as [|f fs IH]; intros l x Hnd; cbn [fold_left].
  - set_solver.
  - rewrite IH, drop_elem by eauto using sublist_NoDup, drop_sublist.
    rewrite not_elem_of_cons. naive_solver.
Qed.

Lemma StronglySorted_sublist (l1 l2 : list string) :
  l1 `sublist_of` l2 → StronglySorted String.le l2 → StronglySorted String.le l1.
Proof.
  induction 1 as [|x l1 l2 Hsub IH|x l1 l2 Hsub IH];
    rewrite ?StronglySorted_cons; [done| |naive_solver].
  intros [Hall Hs]. split; [|by apply IH].
  rewrite Forall_forall in Hall |- *. intros y Hy. apply Hall.
  by apply (sublist_subseteq _ _ Hsub).
Qed.

Lemma get_ws_files_unfold dirs files filename dld repod :
  get_ws_files (Some (dirs, files)) filename dld repod =
  fold_left drop [filename; dld; repod; "log.txt"%string]
    (merge_sort String.le (files ++ map (λ d, String.append d "/") dirs)).
Proof. done. Qed.

End WsFacts.

(** X14. When no name occurs twice in the listing of the workspace,
    [get_ws_files] returns exactly its entries (the directories with a
    slash at the end) other than the script itself, the downloads
    directory, the repo directory and log.txt. *)
Theorem X14_ws_protected dirs files filename dld repod x :
  NoDup (files ++ map (λ d, String.append d "/") dirs) →
  x ∈ Ws.get_ws_files (Some (dirs, files)) filename dld repod
  ↔ x ∈ files ++ map (λ d, String.append d "/") dirs
    ∧ x ∉ [filename; dld; repod; "log.txt"%string].
Proof.
  intros Hnd. rewrite WsFacts.get_ws_files_unfold, WsFacts.drops_elem.
  - by rewrite merge_sort_Permutation.
  - by rewrite merge_sort_Permutation.
Qed.

Lemma X14_ws_protected_witness :
  ".repo/"%string ∈
    Ws.get_ws_files (Some ([".repo"; "linux"], ["log.txt"; "armplat.py"]))
      "armplat.py" ".downloads/" ".repo/"
  ↔ ".repo/"%string ∈ ["log.txt"; "armplat.py"]
                      ++ map (λ d, String.append d "/") [".repo"; "linux"]
    ∧ ".repo/"%string ∉ ["armplat.py"; ".downloads/"; ".repo/"; "log.txt"]%string.
Proof.
  apply (X14_ws_protected [".repo"; "linux"] ["log.txt"; "armplat.py"]
           "armplat.py" ".downloads/" ".repo/" ".repo/").
  apply (bool_decide_unpack _). vm_compute. exact I.
Defined.

(** X15. [get_ws_files] returns the names in ascending order, and in the
    order of the sorted listing, from which it only leaves names out. *)
Theorem X15_ws_sorted dirs files filename dld repod :
  let listing :=
    merge_sort String.le (files ++ map (λ d, String.append d "/") dirs) in
  let filelist :=
    Ws.get_ws_files (Some (dirs, files)) filename dld repod in
  StronglySorted String.le filelist ∧ filelist `sublist_of` listing.
Proof.
  cbn zeta. rewrite WsFacts.get_ws_files_unfold.
  pose proof (WsFacts.drops_sublist
    [filename; dld; repod; "log.txt"%string]
    (merge_sort String.le (files ++ map (λ d, String.append d "/") dirs)))
    as Hsub.
  split; [|done].
  apply (WsFacts.StronglySorted_sublist _ _ Hsub).
  apply StronglySorted_merge_sort; apply _.
Qed.

Example ex_get_ws_files :
  Ws.get_ws_files
    (Some ([".repo"; "linux"; ".downloads"; "Build"],
           ["log.txt"; "armplat.py"; "README"; "build.sh"]))
    "armplat.py" ".downloads/" ".repo/"
  = ["Build/"; "README"; "build.sh"; "linux/"]%string.
Proof. vm_compute. reflexivity. Qed.

(** ** [prompt] and [tree_prompt] *)

Module MenuFacts.
Import Menu.

Lemma ask_chosen choices : ∀ lines c rest,
  ask choices lines = Chosen c rest →
  ∃ skipped ln i,
    lines = skipped ++ ln :: rest ∧ Gcc.py_int ln = Some i ∧
    1 ≤ i ≤ Z.of_nat (List.length choices) ∧
    choices !! Z.to_nat (i - 1) = Some c ∧ truthy (disabled c) = false.
Proof.
  induction lines as [|ln lines IH]; intros c rest; cbn [ask]; [done|].
  assert (Hskip : ask choices lines = Chosen c rest →
    ∃ skipped ln' i, ln :: lines = skipped ++ ln' :: rest ∧
      Gcc.py_int ln' = Some i ∧ 1 ≤ i ≤ Z.of_nat (List.length choices) ∧
      choices !! Z.to_nat (i - 1) = Some c ∧ truthy (disabled c) = false).
  { intros (skipped & ln' & i & -> & H)%IH. by exists (ln :: skipped), ln', i. }
  destruct (Gcc.py_int ln) as [i|] eqn:Hi; [|done].
  destruct (Z.ltb_spec i 1); [done|].
  destruct (Z.ltb_spec (Z.of_nat (List.length choices)) i); [done|].
  cbn [orb]. destruct (choices !! Z.to_nat (i - 1)) as [c'|] eqn:Hc; [|done].
  destruct (truthy (disabled c')) eqn:Hd; [done|].
  intros [= <- <-]. exists [], ln, i. repeat split; (done || lia).
Qed.

Lemma ask_raises choices : ∀ lines e,
  ask choices lines = Raised e → e = Py.EOFError.
Proof.
  induction lines as [|ln lines IH]; intros e; cbn [ask]; [congruence|].
  destruct (Gcc.py_int ln) as [i|]; [|apply IH].
  destruct (Z.ltb_spec i 1); [apply IH|].
  destruct (Z.ltb_spec (Z.of_nat (List.length choices)) i); [apply IH|].
  cbn [orb]. destruct (choices !! Z.to_nat (i - 1)) as [c'|] eqn:Hc.
  - destruct (truthy (disabled c')); [apply IH|done].
  - apply lookup_ge_None in Hc. lia.
Qed.

Lemma ask_fuel choices : ∀ lines, ask choices lines ≠ NoFuel.
Proof.
  induction lines as [|ln lines IH]; cbn [ask]; [done|].
  destruct (Gcc.py_int ln) as [i|]; [|done].
  destruct ((i <? 1) || (Z.of_nat (List.length choices) <? i)); [done|].
  destruct (choices !! Z.to_nat (i - 1)) as [c'|]; [|done].
  by destruct (truthy (disabled c')).
Qed.

Lemma height_child c root :
  c ∈ children root → (height c < height root)%nat.
Proof.
  destruct root as [n m d dis cs]. cbn [children height]. intros Hc.
  apply Nat.lt_succ_r.
  induction Hc as [c cs|c c' cs Hc IH]; cbn [map].
  - change (list_max (?x :: ?l)) with (Nat.max x (list_max l)).
    apply Nat.le_max_l.
  - change (list_max (?x :: ?l)) with (Nat.max x (list_max l)).
    etrans; [apply IH|apply Nat.le_max_r].
Qed.

Lemma nodes_root c : c ∈ nodes c.
Proof. destruct c. cbn [nodes]. apply elem_of_cons. by left. Qed.

Lemma nodes_child c' c root :
  c ∈ children root → c' ∈ nodes c → c' ∈ nodes root.
Proof.
  destruct root as [n m d dis cs]. cbn [children nodes]. intros Hc Hc'.
  apply elem_of_cons. right. apply list_elem_of_In, in_flat_map.
  exists c. by rewrite <- !list_elem_of_In.
Qed.

Lemma prompt_chosen choices lines c rest :
  prompt choices lines = Chosen c rest →
  c ∈ choices ∧ truthy (disabled c) = false ∧
  ∃ skipped ln i,
    lines = skipped ++ ln :: rest ∧ Gcc.py_int ln = Some i ∧
    1 ≤ i ≤ Z.of_nat (List.length choices) ∧
    choices !! Z.to_nat (i - 1) = Some c.
Proof.
  unfold prompt. destruct choices as [|c0 choices]; [done|].
  destruct (forallb _ _); [|done].
  intros (skipped & ln & i & -> & Hi & Hb & Hc & Hd)%ask_chosen.
  split; [by eapply list_elem_of_lookup_2|]. split; [done|].
  by exists skipped, ln, i.
Qed.

Lemma prompt_raises c1 c2 cs lines e :
  prompt (c1 :: c2 :: cs) lines = Raised e →
  e = Py.EOFError ∨ e = Py.TypeError.
Proof.
  unfold prompt. destruct (forallb _ _).
  - intros ->%ask_raises. by left.
  - intros [= <-]. by right.
Qed.

Lemma prompt_fuel choices lines : prompt choices lines ≠ NoFuel.
Proof.
  unfold prompt. destruct choices; [done|].
  destruct (forallb _ _); [apply ask_fuel|done].
Qed.

End MenuFacts.

(** X16. A choice that [prompt] returns is one of the choices offered and
    is not disabled, and it is the one whose number the last line read
    gives: that line reads as an integer [i] between 1 and the number of
    choices, and the choice is the [i]-th; the lines before it were passed
    over, the lines after it are left. *)
Theorem X16_prompt_enabled choices lines c rest :
  Menu.prompt choices lines = Menu.Chosen c rest →
  c ∈ choices ∧ Menu.truthy (Menu.disabled c) = false ∧
  ∃ skipped ln i,
    lines = skipped ++ ln :: rest ∧ Gcc.py_int ln = Some i ∧
    1 ≤ i ≤ Z.of_nat (List.length choices) ∧
    choices !! Z.to_nat (i - 1) = Some c.
Proof. apply MenuFacts.prompt_chosen. Qed.

Lemma X16_prompt_enabled_witness :
  Docs3.juno ∈ Menu.children Docs3.platforms ∧
  Menu.truthy (Menu.disabled Docs3.juno) = false ∧
  ∃ skipped ln i,
    ["3"; "x"; "7"; " 2 "; "1"]%string = skipped ++ ln :: ["1"%string] ∧
    Gcc.py_int ln = Some i ∧
    1 ≤ i ≤ Z.of_nat (List.length (Menu.children Docs3.platforms)) ∧
    Menu.children Docs3.platforms !! Z.to_nat (i - 1) = Some Docs3.juno.
Proof.
  apply (X16_prompt_enabled (Menu.children Docs3.platforms)
           ["3"; "x"; "7"; " 2 "; "1"]%string Docs3.juno ["1"%string]).
  vm_compute. reflexivity.
Defined.

(** X17. With a budget of the height of the tree, [tree_prompt] comes to
    an end: it returns a node of the tree that has no children, with the
    lines it has not read, or the input ends before a choice is made
    (EOFError), or a name on the way is not a str (TypeError). *)
Theorem X17_tree_prompt_leaf fuel root lines :
  (Menu.height root ≤ fuel)%nat →
  (∃ c rest,
      Menu.tree_prompt fuel root lines = Menu.Chosen c rest ∧
      Menu.children c = [] ∧ c ∈ Menu.nodes root ∧ rest `suffix_of` lines) ∨
  Menu.tree_prompt fuel root lines = Menu.Raised Py.EOFError ∨
  Menu.tree_prompt fuel root lines = Menu.Raised Py.TypeError.
Proof.
  revert root lines. induction fuel as [|fuel IH]; intros root lines Hh.
  { destruct root. cbn [Menu.height] in Hh. lia. }
  cbn [Menu.tree_prompt].
  destruct (Menu.children root) as [|c1 [|c2 cs]] eqn:Hcs.
  - left. exists root, lines. repeat split; [done|apply MenuFacts.nodes_root|done].
  - assert (Hc1 : c1 ∈ Menu.children root) by (rewrite Hcs; apply elem_of_cons; by left).
    destruct (Menu.is_str (Menu.name c1)); [|by right; right].
    pose proof (MenuFacts.height_child _ _ Hc1) as Hlt.
    destruct (IH c1 lines) as [(c & rest & -> & Hleaf & Hn & Hsuf)|H]; [lia| |by right].
    left. exists c, rest. repeat split; [done| |done].
    by eapply MenuFacts.nodes_child.
  - destruct (Menu.prompt (c1 :: c2 :: cs) lines) as [c rest|e|] eqn:Hp.
    + apply MenuFacts.prompt_chosen in Hp
        as (Hc & _ & skipped & ln & i & -> & _).
      rewrite <- Hcs in Hc.
      pose proof (MenuFacts.height_child _ _ Hc) as Hlt.
      destruct (IH c rest) as [(c' & rest' & -> & Hleaf & Hn & Hsuf)|H];
        [lia| |by right].
      left. exists c', rest'. repeat split; [done| |].
      * by eapply MenuFacts.nodes_child.
      * etrans; [done|]. exists (skipped ++ [ln]). by rewrite <- app_assoc.
    + apply MenuFacts.prompt_raises in Hp as [-> | ->]; auto.
    + by apply MenuFacts.prompt_fuel in Hp.
Qed.

Lemma X17_tree_prompt_leaf_witness :
  (∃ c rest,
      Menu.tree_prompt 3 Docs3.platforms ["3"; "x"; "2"; "0"; "2"; "1"]%string
        = Menu.Chosen c rest ∧
      Menu.children c = [] ∧ c ∈ Menu.nodes Docs3.platforms ∧
      rest `suffix_of` ["3"; "x"; "2"; "0"; "2"; "1"]%string) ∨
  Menu.tree_prompt 3 Docs3.platforms ["3"; "x"; "2"; "0"; "2"; "1"]%string
    = Menu.Raised Py.EOFError ∨
  Menu.tree_prompt 3 Docs3.platforms ["3"; "x"; "2"; "0"; "2"; "1"]%string
    = Menu.Raised Py.TypeError.
Proof.
  apply (X17_tree_prompt_leaf 3 Docs3.platforms). vm_compute. lia.
Defined.

Example ex_tree_prompt :
  Menu.tree_prompt 3 Docs3.platforms ["3"; "x"; "2"; "0"; "2"; "1"]%string
    = Menu.Chosen Docs3.juno_b ["1"%string] ∧
  Menu.tree_prompt 3 Docs3.platforms ["1"]%string
    = Menu.Chosen Docs3.fvp_base [] ∧
  Menu.tree_prompt 3 Docs3.platforms ["2"]%string
    = Menu.Raised Py.EOFError.
Proof. vm_compute. auto. Qed.


(** ** [choice.tree] *)

Module TreeFacts.
Import Menu Tree.

Lemma append_nil_r s : s +:+ "" = s.
Proof.
  induction s as [|a s IH]; [done|]. by rewrite PyStrFacts.append_cons, IH.
Qed.

Lemma prefix_spec m : ∀ k, String.prefix m k = true ↔ ∃ t, k = m +:+ t.
Proof.
  induction m as [|a m IH]; intros k.
  - split; [|intros _; apply PyStrMoreFacts.prefix_nil].
    intros _. by exists k.
  - destruct k as [|b k]; cbn [String.prefix].
    + split; [done|]. by intros [t Ht].
    + destruct (ascii_dec a b) as [->|Hne].
      * rewrite IH. split; intros [t Ht]; exists t.
        -- by rewrite PyStrFacts.append_cons, Ht.
        -- rewrite PyStrFacts.append_cons in Ht. by injection Ht.
      * split; [done|]. intros [t Ht].
        rewrite PyStrFacts.append_cons in Ht. by injection Ht.
Qed.

Lemma slice_suffix p t :
  PyStr.slice (p +:+ t) (Z.of_nat (String.length p))
    (Z.of_nat (String.length (p +:+ t))) = t.
Proof.
  rewrite PyStrFacts.length_app.
  rewrite <- (append_nil_r t) at 1. apply PyStrFacts.slice_mid.
Qed.

Lemma slice_prefix seg rest :
  PyStr.slice (seg +:+ rest) 0 (Z.of_nat (String.length seg)) = seg.
Proof. apply (PyStrFacts.slice_mid "" seg rest). Qed.

Lemma substring_end s : substring (String.length s) 0 s = ""%string.
Proof. induction s as [|a s IH]; [done|exact IH]. Qed.

Lemma slice_past s :
  PyStr.slice s (Z.of_nat (String.length s) + 1) (Z.of_nat (String.length s))
  = ""%string.
Proof.
  unfold PyStr.slice.
  rewrite !(proj2 (Z.ltb_ge _ 0)) by lia.
  rewrite Z.min_r, Z.min_l by lia.
  rewrite Z.sub_diag, Nat2Z.id. apply substring_end.
Qed.

Lemma split_dot t :
  ∃ seg rest, t = seg +:+ rest ∧ PyStr.contains "." seg = false ∧
    (rest = ""%string ∨ ∃ r, rest = String "." r).
Proof.
  induction t as [|a t (seg & rest & -> & Hseg & Hrest)].
  - exists ""%string, ""%string. auto.
  - destruct (Ascii.eqb a ".") eqn:Ha.
    + apply Ascii.eqb_eq in Ha as ->.
      exists ""%string, (String "." (seg +:+ rest)). eauto.
    + exists (String a seg), rest. rewrite PyStrFacts.append_cons.
      repeat split; [|done]. cbn [PyStr.contains]. by rewrite Ha.
Qed.

(* a key cut before its first dot *)
Lemma cut_dot seg rest :
  PyStr.contains "." seg = false →
  rest = ""%string ∨ (∃ r, rest = String "." r) →
  (if PyStr.contains "." (seg +:+ rest)
   then PyStr.slice (seg +:+ rest) 0 (PyStr.find "." (seg +:+ rest))
   else seg +:+ rest) = seg.
Proof.
  intros Hseg [->|[r ->]].
  - by rewrite append_nil_r, Hseg.
  - rewrite PyStrFacts.contains_app, PyStrFacts.contains_head, orb_true_r.
    rewrite PyStrFacts.find_first by done. apply slice_prefix.
Qed.

Lemma first_segment_dotfree m k :
  PyStr.contains "." (first_segment m k) = false.
Proof.
  unfold first_segment.
  destruct (split_dot (PyStr.slice k (Z.of_nat (String.length m) + 1)
                         (Z.of_nat (String.length k))))
    as (seg & rest & -> & Hseg & Hrest).
  by rewrite cut_dot.
Qed.

Lemma first_segment_step m a seg rest :
  PyStr.contains "." seg = false →
  rest = ""%string ∨ (∃ r, rest = String "." r) →
  first_segment m (m +:+ String a (seg +:+ rest)) = seg.
Proof.
  intros Hseg Hrest. unfold first_segment.
  replace (m +:+ String a (seg +:+ rest))
    with ((m +:+ String a "") +:+ (seg +:+ rest))
    by (by rewrite append_assoc, PyStrFacts.append_cons, PyStrFacts.append_nil).
  replace (Z.of_nat (String.length m) + 1)
    with (Z.of_nat (String.length (m +:+ String a "")))
    by (rewrite PyStrFacts.length_app; cbn [String.length]; lia).
  rewrite slice_suffix. by apply cut_dot.
Qed.

Lemma child_keys_elem m kl x :
  x ∈ child_keys m kl ↔ ∃ k, k ∈ kl ∧ x = m +:+ "." +:+ first_segment m k.
Proof.
  unfold child_keys. rewrite list_elem_of_fmap.
  setoid_rewrite merge_sort_Permutation.
  setoid_rewrite elem_of_remove_dups.
  setoid_rewrite list_elem_of_fmap. naive_solver.
Qed.

Lemma child_keys_NoDup m kl : NoDup (child_keys m kl).
Proof.
  unfold child_keys. apply NoDup_fmap_2.
  - intros s t H. by apply (inj (String.app m)), (inj (String.app ".")) in H.
  - rewrite merge_sort_Permutation. apply NoDup_remove_dups.
Qed.

Lemma le_app p s t : String.le s t → String.le (p +:+ s) (p +:+ t).
Proof.
  unfold String.le, String.leb. intros H.
  induction p as [|a p IH]; [done|].
  rewrite !PyStrFacts.append_cons. cbn [String.compare].
  unfold Ascii.compare. by rewrite N.compare_refl.
Qed.

Lemma child_keys_sorted m kl : StronglySorted String.le (child_keys m kl).
Proof.
  unfold child_keys. apply (StronglySorted_fmap _ String.le String.le).
  - intros s t H. by apply le_app, le_app.
  - apply StronglySorted_merge_sort; apply _.
Qed.

Section BuildFacts.
Variable lu : string → bool → outcome value.

Lemma make_metas keys : ∀ new,
  make lu keys = Ret new →
  meta <$> new = keys ∧ Forall (λ c, children c = []) new.
Proof.
  induction keys as [|k keys IH]; intros new; cbn [make].
  - intros [= <-]. by split.
  - destruct (lu (k +:+ ".name") false) as [n| | |]; [|done..].
    rewrite bind_ret.
    destruct (lu (k +:+ ".descr") true) as [d| | |]; [|done..].
    rewrite bind_ret.
    destruct (make lu keys) as [cs| | |]; [|done..].
    rewrite bind_ret. intros [= <-].
    destruct (IH cs eq_refl) as [Hm Hc]. split.
    + cbn. by rewrite Hm.
    + by constructor.
Qed.

Lemma descend_ret rec cs : ∀ cs',
  descend rec cs = Some (Ret cs') →
  Forall2 (λ c c', ∃ r, rec c = Some (Ret r) ∧ c' = default c r) cs cs'.
Proof.
  induction cs as [|c cs IH]; intros cs'; cbn [descend].
  - intros [= <-]. constructor.
  - destruct (rec c) as [[r| | |]|] eqn:Hr; [|done..].
    destruct (descend rec cs) as [[cs''| | |]|]; [|done..].
    intros [= <-]. constructor; [by exists r|by apply IH].
Qed.

Lemma descend_total rec cs :
  (∀ c, c ∈ cs → rec c ≠ None) → descend rec cs ≠ None.
Proof.
  induction cs as [|c cs IH]; intros H; cbn [descend]; [done|].
  assert (Hc : rec c ≠ None) by (apply H, elem_of_cons; by left).
  assert (Hcs : descend rec cs ≠ None).
  { apply IH. intros c' Hc'. apply H, elem_of_cons. by right. }
  destruct (rec c) as [[r| | |]|]; [|done..].
  by destruct (descend rec cs) as [[cs''| | |]|].
Qed.

(* what [tree_at] returns when it returns a node *)
Lemma tree_at_some fuel kl root root' :
  tree_at lu (S fuel) kl root = Some (Ret (Some root')) →
  let f := List.filter (String.prefix (meta root)) kl in
  (child_keys (meta root) f = [] ∧ root' = root) ∨
  ∃ new cs,
    child_keys (meta root) f ≠ [] ∧
    make lu (child_keys (meta root) f) = Ret new ∧
    descend (tree_at lu fuel f) (children root ++ new) = Some (Ret cs) ∧
    root' = Choice (name root) (meta root) (descr root) (disabled root) cs.
Proof.
  cbn [tree_at]. cbn zeta.
  set (f := List.filter (String.prefix (meta root)) kl).
  destruct (match f with [k] => String.eqb k (meta root) | _ => false end);
    [done|].
  destruct (child_keys (meta root) f) as [|k keys] eqn:Hk.
  - intros [= <-]. by left.
  - destruct (make lu (k :: keys)) as [new| | |] eqn:Hnew; [|done..].
    destruct (descend (tree_at lu fuel f) (children root ++ new))
      as [[cs| | |]|] eqn:Hcs; [|done..].
    intros [= <-]. right. by exists new, cs.
Qed.

Lemma tree_at_meta fuel kl root root' :
  tree_at lu fuel kl root = Some (Ret (Some root')) → meta root' = meta root.
Proof.
  destruct fuel as [|fuel]; [done|].
  intros [[_ ->]|(new & cs & _ & _ & _ & ->)]%tree_at_some; done.
Qed.

Lemma default_meta fuel kl c r :
  tree_at lu fuel kl c = Some (Ret r) → meta (default c r) = meta c.
Proof.
  destruct r as [c'|]; [apply tree_at_meta|done].
Qed.

Lemma descend_metas fuel kl cs cs' :
  descend (tree_at lu fuel kl) cs = Some (Ret cs') →
  meta <$> cs' = meta <$> cs.
Proof.
  intros H%descend_ret. induction H as [|c c' cs cs' (r & Hr & ->) _ IH]; [done|].
  cbn. rewrite IH. f_equal. by eapply default_meta.
Qed.

Lemma nodes_inv c root :
  c ∈ nodes root → c = root ∨ ∃ c1, c1 ∈ children root ∧ c ∈ nodes c1.
Proof.
  destruct root as [n m d dis cs]. cbn [nodes children].
  intros [->|H]%elem_of_cons; [by left|]. right.
  apply list_elem_of_In, in_flat_map in H as (c1 & H1 & H2).
  exists c1. by rewrite !list_elem_of_In.
Qed.

Lemma nodes_leaf c root : children root = [] → c ∈ nodes root → c = root.
Proof.
  intros Hr [->|(c1 & H1 & _)]%nodes_inv; [done|].
  rewrite Hr in H1. by apply elem_of_nil in H1.
Qed.

Lemma filter_elem (m k : string) kl :
  k ∈ List.filter (String.prefix m) kl ↔ k ∈ kl ∧ String.prefix m k = true.
Proof. by rewrite !list_elem_of_In, filter_In. Qed.

(* a child of the node that [tree_at] returns comes from a choice that was
   made for a key of [child_keys] and then descended into *)
Lemma descend_child fuel kl new cs c1 :
  Forall (λ c, children c = []) new →
  descend (tree_at lu fuel kl) new = Some (Ret cs) →
  c1 ∈ cs →
  ∃ c0 r, c0 ∈ new ∧ children c0 = [] ∧
    tree_at lu fuel kl c0 = Some (Ret r) ∧ c1 = default c0 r.
Proof.
  intros Hnew Hcs%descend_ret [i Hi]%list_elem_of_lookup.
  destruct (Forall2_lookup_r _ _ _ _ _ Hcs Hi) as (c0 & H0 & r & Hr & ->).
  exists c0, r. split; [by eapply list_elem_of_lookup_2|].
  split; [|done]. by eapply Forall_lookup_1 in Hnew.
Qed.

Lemma descend_parent fuel kl new cs c0 :
  descend (tree_at lu fuel kl) new = Some (Ret cs) →
  c0 ∈ new →
  ∃ r, tree_at lu fuel kl c0 = Some (Ret r) ∧ default c0 r ∈ cs.
Proof.
  intros Hcs%descend_ret [i Hi]%list_elem_of_lookup.
  destruct (Forall2_lookup_l _ _ _ _ _ Hcs Hi) as (c1 & H1 & r & Hr & ->).
  exists r. split; [done|]. by eapply list_elem_of_lookup_2.
Qed.

Lemma tree_at_shape fuel : ∀ kl root root',
  children root = [] →
  tree_at lu fuel kl root = Some (Ret (Some root')) →
  ∀ c, c ∈ nodes root' →
    children c = [] ∨ ∃ kl', meta <$> children c = child_keys (meta c) kl'.
Proof.
  induction fuel as [|fuel IH]; intros kl root root' Hroot; [done|].
  intros [[_ ->]|(new & cs & _ & Hnew & Hcs & ->)]%tree_at_some c Hc.
  { left. by rewrite (nodes_leaf _ _ Hroot Hc). }
  rewrite Hroot in Hcs. cbn [app] in Hcs.
  destruct (make_metas _ _ Hnew) as [Hmetas Hleaves].
  apply nodes_inv in Hc as [->|(c1 & H1 & Hc)].
  - right. exists (List.filter (String.prefix (meta root)) kl).
    cbn [children meta]. by rewrite (descend_metas _ _ _ _ Hcs).
  - cbn [children] in H1.
    destruct (descend_child _ _ _ _ _ Hleaves Hcs H1)
      as (c0 & [c1'|] & _ & H0 & Hr & ->); cbn [default] in Hc.
    + by eapply IH.
    + left. by rewrite (nodes_leaf _ _ H0 Hc).
Qed.

Lemma tree_at_none fuel kl root :
  tree_at lu fuel kl root = Some (Ret None) →
  List.filter (String.prefix (meta root)) kl = [meta root].
Proof.
  destruct fuel as [|fuel]; [done|]. cbn [tree_at]. cbn zeta.
  destruct (List.filter (String.prefix (meta root)) kl) as [|k [|k' f]];
    [|destruct (String.eqb_spec k (meta root)) as [->|_]; [done|]|].
  all: destruct (child_keys _ _) as [|x keys]; [done|].
  all: destruct (make lu (x :: keys)) as [new| | |]; [|done..].
  all: by destruct (descend _ _) as [[cs| | |]|].
Qed.

Lemma tree_at_cover fuel : ∀ kl root root' k,
  children root = [] →
  tree_at lu fuel kl root = Some (Ret (Some root')) →
  k ∈ kl →
  String.prefix (meta root +:+ ".") k = true →
  ∃ c, c ∈ nodes root' ∧ meta c = k.
Proof.
  induction fuel as [|fuel IH]; intros kl root root' k Hroot; [done|].
  intros Htree Hk [t ->]%prefix_spec. rewrite append_assoc in Hk |- *.
  destruct (split_dot t) as (seg & rest & -> & Hseg & Hrest).
  pose (m := meta root). pose (f := List.filter (String.prefix m) kl).
  change (meta root) with m in Hk |- *.
  assert (Hkf : m +:+ "." +:+ seg +:+ rest ∈ f).
  { apply filter_elem. split; [done|]. apply prefix_spec. eauto. }
  assert (Hx : m +:+ "." +:+ seg ∈ child_keys m f).
  { apply child_keys_elem. eexists. split; [exact Hkf|].
    do 2 f_equal. symmetry.
    exact (first_segment_step m "." seg rest Hseg Hrest). }
  apply tree_at_some in Htree
    as [[Hnil _]|(new & cs & _ & Hnew & Hcs & ->)].
  { change (child_keys m f = []) in Hnil. rewrite Hnil in Hx.
    by apply elem_of_nil in Hx. }
  change (make lu (child_keys m f) = Ret new) in Hnew.
  change (descend (tree_at lu fuel f) (children root ++ new) = Some (Ret cs))
    in Hcs.
  rewrite Hroot in Hcs. cbn [app] in Hcs.
  destruct (make_metas _ _ Hnew) as [Hmetas Hleaves].
  rewrite <- Hmetas in Hx.
  apply list_elem_of_fmap in Hx as (c0 & Hm0 & Hc0).
  destruct (descend_parent _ _ _ _ _ Hcs Hc0) as (r & Hr & Hc1).
  assert (H0 : children c0 = [])
    by exact (proj1 (Forall_forall _ _) Hleaves c0 Hc0).
  destruct Hrest as [->|[r0 ->]].
  - exists (default c0 r). split.
    + eapply MenuFacts.nodes_child; [exact Hc1|apply MenuFacts.nodes_root].
    + by rewrite (default_meta _ _ _ _ Hr), <- Hm0, append_nil_r.
  - destruct r as [c1|]; cbn [default] in Hc1.
    + destruct (IH f c0 c1 (m +:+ "." +:+ seg +:+ String "." r0))
        as (c & Hc & Hmc); [done..| |].
      * apply prefix_spec. exists r0. rewrite <- Hm0.
        by rewrite !append_assoc.
      * exists c. split; [|done]. by eapply MenuFacts.nodes_child.
    + apply tree_at_none in Hr.
      assert (Hin : m +:+ "." +:+ seg +:+ String "." r0
                    ∈ List.filter (String.prefix (meta c0)) f).
      { apply filter_elem. split; [done|]. apply prefix_spec.
        exists (String "." r0). rewrite <- Hm0. by rewrite !append_assoc. }
      rewrite Hr, <- Hm0 in Hin. apply list_elem_of_singleton in Hin.
      apply (f_equal String.length) in Hin.
      rewrite !PyStrFacts.length_app in Hin. cbn [String.length] in Hin. lia.
Qed.

Lemma tree_at_total fuel : ∀ kl root,
  children root = [] →
  (1 ≤ fuel)%nat →
  (∀ k, k ∈ kl → String.prefix (meta root) k = true →
        (String.length k + 2 ≤ String.length (meta root) + fuel)%nat) →
  tree_at lu fuel kl root ≠ None.
Proof.
  induction fuel as [|fuel IH]; intros kl root Hroot Hfuel Hlen; [lia|].
  cbn [tree_at]. cbn zeta.
  set (m := meta root) in *.
  set (f := List.filter (String.prefix m) kl).
  destruct (match f with [k] => String.eqb k m | _ => false end); [done|].
  destruct (child_keys m f) as [|x keys] eqn:Hkeys; [done|].
  destruct (make lu (x :: keys)) as [new| | |] eqn:Hnew; [|done..].
  rewrite Hroot. cbn [app].
  destruct (make_metas _ _ Hnew) as [Hmetas Hleaves].
  assert (Hcs : descend (tree_at lu fuel f) new ≠ None).
  { apply descend_total. intros c Hc.
    assert (Hmc : meta c ∈ child_keys m f).
    { rewrite Hkeys, <- Hmetas. by apply list_elem_of_fmap_2. }
    apply child_keys_elem in Hmc as (k0 & [Hk0 Hp0]%filter_elem & Hmc).
    pose proof (Hlen k0 Hk0 Hp0) as Hb.
    apply PyStrMoreFacts.prefix_length in Hp0.
    apply IH.
    - apply list_elem_of_lookup in Hc as [i Hi].
      by eapply Forall_lookup_1 in Hleaves.
    - lia.
    - intros k [Hk Hp]%filter_elem _. pose proof (Hlen k Hk Hp).
      rewrite Hmc, !PyStrFacts.length_app. cbn [String.length]. lia. }
  by destruct (descend (tree_at lu fuel f) new) as [[cs| | |]|].
Qed.

End BuildFacts.

End TreeFacts.

(** X18. [choice.tree] comes to an end on every list of keys, whatever the
    database holds: each level of the tree it builds is one segment deeper
    in the keys that are left, so a budget of two more than the length of
    the longest key is never used up. *)
Theorem X18_tree_terminates fuel dbfuel ARMPLATDB keylist root plat :
  (list_max (String.length <$> keylist) + 2 ≤ fuel)%nat →
  Tree.tree fuel dbfuel ARMPLATDB keylist root plat ≠ None.
Proof.
  intros Hfuel. apply TreeFacts.tree_at_total; [done|lia|].
  cbn [Menu.meta]. intros k Hk _.
  assert (String.length k ≤ list_max (String.length <$> keylist))%nat; [|lia].
  pose proof (proj1 (list_max_le (String.length <$> keylist) _)
                (Nat.le_refl _)) as Hall.
  apply (proj1 (Forall_forall _ _) Hall).
  by apply list_elem_of_fmap_2.
Qed.

Lemma X18_tree_terminates_witness :
  Tree.tree 12 2 Docs4.platdb Docs4.keylist "p" None ≠ None.
Proof.
  apply (X18_tree_terminates 12 2 Docs4.platdb Docs4.keylist "p" None).
  vm_compute. lia.
Defined.

(** X19. In a tree that [choice.tree] returns, the children of every node
    are keyed one segment below the node: the key of a child is the key of
    the node, a dot, and a segment without a dot; no two children of a node
    have the same key, and they stand in ascending order of their keys. *)
Theorem X19_tree_shape fuel dbfuel ARMPLATDB keylist root plat t c :
  Tree.tree fuel dbfuel ARMPLATDB keylist root plat = Some (Ret (Some t)) →
  c ∈ Menu.nodes t →
  NoDup (Menu.meta <$> Menu.children c) ∧
  StronglySorted String.le (Menu.meta <$> Menu.children c) ∧
  ∀ c', c' ∈ Menu.children c →
    ∃ seg, PyStr.contains "." seg = false ∧
           Menu.meta c' = Menu.meta c +:+ "." +:+ seg.
Proof.
  intros Ht Hc. unfold Tree.tree in Ht.
  destruct (TreeFacts.tree_at_shape _ _ _
              (Menu.Choice (VStr "<root>") root VNone VNone []) _
              eq_refl Ht c Hc) as [->|[kl Hkl]].
  - repeat split; [constructor|constructor|].
    intros c' Hc'. by apply elem_of_nil in Hc'.
  - rewrite Hkl. split; [apply TreeFacts.child_keys_NoDup|].
    split; [apply TreeFacts.child_keys_sorted|].
    intros c' Hc'.
    assert (Hm : Menu.meta c' ∈ Tree.child_keys (Menu.meta c) kl)
      by (rewrite <- Hkl; by apply list_elem_of_fmap_2).
    apply TreeFacts.child_keys_elem in Hm as (k & _ & ->).
    eexists. split; [apply TreeFacts.first_segment_dotfree|done].
Qed.

Lemma X19_tree_shape_witness :
  NoDup (Menu.meta <$> Menu.children Docs4.juno_node) ∧
  StronglySorted String.le (Menu.meta <$> Menu.children Docs4.juno_node) ∧
  ∀ c', c' ∈ Menu.children Docs4.juno_node →
    ∃ seg, PyStr.contains "." seg = false ∧
           Menu.meta c' = Menu.meta Docs4.juno_node +:+ "." +:+ seg.
Proof.
  apply (X19_tree_shape 12 2 Docs4.platdb Docs4.keylist "p" None Docs4.ptree).
  - vm_compute. reflexivity.
  - apply list_elem_of_In. vm_compute. do 3 right. left. reflexivity.
Defined.

(** X20. A tree that [choice.tree] returns has a node for every key of the
    list that lies below the root, that is, that starts with the key of the
    root and a dot. *)
Theorem X20_tree_covers fuel dbfuel ARMPLATDB keylist root plat t k :
  Tree.tree fuel dbfuel ARMPLATDB keylist root plat = Some (Ret (Some t)) →
  k ∈ keylist →
  String.prefix (root +:+ ".") k = true →
  ∃ c, c ∈ Menu.nodes t ∧ Menu.meta c = k.
Proof.
  intros Ht Hk Hp. unfold Tree.tree in Ht.
  exact (TreeFacts.tree_at_cover _ _ _
           (Menu.Choice (VStr "<root>") root VNone VNone []) _ _
           eq_refl Ht Hk Hp).
Qed.

Lemma X20_tree_covers_witness :
  ∃ c, c ∈ Menu.nodes Docs4.ptree ∧ Menu.meta c = "p.juno.r0"%string.
Proof.
  apply (X20_tree_covers 12 2 Docs4.platdb Docs4.keylist "p" None Docs4.ptree).
  - vm_compute. reflexivity.
  - apply (bool_decide_unpack _). vm_compute. exact I.
  - reflexivity.
Defined.

Example ex_tree :
  Tree.tree 12 2 Docs4.platdb Docs4.keylist "p" None
    = Some (Ret (Some Docs4.ptree)) ∧
  Tree.tree 12 2 Docs4.platdb ["p.juno"]%string "p.juno" None
    = Some (Ret None) ∧
  Tree.tree 12 2 Docs4.platdb ["p.juno"; "p.juno.r0"]%string "p.juno" None
    = Some (Abort NotFound).
Proof. vm_compute. auto. Qed.

(** ** [crawl] of [config._choose_p] *)

Module ConfigFacts.
Import Menu Config.

Lemma choice_ind' (P : choice → Prop) :
  (∀ n m d dis cs, Forall P cs → P (Choice n m d dis cs)) → ∀ c, P c.
Proof.
  intros H. fix IH 1. intros [n m d dis cs]. apply H.
  induction cs as [|c cs IHcs]; constructor; [apply IH|exact IHcs].
Qed.

Lemma each_ret {A B} (f : A → outcome B) l : ∀ l',
  each f l = Ret l' → Forall2 (λ c c', f c = Ret c') l l'.
Proof.
  induction l as [|c l IH]; intros l'; cbn [each].
  - intros [= <-]. constructor.
  - destruct (f c) as [c'| | |] eqn:Hc; [|done..]. rewrite bind_ret.
    destruct (each f l) as [l''| | |]; [|done..]. rewrite bind_ret.
    intros [= <-]. constructor; [done|by apply IH].
Qed.

Section CrawlFacts.
Variable linux : bool.
Variable lu : string → outcome value.

Lemma crawl_some n m d dis cs root' :
  crawl linux lu (Choice n m d dis cs) = Ret root' →
  ∃ cs' pbs num,
    Forall2 (λ c c', crawl linux lu c = Ret c') cs cs' ∧
    lu (m +:+ ".pb") = Ret pbs ∧ num_pbs pbs = Ret num ∧
    root' =
      if (negb (Nat.eqb (List.length cs') 0)
          && Nat.eqb (num_en_children cs') 0)
         || negb (negb (Nat.eqb num 0 && negb linux))
      then Choice n m (VStr needs_linux) (VBool true) cs'
      else Choice n m d dis cs'.
Proof.
  cbn [crawl].
  destruct (each (crawl linux lu) cs) as [cs'| | |] eqn:Hcs; [|done..].
  rewrite bind_ret.
  destruct (lu (m +:+ ".pb")) as [pbs| | |] eqn:Hpbs; [|done..].
  rewrite bind_ret.
  destruct (num_pbs pbs) as [num| | |] eqn:Hnum; [|done..].
  rewrite bind_ret. intros H. exists cs', pbs, num.
  split; [by apply each_ret|]. split; [done|]. split; [done|].
  by destruct ((negb (Nat.eqb (List.length cs') 0)
          && Nat.eqb (num_en_children cs') 0)
         || negb (negb (Nat.eqb num 0 && negb linux))); injection H.
Qed.

Lemma crawl_children n m d dis cs root' :
  crawl linux lu (Choice n m d dis cs) = Ret root' →
  meta root' = m ∧
  Forall2 (λ c c', crawl linux lu c = Ret c') cs (children root').
Proof.
  intros (cs' & pbs & num & Hcs & _ & _ & ->)%crawl_some.
  by destruct (_ || _).
Qed.

Lemma num_en_children_pos cs :
  num_en_children cs ≠ 0%nat →
  ∃ c, c ∈ cs ∧ truthy (disabled c) = false.
Proof.
  unfold num_en_children. induction cs as [|c cs IH]; [done|].
  cbn [List.filter]. destruct (truthy (disabled c)) eqn:Hc; cbn [negb].
  - intros (c' & Hin & Hc')%IH. exists c'. split; [by right|done].
  - intros _. exists c. split; [by left|done].
Qed.

Lemma num_en_children_all cs :
  Forall (λ c, truthy (disabled c) = false) cs →
  num_en_children cs = List.length cs.
Proof.
  unfold num_en_children. induction 1 as [|c cs Hc _ IH]; [done|].
  cbn [List.filter]. rewrite Hc. cbn [negb List.length]. by rewrite IH.
Qed.

Lemma no_dead_end root : ∀ root',
  crawl linux lu root = Ret root' →
  ∀ c, c ∈ nodes root' →
    children c ≠ [] → truthy (disabled c) = false →
    ∃ c', c' ∈ children c ∧ truthy (disabled c') = false.
Proof.
  induction root as [n m d dis cs IH] using choice_ind'.
  intros root' Hroot c Hc Hne Hen.
  apply TreeFacts.nodes_inv in Hc as [->|(c1' & H1 & Hc)].
  - apply crawl_some in Hroot as (cs' & pbs & num & _ & _ & _ & ->).
    destruct (_ && Nat.eqb (num_en_children cs') 0) eqn:Hcond;
      cbn [orb] in *; [done|].
    destruct (negb (negb _)); [done|]. cbn [children disabled] in *.
    apply num_en_children_pos. destruct cs' as [|c0 cs']; [done|].
    cbn [List.length Nat.eqb negb andb] in Hcond. by apply Nat.eqb_neq.
  - apply crawl_children in Hroot as [_ Hcs].
    apply list_elem_of_lookup in H1 as [i Hi].
    destruct (Forall2_lookup_r _ _ _ _ _ Hcs Hi) as (c1 & H1 & Hc1).
    by eapply (Forall_lookup_1 _ _ _ _ IH H1).
Qed.

Lemma without_prebuilts root : ∀ root',
  linux = false →
  crawl linux lu root = Ret root' →
  ∀ c pbs, c ∈ nodes root' →
    lu (meta c +:+ ".pb") = Ret pbs → truthy pbs = false →
    disabled c = VBool true.
Proof.
  induction root as [n m d dis cs IH] using choice_ind'.
  intros root' Hlinux Hroot c pbs Hc Hpbs Hno.
  apply TreeFacts.nodes_inv in Hc as [->|(c1' & H1 & Hc)].
  - pose proof (crawl_children _ _ _ _ _ _ Hroot) as [Hm _].
    apply crawl_some in Hroot as (cs' & pbs' & num & _ & Hpbs' & Hnum & ->).
    rewrite Hm, Hpbs' in Hpbs. injection Hpbs as ->.
    unfold num_pbs in Hnum. rewrite Hno in Hnum. injection Hnum as <-.
    rewrite Hlinux. cbn [Nat.eqb negb andb]. by rewrite orb_true_r.
  - apply crawl_children in Hroot as [_ Hcs].
    apply list_elem_of_lookup in H1 as [i Hi].
    destruct (Forall2_lookup_r _ _ _ _ _ Hcs Hi) as (c1 & H1 & Hc1).
    by eapply (Forall_lookup_1 _ _ _ _ IH H1).
Qed.

Lemma on_linux root : ∀ root',
  linux = true →
  (∀ c, c ∈ nodes root → truthy (disabled c) = false) →
  crawl linux lu root = Ret root' →
  root' = root.
Proof.
  induction root as [n m d dis cs IH] using choice_ind'.
  intros root' Hlinux Hen
    (cs' & pbs & num & Hcs & _ & _ & ->)%crawl_some.
  assert (Heq : cs' = cs).
  { symmetry. apply list_eq_same_length with (List.length cs);
      [symmetry; by eapply Forall2_length|done|].
    intros i c c' _ Hc Hc'.
    destruct (Forall2_lookup_l _ _ _ _ _ Hcs Hc) as (c'' & Hc'' & Hr).
    rewrite Hc' in Hc''. injection Hc'' as <-. symmetry.
    apply (Forall_lookup_1 _ _ _ _ IH Hc); [done| |done].
    intros c0 H0. apply Hen.
    eapply MenuFacts.nodes_child; [|exact H0].
    by eapply list_elem_of_lookup_2. }
  subst cs'. rewrite num_en_children_all.
  - rewrite Hlinux. cbn [negb andb]. rewrite andb_false_r, orb_false_r.
    by destruct (Nat.eqb (List.length cs) 0).
  - apply Forall_forall. intros c Hc. apply Hen.
    eapply MenuFacts.nodes_child; [exact Hc|apply MenuFacts.nodes_root].
Qed.

End CrawlFacts.

End ConfigFacts.

(** X21. [crawl] leaves no dead end in the menu of platforms: in the tree
    as it leaves it, a node that has children and is not disabled has a
    child that is not disabled, so that [prompt] has a choice to return. *)
Theorem X21_crawl_no_dead_end dbfuel ARMPLATDB linux root root' c :
  Config.crawl_db dbfuel ARMPLATDB linux root = Ret root' →
  c ∈ Menu.nodes root' →
  Menu.children c ≠ [] →
  Menu.truthy (Menu.disabled c) = false →
  ∃ c', c' ∈ Menu.children c ∧ Menu.truthy (Menu.disabled c') = false.
Proof.
  intros Hroot. exact (ConfigFacts.no_dead_end linux _ root root' Hroot c).
Qed.

Lemma X21_crawl_no_dead_end_witness :
  ∃ c', c' ∈ Menu.children Docs4.juno_node
        ∧ Menu.truthy (Menu.disabled c') = false.
Proof.
  apply (X21_crawl_no_dead_end 2 Docs4.platdb false Docs4.ptree
           Docs5.ptree_off Docs4.juno_node).
  - vm_compute. reflexivity.
  - apply list_elem_of_In. vm_compute. do 3 right. left. reflexivity.
  - discriminate.
  - reflexivity.
Defined.

(** X22. On a Linux host [crawl] switches nothing off: a tree in which no
    node is disabled, as [choice.tree] builds it, is left as it is. *)
Theorem X22_crawl_on_linux dbfuel ARMPLATDB root root' :
  (∀ c, c ∈ Menu.nodes root → Menu.truthy (Menu.disabled c) = false) →
  Config.crawl_db dbfuel ARMPLATDB true root = Ret root' →
  root' = root.
Proof.
  intros Hen Hroot.
  exact (ConfigFacts.on_linux true _ root root' eq_refl Hen Hroot).
Qed.

Lemma X22_crawl_on_linux_witness :
  ∃ root', Config.crawl_db 2 Docs4.platdb true Docs4.ptree = Ret root'
           ∧ root' = Docs4.ptree.
Proof.
  exists Docs4.ptree. split; [vm_compute; reflexivity|].
  apply (X22_crawl_on_linux 2 Docs4.platdb Docs4.ptree Docs4.ptree).
  - apply Forall_forall. cbn. repeat constructor.
  - vm_compute. reflexivity.
Defined.

(** X23. On a host other than Linux [crawl] disables every node for which
    the database has no prebuilt configuration, a node with children that
    have one included. *)
Theorem X23_crawl_without_prebuilts dbfuel ARMPLATDB root root' c pbs :
  Config.crawl_db dbfuel ARMPLATDB false root = Ret root' →
  c ∈ Menu.nodes root' →
  dblu dbfuel ARMPLATDB (Menu.meta c +:+ ".pb") None true = Ret pbs →
  Menu.truthy pbs = false →
  Menu.disabled c = VBool true.
Proof.
  intros Hroot Hc Hpbs Hno.
  exact (ConfigFacts.without_prebuilts false _ root root' eq_refl Hroot
           c pbs Hc Hpbs Hno).
Qed.

Lemma X23_crawl_without_prebuilts_witness :
  Menu.disabled Docs5.fvp_off = VBool true.
Proof.
  apply (X23_crawl_without_prebuilts 2 Docs4.platdb Docs4.ptree
           Docs5.ptree_off Docs5.fvp_off VNone).
  - vm_compute. reflexivity.
  - apply list_elem_of_In. vm_compute. right. left. reflexivity.
  - vm_compute. reflexivity.
  - reflexivity.
Defined.

Example ex_crawl :
  Config.crawl_db 2 Docs4.platdb true Docs4.ptree = Ret Docs4.ptree ∧
  Config.crawl_db 2 Docs4.platdb false Docs4.ptree = Ret Docs5.ptree_off.
Proof. vm_compute. auto. Qed.
